(** * recycle-ai: the proxy route, the retry wrapper and the chat state

    A shallow embedding of [backend/server.js] and [frontend/src/App.tsx].

    Strings are sequences of code units below 256 ([string]); JSON data is
    the tree [Json]; a promise is the value it settles to; the clock, the
    upstream service and the browser store are explicit arguments.

    The repository holds a second, earlier copy of the component, with
    another prompt text, the prompt itself as the first user message and no
    way to reopen a history entry; the embedding follows
    [frontend/src/App.tsx]. *)

From Stdlib Require Import ZArith Ascii String DecimalString.
From stdpp Require Import base option list strings gmap.

Local Open Scope Z_scope.

(** ** JavaScript strings *)

Module Js.

(** [String.prototype.trim] strips white space and line terminators.  Below
    code unit 256 these are TAB, LF, VT, FF, CR, SPACE and NBSP. *)
Definition is_white (c : ascii) : bool :=
  match N_of_ascii c with
  | 9 | 10 | 11 | 12 | 13 | 32 | 160 => true
  | _ => false
  end%N.

Fixpoint trim_start (s : string) : string :=
  match s with
  | String c s' => if is_white c then trim_start s' else s
  | EmptyString => EmptyString
  end.

(** [trim_end s] drops the trailing white space: a character stays when it
    is not white or when something stays behind it. *)
Fixpoint trim_end (s : string) : string :=
  match s with
  | String c s' =>
      match trim_end s' with
      | EmptyString => if is_white c then EmptyString else String c EmptyString
      | t => String c t
      end
  | EmptyString => EmptyString
  end.

Definition trim (s : string) : string := trim_end (trim_start s).

(** [s.trim() !== ''] *)
Definition nonblank (s : string) : bool :=
  negb (String.eqb (trim s) "").

(** [Array.prototype.join] on an array of strings *)
Fixpoint join (sep : string) (l : list string) : string :=
  match l with
  | [] => ""
  | [x] => x
  | x :: l' => x +:+ sep +:+ join sep l'
  end.

Fixpoint all_white (s : string) : bool :=
  match s with
  | String c s' => is_white c && all_white s'
  | EmptyString => true
  end.

End Js.

(** ** JSON values as JavaScript sees them *)

(** Numbers are kept to the integers (zero is falsy).  An object is the
    list of its own properties in order, their names distinct. *)
#[local] Unset Elimination Schemes.
Inductive Json : Type :=
  | JNull
  | JBool (b : bool)
  | JNum (n : Z)
  | JStr (s : string)
  | JArr (elems : list Json)
  | JObj (props : list (string * Json)).
#[local] Set Elimination Schemes.

Definition Json_induction (P : Json → Prop)
    (Hnull : P JNull) (Hbool : ∀ b, P (JBool b)) (Hnum : ∀ n, P (JNum n))
    (Hstr : ∀ s, P (JStr s))
    (Harr : ∀ l, Forall P l → P (JArr l))
    (Hobj : ∀ ps, Forall (λ kv, P kv.2) ps → P (JObj ps)) :
  ∀ v, P v :=
  fix go (v : Json) : P v :=
    match v with
    | JNull => Hnull
    | JBool b => Hbool b
    | JNum n => Hnum n
    | JStr s => Hstr s
    | JArr l =>
        Harr l ((fix all (l : list Json) : Forall P l :=
                   match l with
                   | [] => @List.Forall_nil _ P
                   | x :: l' => @List.Forall_cons _ P x l' (go x) (all l')
                   end) l)
    | JObj ps =>
        Hobj ps ((fix all (ps : list (string * Json)) : Forall (λ kv, P kv.2) ps :=
                    match ps with
                    | [] => @List.Forall_nil _ _
                    | kv :: ps' => @List.Forall_cons _ (λ kv, P kv.2) kv ps' (go kv.2) (all ps')
                    end) ps)
    end.

Module Value.

(** The result of reading a property: [None] is [undefined]. *)
Definition prop_of (ps : list (string * Json)) (k : string) : option Json :=
  snd <$> List.find (λ kv, String.eqb kv.1 k) ps.

(** [v.k] for a name [k] that no prototype defines ([candidates],
    [content], [parts], [text], [contents]).  Reading a property of [null]
    throws a TypeError: the outer [None]. *)
Definition get (v : Json) (k : string) : option (option Json) :=
  match v with
  | JNull => None
  | JObj ps => Some (prop_of ps k)
  | _ => Some None
  end.

(** [v[0]]: the first element of an array, the first character of a string,
    the property named "0" of an object. *)
Definition first (v : Json) : option (option Json) :=
  match v with
  | JNull => None
  | JArr l => Some (head l)
  | JStr (String c _) => Some (Some (JStr (String c "")))
  | JObj ps => Some (prop_of ps "0")
  | _ => Some None
  end.

(** Optional chaining: [o?.k] and [o?.[0]] are [undefined] when [o] is
    [undefined] or [null], and never throw. *)
Definition opt_get (o : option Json) (k : string) : option Json :=
  match o with
  | Some v => default None (get v k)
  | None => None
  end.

Definition opt_first (o : option Json) : option Json :=
  match o with
  | Some v => default None (first v)
  | None => None
  end.

(** ToBoolean *)
Definition truthy (v : Json) : bool :=
  match v with
  | JNull => false
  | JBool b => b
  | JNum n => negb (n =? 0)
  | JStr s => negb (String.eqb s "")
  | JArr _ | JObj _ => true
  end.

(** [o || d] *)
Definition or_else (o : option Json) (d : Json) : Json :=
  match o with
  | Some v => if truthy v then v else d
  | None => d
  end.

End Value.

(** ** The retry wrapper of the client ([fetchWithRetry]) *)

Module Retry.

Definition MAX_RETRIES : nat := 3.
Definition RETRY_DELAY : Z := 1000.

Definition endpoint : string := "https://waste-ai-krjb.onrender.com/api/gemini".

(** How [axios.post] settles: resolved with the body of a 2xx response,
    rejected with an AxiosError that carries the response (any other
    status), or rejected with an AxiosError without a response. *)
Inductive Reply : Type :=
  | Resolves (data : Json)
  | HttpError (status : Z) (data : Json)
  | NoResponse.

Inductive Thrown : Type :=
  | AxiosError (response : option (Z * Json))
  | TypeError.

Inductive Settled (A : Type) : Type :=
  | Fulfilled (a : A)
  | Rejected (e : Thrown).
Arguments Fulfilled {A} a.
Arguments Rejected {A} e.

(** The service behind the endpoint answers the [n]-th request it gets
    (counted from 0) as a function of the request body. *)
Definition Upstream : Type := nat → Json → Reply.

(** What the wrapper does to the outside, in order. *)
Inductive Event : Type :=
  | Posted (url : string) (body : Json)
  | Slept (ms : Z).

(** [{ contents: [{ parts: [{ text: prompt }] }] }] *)
Definition request_body (prompt : string) : Json :=
  JObj [("contents", JArr [JObj [("parts", JArr [JObj [("text", JStr prompt)]])]])].

(** [response.data.candidates?.[0]?.content?.parts?.[0]?.text
      || "No instructions found."]: only the first property access is
    unguarded. *)
Definition fallback : string := "No instructions found.".

Definition extract_text (data : Json) : Settled Json :=
  match Value.get data "candidates" with
  | None => Rejected TypeError
  | Some candidates =>
      let part :=
        Value.opt_first
          (Value.opt_get (Value.opt_get (Value.opt_first candidates) "content") "parts") in
      Fulfilled (Value.or_else (Value.opt_get part "text") (JStr fallback))
  end.

(** The path [candidates[0].content.parts[0].text] read with every step
    guarded: what a body "has" or "lacks" there. *)
Definition text_at (data : Json) : option Json :=
  Value.opt_get
    (Value.opt_first
       (Value.opt_get
          (Value.opt_get (Value.opt_first (Value.opt_get (Some data) "candidates"))
             "content") "parts")) "text".

(** A body of the documented shape
    [{ candidates: [{ content: { parts: [{ text }] } }] }]. *)
Definition answer (text : string) : Json :=
  JObj [("candidates",
         JArr [JObj [("content", JObj [("parts", JArr [JObj [("text", JStr text)]])])]])].

(** [err.response?.status] *)
Definition status_of (r : Reply) : option Z :=
  match r with
  | HttpError status _ => Some status
  | _ => None
  end.

(** The value of the promise when no retry follows the reply. *)
Definition settle (r : Reply) : Settled Json :=
  match r with
  | Resolves data => extract_text data
  | HttpError status data => Rejected (AxiosError (Some (status, data)))
  | NoResponse => Rejected (AxiosError None)
  end.

(** The recursion of [fetchWithRetry] is bounded by [fuel]; [sent] counts the
    requests made so far.  [None] in the result: the fuel ran out. *)
Fixpoint fetchWithRetry_fuel (fuel : nat) (up : Upstream) (prompt : string)
    (retryCount sent : nat) : list Event * option (Settled Json) :=
  match fuel with
  | O => ([], None)
  | S fuel' =>
      let body := request_body prompt in
      let reply := up sent body in
      match reply with
      | HttpError status _ =>
          if (status =? 429) && (retryCount <? MAX_RETRIES)%nat then
            let '(evs, r) :=
              fetchWithRetry_fuel fuel' up prompt (retryCount + 1) (sent + 1) in
            (Posted endpoint body :: Slept (RETRY_DELAY * 2 ^ Z.of_nat retryCount) :: evs, r)
          else ([Posted endpoint body], Some (settle reply))
      | _ => ([Posted endpoint body], Some (settle reply))
      end
  end.

Definition fetchWithRetry (up : Upstream) (prompt : string) (retryCount : nat)
    : list Event * option (Settled Json) :=
  fetchWithRetry_fuel (S (MAX_RETRIES - retryCount)) up prompt retryCount 0.

(** The schedule of a run that stops at its [i]-th retry: a request, then
    for each retry a wait and a request. *)
Fixpoint schedule (body : Json) (retryCount i : nat) : list Event :=
  match i with
  | O => [Posted endpoint body]
  | S i' =>
      Posted endpoint body :: Slept (RETRY_DELAY * 2 ^ Z.of_nat retryCount)
        :: schedule body (retryCount + 1) i'
  end.

Definition posts (evs : list Event) : list Json :=
  omap (λ e, match e with Posted _ b => Some b | Slept _ => None end) evs.

Definition waits (evs : list Event) : list Z :=
  omap (λ e, match e with Slept ms => Some ms | Posted _ _ => None end) evs.

End Retry.

(** ** [JSON.stringify] and [JSON.parse] *)

Module JSON.

Definition dquote : ascii := "034"%char.
Definition backslash : ascii := "092"%char.

Definition hex_digit (n : N) : ascii :=
  match n with
  | 0 => "0" | 1 => "1" | 2 => "2" | 3 => "3" | 4 => "4" | 5 => "5"
  | 6 => "6" | 7 => "7" | 8 => "8" | 9 => "9" | 10 => "a" | 11 => "b"
  | 12 => "c" | 13 => "d" | 14 => "e" | _ => "f"
  end%N%char.

(** QuoteJSONString, one code unit: the quote, the backslash and the control
    characters are escaped, everything else is copied.  Each writer puts its
    text in front of the text [k] that follows it. *)
Definition write_char (c : ascii) (k : string) : string :=
  match c with
  | "034" => String backslash (String dquote k)
  | "092" => String backslash (String backslash k)
  | "008" => String backslash (String "b" k)
  | "012" => String backslash (String "f" k)
  | "010" => String backslash (String "n" k)
  | "013" => String backslash (String "r" k)
  | "009" => String backslash (String "t" k)
  | _ =>
      if (N_of_ascii c <? 32)%N then
        String backslash (String "u" (String "0" (String "0"
          (String (hex_digit (N_of_ascii c / 16))
             (String (hex_digit (N_of_ascii c mod 16)) k)))))
      else String c k
  end%char.

Fixpoint write_chars (s : string) (k : string) : string :=
  match s with
  | String c s' => write_char c (write_chars s' k)
  | EmptyString => k
  end.

Definition write_string (s : string) (k : string) : string :=
  String dquote (write_chars s (String dquote k)).

(** The elements of an array or the members of an object, separated by
    commas and closed by [close]. *)
Definition write_list {A : Type} (w : A → string → string) (close : ascii)
    : list A → string → string :=
  fix go (l : list A) (k : string) : string :=
    match l with
    | [] => String close k
    | x :: l' =>
        w x (match l' with
             | [] => String close k
             | _ :: _ => String "," (go l' k)
             end)
    end.

Definition write_number (n : Z) (k : string) : string :=
  NilZero.string_of_int (Z.to_int n) +:+ k.

Fixpoint write (v : Json) (k : string) : string :=
  match v with
  | JNull => String "n" (String "u" (String "l" (String "l" k)))
  | JBool true => String "t" (String "r" (String "u" (String "e" k)))
  | JBool false => String "f" (String "a" (String "l" (String "s" (String "e" k))))
  | JNum n => write_number n k
  | JStr s => write_string s k
  | JArr l => String "[" (write_list write "]" l k)
  | JObj ps =>
      String "{"
        (write_list (λ kv k', write_string kv.1 (String ":" (write kv.2 k'))) "}" ps k)
  end.

(** [JSON.stringify(v)] *)
Definition stringify (v : Json) : string := write v "".

Inductive Failure : Type :=
  | SyntaxError      (* what [JSON.parse] throws *)
  | Unsupported      (* text that is JSON or may be, outside this model *)
  | OutOfFuel.

Inductive result (A : Type) : Type :=
  | Ok (a : A)
  | Err (e : Failure).
Arguments Ok {A} a.
Arguments Err {A} e.

Definition bind {A B : Type} (r : result A) (f : A → result B) : result B :=
  match r with
  | Ok a => f a
  | Err e => Err e
  end.

Notation "' p ← r ; k" := (bind r (λ p, k))
  (at level 20, p pattern, r at level 100, k at level 200, only parsing).

(** JSON white space: SPACE, TAB, LF, CR *)
Definition is_space (c : ascii) : bool :=
  match c with
  | "032" | "009" | "010" | "013" => true
  | _ => false
  end%char.

Fixpoint skip_white (s : string) : string :=
  match s with
  | String c s' => if is_space c then skip_white s' else s
  | EmptyString => EmptyString
  end.

Definition hex_value (c : ascii) : option N :=
  let n := N_of_ascii c in
  if (48 <=? n)%N && (n <=? 57)%N then Some (n - 48)%N
  else if (97 <=? n)%N && (n <=? 102)%N then Some (n - 87)%N
  else if (65 <=? n)%N && (n <=? 70)%N then Some (n - 55)%N
  else None.

Definition hex4 (a b c d : ascii) : option N :=
  x ← hex_value a; y ← hex_value b; z ← hex_value c; w ← hex_value d;
  Some (((x * 16 + y) * 16 + z) * 16 + w)%N.

Definition push (c : ascii) (r : result (string * string)) : result (string * string) :=
  ' (s, rest) ← r ; Ok (String c s, rest).

(** The characters of a string literal after its opening quote, up to the
    closing quote.  An escape above code unit 255 is outside the model. *)
Fixpoint read_chars (s : string) : result (string * string) :=
  match s with
  | EmptyString => Err SyntaxError
  | String c s' =>
      match c with
      | "034" => Ok (EmptyString, s')
      | "092" =>
          match s' with
          | String e s'' =>
              match e with
              | "034" => push "034" (read_chars s'')
              | "092" => push "092" (read_chars s'')
              | "/" => push "/" (read_chars s'')
              | "b" => push "008" (read_chars s'')
              | "f" => push "012" (read_chars s'')
              | "n" => push "010" (read_chars s'')
              | "r" => push "013" (read_chars s'')
              | "t" => push "009" (read_chars s'')
              | "u" =>
                  match s'' with
                  | String h1 (String h2 (String h3 (String h4 s3))) =>
                      match hex4 h1 h2 h3 h4 with
                      | Some n =>
                          if (n <? 256)%N then push (ascii_of_N n) (read_chars s3)
                          else Err Unsupported
                      | None => Err SyntaxError
                      end
                  | _ => Err SyntaxError
                  end
              | _ => Err SyntaxError
              end
          | EmptyString => Err SyntaxError
          end
      | _ => if (N_of_ascii c <? 32)%N then Err SyntaxError else push c (read_chars s')
      end
  end%char.

Definition is_digit (c : ascii) : bool :=
  let n := N_of_ascii c in (48 <=? n)%N && (n <=? 57)%N.

Fixpoint all_digits (s : string) : bool :=
  match s with
  | String c s' => is_digit c && all_digits s'
  | EmptyString => true
  end.

(** The engine keeps the members of an object in the order of the text
    unless a key is repeated or is an array index; objects with such keys
    are left out of the model. *)
Definition key_ok (k : string) : bool :=
  String.eqb k "" || negb (all_digits k).

Fixpoint keys_ok (ps : list (string * Json)) : bool :=
  match ps with
  | [] => true
  | (k, _) :: ps' =>
      key_ok k && forallb (λ kv, negb (String.eqb kv.1 k)) ps' && keys_ok ps'
  end.

Fixpoint strip_prefix (word s : string) : option string :=
  match word, s with
  | EmptyString, _ => Some s
  | String a word', String b s' => if Ascii.eqb a b then strip_prefix word' s' else None
  | String _ _, EmptyString => None
  end.

Definition literal (word : string) (v : Json) (s : string) : result (Json * string) :=
  match strip_prefix word s with
  | Some rest => Ok (v, rest)
  | None => Err SyntaxError
  end.

Fixpoint read_value (fuel : nat) (s : string) : result (Json * string) :=
  match fuel with
  | O => Err OutOfFuel
  | S fuel' =>
      match skip_white s with
      | EmptyString => Err SyntaxError
      | String c s' =>
          if Ascii.eqb c dquote then
            ' (str, rest) ← read_chars s' ; Ok (JStr str, rest)
          else if Ascii.eqb c "[" then
            match skip_white s' with
            | EmptyString => Err SyntaxError
            | String c' rest =>
                if Ascii.eqb c' "]" then Ok (JArr [], rest)
                else ' (l, rest') ← read_elements fuel' s' ; Ok (JArr l, rest')
            end
          else if Ascii.eqb c "{" then
            match skip_white s' with
            | EmptyString => Err SyntaxError
            | String c' rest =>
                if Ascii.eqb c' "}" then Ok (JObj [], rest)
                else
                  ' (ps, rest') ← read_members fuel' s' ;
                  if keys_ok ps then Ok (JObj ps, rest') else Err Unsupported
            end
          else if Ascii.eqb c "n" then literal "ull" JNull s'
          else if Ascii.eqb c "t" then literal "rue" (JBool true) s'
          else if Ascii.eqb c "f" then literal "alse" (JBool false) s'
          else if Ascii.eqb c "-" || is_digit c then Err Unsupported
          else Err SyntaxError
      end
  end
with read_elements (fuel : nat) (s : string) : result (list Json * string) :=
  match fuel with
  | O => Err OutOfFuel
  | S fuel' =>
      ' (v, rest) ← read_value fuel' s ;
      match skip_white rest with
      | EmptyString => Err SyntaxError
      | String c rest' =>
          if Ascii.eqb c "," then
            ' (l, rest'') ← read_elements fuel' rest' ; Ok (v :: l, rest'')
          else if Ascii.eqb c "]" then Ok ([v], rest')
          else Err SyntaxError
      end
  end
with read_members (fuel : nat) (s : string) : result (list (string * Json) * string) :=
  match fuel with
  | O => Err OutOfFuel
  | S fuel' =>
      match skip_white s with
      | EmptyString => Err SyntaxError
      | String q s1 =>
          if Ascii.eqb q dquote then
            ' (key, rest) ← read_chars s1 ;
            match skip_white rest with
            | EmptyString => Err SyntaxError
            | String c rest1 =>
                if Ascii.eqb c ":" then
                  ' (v, rest2) ← read_value fuel' rest1 ;
                  match skip_white rest2 with
                  | EmptyString => Err SyntaxError
                  | String c' rest3 =>
                      if Ascii.eqb c' "," then
                        ' (ps, rest4) ← read_members fuel' rest3 ;
                        Ok ((key, v) :: ps, rest4)
                      else if Ascii.eqb c' "}" then Ok ([(key, v)], rest3)
                      else Err SyntaxError
                  end
                else Err SyntaxError
            end
          else Err SyntaxError
      end
  end.

(** [JSON.parse(s)] *)
Definition parse (s : string) : result Json :=
  ' (v, rest) ← read_value (S (String.length s)) s ;
  match skip_white rest with
  | EmptyString => Ok v
  | _ => Err SyntaxError
  end.

(** The first character of a written value is not white space and closes
    neither an array nor an object. *)
Definition opens (c : ascii) : bool :=
  negb (is_space c) && negb (Ascii.eqb c "]") && negb (Ascii.eqb c "}").

(** The values [parse] is modelled on: no numbers, keys as [keys_ok]. *)
Fixpoint supported (v : Json) : bool :=
  match v with
  | JNum _ => false
  | JArr l => forallb supported l
  | JObj ps => keys_ok ps && forallb (λ kv, supported kv.2) ps
  | _ => true
  end.

Fixpoint size (v : Json) : nat :=
  match v with
  | JArr l => S (list_sum (map (λ x, S (size x)) l))
  | JObj ps => S (list_sum (map (λ kv, S (size kv.2)) ps))
  | _ => 1
  end.

(** What reading back a written value means: enough fuel gives the value
    and the text behind it. *)
Definition reads_back (v : Json) : Prop :=
  ∀ fuel k, (size v ≤ fuel)%nat → read_value fuel (write v k) = Ok (v, k).

End JSON.

(** ** The proxy route [POST /api/gemini] of [backend/server.js] *)

Module Proxy.

Import Retry.

Record Response : Type := { status : Z; body : Json }.

(** What [console.error] gets as its second argument: the data of the
    upstream response, or the message of the error. *)
Inductive Logged : Type :=
  | LoggedData (data : Json)
  | LoggedMessage (err : Thrown).

Record Handled : Type := {
  response : Response;
  calls : list (string * Json);   (* requests made upstream: URL and body *)
  log : list Logged
}.

(** [process.env.VITE_GOOGLE_API_KEY] spliced into the URL; an unset
    variable prints as "undefined". *)
Definition API_URL (API_KEY : option string) : string :=
  "https://generativelanguage.googleapis.com/v1/models/gemini-pro:generateContent?key="
    +:+ default "undefined" API_KEY.

(** [error.response?.data] *)
Definition response_data (e : Thrown) : option Json :=
  match e with
  | AxiosError (Some (_, data)) => Some data
  | _ => None
  end.

Definition internal_error : Json := JStr "Internal Server Error".

(** The [catch] block. *)
Definition on_error (e : Thrown) (calls : list (string * Json)) : Handled :=
  {| response :=
       {| status := 500;
          body := JObj [("error", Value.or_else (response_data e) internal_error)] |};
     calls := calls;
     log := [match response_data e with
             | Some d => if Value.truthy d then LoggedData d else LoggedMessage e
             | None => LoggedMessage e
             end] |}.

(** [{ contents: req.body.contents }] as it goes on the wire: a property
    whose value is [undefined] is not written. *)
Definition requestData (contents : option Json) : Json :=
  JObj (match contents with
        | Some c => [("contents", c)]
        | None => []
        end).

(** The route handler.  [req_body] is [req.body] ([None]: [undefined]);
    [upstream] is how [axios.post(API_URL, requestData)] settles. *)
Definition handler (API_KEY : option string) (upstream : string → Json → Reply)
    (req_body : option Json) : Handled :=
  match req_body ≫= (λ b, Value.get b "contents") with
  | None => on_error TypeError []
  | Some contents =>
      let call := (API_URL API_KEY, requestData contents) in
      match upstream call.1 call.2 with
      | Resolves data =>
          {| response := {| status := 200; body := data |}; calls := [call]; log := [] |}
      | HttpError st data => on_error (AxiosError (Some (st, data))) [call]
      | NoResponse => on_error (AxiosError None) [call]
      end
  end.

End Proxy.

(** ** The chat state of [App] and its handlers *)

Module App.

Import Retry.

Record RecyclingItem : Type := { item_id : string; item_name : string }.

Record RecyclingInstruction : Type := {
  entry_id : string;
  entry_items : list RecyclingItem;
  entry_additionalNotes : string;
  entry_instructions : string;
  entry_timestamp : string
}.

Inductive Role : Type := user | assistant.

Record Message : Type := {
  msg_type : Role;
  msg_content : string;
  msg_timestamp : string
}.

(** The [useState] cells of [App]. *)
Record State : Type := {
  theme : string;
  items : list RecyclingItem;
  additionalNotes : string;
  isLoading : bool;
  history : list RecyclingInstruction;
  error : option string;
  messages : list Message;
  currentInput : string;
  showItemsInput : bool;
  hasInitialResponse : bool
}.

Definition blank_item (id : string) : RecyclingItem :=
  {| item_id := id; item_name := "" |}.

Definition initial : State :=
  {| theme := "dark"; items := [blank_item "1"]; additionalNotes := "";
     isLoading := false; history := []; error := None; messages := [];
     currentInput := ""; showItemsInput := true; hasInitialResponse := false |}.

Definition setTheme (v : string) (s : State) : State :=
  {| theme := v; items := items s; additionalNotes := additionalNotes s;
     isLoading := isLoading s; history := history s; error := error s;
     messages := messages s; currentInput := currentInput s;
     showItemsInput := showItemsInput s; hasInitialResponse := hasInitialResponse s |}.

Definition setItems (v : list RecyclingItem) (s : State) : State :=
  {| theme := theme s; items := v; additionalNotes := additionalNotes s;
     isLoading := isLoading s; history := history s; error := error s;
     messages := messages s; currentInput := currentInput s;
     showItemsInput := showItemsInput s; hasInitialResponse := hasInitialResponse s |}.

Definition setAdditionalNotes (v : string) (s : State) : State :=
  {| theme := theme s; items := items s; additionalNotes := v;
     isLoading := isLoading s; history := history s; error := error s;
     messages := messages s; currentInput := currentInput s;
     showItemsInput := showItemsInput s; hasInitialResponse := hasInitialResponse s |}.

Definition setIsLoading (v : bool) (s : State) : State :=
  {| theme := theme s; items := items s; additionalNotes := additionalNotes s;
     isLoading := v; history := history s; error := error s;
     messages := messages s; currentInput := currentInput s;
     showItemsInput := showItemsInput s; hasInitialResponse := hasInitialResponse s |}.

Definition setHistory (v : list RecyclingInstruction) (s : State) : State :=
  {| theme := theme s; items := items s; additionalNotes := additionalNotes s;
     isLoading := isLoading s; history := v; error := error s;
     messages := messages s; currentInput := currentInput s;
     showItemsInput := showItemsInput s; hasInitialResponse := hasInitialResponse s |}.

Definition setError (v : option string) (s : State) : State :=
  {| theme := theme s; items := items s; additionalNotes := additionalNotes s;
     isLoading := isLoading s; history := history s; error := v;
     messages := messages s; currentInput := currentInput s;
     showItemsInput := showItemsInput s; hasInitialResponse := hasInitialResponse s |}.

Definition setMessages (v : list Message) (s : State) : State :=
  {| theme := theme s; items := items s; additionalNotes := additionalNotes s;
     isLoading := isLoading s; history := history s; error := error s;
     messages := v; currentInput := currentInput s;
     showItemsInput := showItemsInput s; hasInitialResponse := hasInitialResponse s |}.

Definition setCurrentInput (v : string) (s : State) : State :=
  {| theme := theme s; items := items s; additionalNotes := additionalNotes s;
     isLoading := isLoading s; history := history s; error := error s;
     messages := messages s; currentInput := v;
     showItemsInput := showItemsInput s; hasInitialResponse := hasInitialResponse s |}.

Definition setShowItemsInput (v : bool) (s : State) : State :=
  {| theme := theme s; items := items s; additionalNotes := additionalNotes s;
     isLoading := isLoading s; history := history s; error := error s;
     messages := messages s; currentInput := currentInput s;
     showItemsInput := v; hasInitialResponse := hasInitialResponse s |}.

Definition setHasInitialResponse (v : bool) (s : State) : State :=
  {| theme := theme s; items := items s; additionalNotes := additionalNotes s;
     isLoading := isLoading s; history := history s; error := error s;
     messages := messages s; currentInput := currentInput s;
     showItemsInput := showItemsInput s; hasInitialResponse := v |}.

(** *** The item list *)

Definition rename (id value : string) (item : RecyclingItem) : RecyclingItem :=
  if String.eqb (item_id item) id
  then {| item_id := item_id item; item_name := value |}
  else item.

(** The updater that [handleItemChange id value] passes to [setItems];
    [now] is [Date.now().toString()].  On an empty list
    [prevItems[prevItems.length - 1]] is [undefined] and reading its [id]
    throws: [None]. *)
Definition handleItemChange (id value now : string) (prevItems : list RecyclingItem)
    : option (list RecyclingItem) :=
  let updatedItems := rename id value <$> prevItems in
  lastItem ← last prevItems;
  if String.eqb id (item_id lastItem) && Js.nonblank value
  then Some (updatedItems ++ [blank_item now])
  else Some updatedItems.

(** [removeItem id]: the length test reads the list of the current render,
    the filter runs on the list of the moment; here they are the same. *)
Definition removeItem (id : string) (items : list RecyclingItem) : list RecyclingItem :=
  if (1 <? length items)%nat
  then filter (λ item, item_id item ≠ id) items
  else items.

(** *** Prompts *)

Definition newline : string := String "010"%char EmptyString.

Definition label (msg : Message) : string :=
  (match msg_type msg with user => "Human" | assistant => "Assistant" end)
    +:+ ": " +:+ msg_content msg.

(** [buildPromptWithContext newPrompt] *)
Definition buildPromptWithContext (messages : list Message) (newPrompt : string) : string :=
  let contextPrompt := Js.join newline (label <$> messages) in
  contextPrompt +:+ newline +:+ newline +:+ "Human: " +:+ newPrompt.

Definition validItems (items : list RecyclingItem) : list RecyclingItem :=
  filter (λ item, Js.nonblank (item_name item)) items.

Definition itemsList (items : list RecyclingItem) : string :=
  Js.join ", " (item_name <$> items).

Definition initialPrompt (valid : list RecyclingItem) (notes : string) : string :=
  "I have the following items: " +:+ itemsList valid
  +:+ ". Instead of just recycling them, I want to explore creative ways to upcycle or repurpose them into something useful or beautiful. Please provide innovative ideas for transforming these items into new products, home decor, or practical everyday objects. Also, include any necessary recycling steps before repurposing. Additional considerations: "
  +:+ notes
  +:+ ". Don't provide different answers for each item, provide the answer of using all together".

(** [loadHistoryChat entry] *)
Definition loadHistoryChat (entry : RecyclingInstruction) (s : State) : State :=
  setHasInitialResponse true
    (setShowItemsInput false
       (setMessages
          [ {| msg_type := user;
               msg_content := "Items: " +:+ itemsList (entry_items entry);
               msg_timestamp := entry_timestamp entry |};
            {| msg_type := assistant;
               msg_content := entry_instructions entry;
               msg_timestamp := entry_timestamp entry |} ] s)).

(** [handleNewChat] *)
Definition handleNewChat (s : State) : State :=
  setHasInitialResponse false
    (setShowItemsInput true
       (setAdditionalNotes ""
          (setItems [blank_item "1"]
             (setError None (setCurrentInput "" (setMessages [] s)))))).

(** *** Submission *)

(** What the part of [handleSubmit] after the [await] still sees of the
    render it was called in. *)
Record Pending : Type := {
  sent_showItemsInput : bool;
  sent_items : list RecyclingItem;
  sent_additionalNotes : string;
  sent_prompt : string       (* finalPrompt *)
}.

(** [handleSubmit] up to the [await]; [at_user] is the clock reading of the
    user message.  [None]: one of the two early returns. *)
Definition submit_begin (at_user : string) (s : State) : option (State * Pending) :=
  prompt ←
    (if showItemsInput s then
       if (length (validItems (items s)) =? 0)%nat then None
       else Some (initialPrompt (validItems (items s)) (additionalNotes s))
     else
       if Js.nonblank (currentInput s) then Some (currentInput s) else None);
  let finalPrompt :=
    if negb (showItemsInput s) then buildPromptWithContext (messages s) prompt
    else prompt in
  let userMessage :=
    {| msg_type := user;
       msg_content :=
         if showItemsInput s then "Items: " +:+ itemsList (validItems (items s))
         else prompt;
       msg_timestamp := at_user |} in
  Some (setCurrentInput ""
          (setMessages (messages s ++ [userMessage])
             (setError None (setIsLoading true s))),
        {| sent_showItemsInput := showItemsInput s; sent_items := items s;
           sent_additionalNotes := additionalNotes s; sent_prompt := finalPrompt |}).

(** The clock readings taken after the response: the time of the assistant
    message, [Date.now().toString()] and the time of the history entry. *)
Record Clock : Type := { at_assistant : string; now_id : string; at_entry : string }.

Definition failure_message : string := "Failed to get a response. Please try again.".

(** [handleSubmit] from the [await] on, applied to the state of that moment:
    the [try] body when the promise is fulfilled with [response], the
    [catch] block when it is rejected, then [finally]. *)
Definition submit_settle (p : Pending) (r : Settled string) (clk : Clock) (s : State) : State :=
  setIsLoading false
    match r with
    | Fulfilled response =>
        let assistantMessage :=
          {| msg_type := assistant; msg_content := response;
             msg_timestamp := at_assistant clk |} in
        let s1 := setMessages (messages s ++ [assistantMessage]) s in
        if sent_showItemsInput p then
          let newInstruction :=
            {| entry_id := now_id clk;
               entry_items := validItems (sent_items p);
               entry_additionalNotes := sent_additionalNotes p;
               entry_instructions := response;
               entry_timestamp := at_entry clk |} in
          setHasInitialResponse true
            (setShowItemsInput false (setHistory (newInstruction :: history s1) s1))
        else s1
    | Rejected _ => setError (Some failure_message) s
    end.

(** How a whole call of [handleSubmit] ends when nothing else happens
    while it waits. *)
Inductive Submitted : Type :=
  | Returned (s : State)     (* an early return: nothing was done *)
  | Settles (s : State)      (* the request settled and the state was updated *)
  | NotAString (s : State) (v : Json)
      (* the response text is not a string: the types of the source
         leave what follows undescribed; [s] is the state while waiting *)
  | Unfinished.              (* the retry recursion ran out of fuel *)

Definition handleSubmit (up : Upstream) (at_user : string) (clk : Clock) (s : State)
    : Submitted * list Event :=
  match submit_begin at_user s with
  | None => (Returned s, [])
  | Some (s1, p) =>
      let '(evs, r) := fetchWithRetry up (sent_prompt p) 0 in
      (match r with
       | Some (Fulfilled (JStr response)) => Settles (submit_settle p (Fulfilled response) clk s1)
       | Some (Fulfilled v) => NotAString s1 v
       | Some (Rejected e) => Settles (submit_settle p (Rejected e) clk s1)
       | None => Unfinished
       end, evs)
  end.

(** The entry that a fulfilled first submission puts in the history. *)
Definition entry_of (p : Pending) (response : string) (clk : Clock) : RecyclingInstruction :=
  {| entry_id := now_id clk;
     entry_items := validItems (sent_items p);
     entry_additionalNotes := sent_additionalNotes p;
     entry_instructions := response;
     entry_timestamp := at_entry clk |}.

(** *** Runs of the item handlers *)

Inductive ItemOp : Type :=
  | Edit (id value now : string)     (* [handleItemChange(id, value)] at clock [now] *)
  | Delete (id : string).            (* [removeItem(id)] *)

Definition apply_op (its : list RecyclingItem) (op : ItemOp) : option (list RecyclingItem) :=
  match op with
  | Edit id value now => handleItemChange id value now its
  | Delete id => Some (removeItem id its)
  end.

Fixpoint apply_ops (its : list RecyclingItem) (ops : list ItemOp)
    : option (list RecyclingItem) :=
  match ops with
  | [] => Some its
  | op :: ops' => its' ← apply_op its op; apply_ops its' ops'
  end.

(** The last slot is blank: its name is empty or white space only. *)
Definition trailing_blank (its : list RecyclingItem) : bool :=
  match last its with
  | Some item => negb (Js.nonblank (item_name item))
  | None => false
  end.

(** The last slot is empty. *)
Definition trailing_empty (its : list RecyclingItem) : bool :=
  match last its with
  | Some item => String.eqb (item_name item) ""
  | None => false
  end.

Definition has_id (id : string) (its : list RecyclingItem) : bool :=
  existsb (λ item, String.eqb (item_id item) id) its.

(** Along the run, no delete names the slot that is last at that moment. *)
Fixpoint spares_last (its : list RecyclingItem) (ops : list ItemOp) : bool :=
  match ops with
  | [] => true
  | op :: ops' =>
      match op with
      | Delete id => negb (has_id id (option_list (last its)))
      | Edit _ _ _ => true
      end
      && match apply_op its op with
         | Some its' => spares_last its' ops'
         | None => true
         end
  end.

(** Along the run, the clock never gives an id that is in the list. *)
Fixpoint fresh_ids (its : list RecyclingItem) (ops : list ItemOp) : bool :=
  match ops with
  | [] => true
  | op :: ops' =>
      match op with
      | Edit _ _ now => negb (has_id now its)
      | Delete _ => true
      end
      && match apply_op its op with
         | Some its' => fresh_ids its' ops'
         | None => true
         end
  end.

End App.

(** ** The browser store ([localStorage]) and the effects of [App] *)

Module Store.

Import App.

Definition history_key : string := "recyclingHistory".
Definition theme_key : string := "theme".

(** The history as the JavaScript value it is. *)
Definition item_to_json (item : RecyclingItem) : Json :=
  JObj [("id", JStr (item_id item)); ("name", JStr (item_name item))].

Definition entry_to_json (e : RecyclingInstruction) : Json :=
  JObj [("id", JStr (entry_id e));
        ("items", JArr (item_to_json <$> entry_items e));
        ("additionalNotes", JStr (entry_additionalNotes e));
        ("instructions", JStr (entry_instructions e));
        ("timestamp", JStr (entry_timestamp e))].

Definition history_to_json (h : list RecyclingInstruction) : Json :=
  JArr (entry_to_json <$> h).

(** A parsed value read back at the types of the source; a value of
    another shape has no such reading. *)
Definition json_to_item (v : Json) : option RecyclingItem :=
  match v with
  | JObj [("id", JStr i); ("name", JStr n)] => Some {| item_id := i; item_name := n |}
  | _ => None
  end.

Definition json_to_entry (v : Json) : option RecyclingInstruction :=
  match v with
  | JObj [("id", JStr i); ("items", JArr l); ("additionalNotes", JStr a);
          ("instructions", JStr r); ("timestamp", JStr t)] =>
      its ← mapM json_to_item l;
      Some {| entry_id := i; entry_items := its; entry_additionalNotes := a;
              entry_instructions := r; entry_timestamp := t |}
  | _ => None
  end.

Definition json_to_history (v : Json) : option (list RecyclingInstruction) :=
  match v with
  | JArr l => mapM json_to_entry l
  | _ => None
  end.

(** The effect on [history]:
    [if (history.length > 0) localStorage.setItem(..., JSON.stringify(history))] *)
Definition save_history (h : list RecyclingInstruction) (ls : gmap string string)
    : gmap string string :=
  if (0 <? length h)%nat
  then <[history_key := JSON.stringify (history_to_json h)]> ls
  else ls.

(** The effect that runs once at startup:
    [if (savedHistory) setHistory(JSON.parse(savedHistory))] *)
Inductive Loaded : Type :=
  | Nothing                                  (* [setHistory] is not called *)
  | Restored (h : list RecyclingInstruction) (* [setHistory(h)] *)
  | Throws (e : JSON.Failure)                (* [JSON.parse] fails *)
  | NotAHistory (v : Json).                  (* parsed, but not at the type *)

Definition load_history (ls : gmap string string) : Loaded :=
  match ls !! history_key with
  | None => Nothing
  | Some savedHistory =>
      if String.eqb savedHistory "" then Nothing
      else match JSON.parse savedHistory with
           | JSON.Ok v =>
               match json_to_history v with
               | Some h => Restored h
               | None => NotAHistory v
               end
           | JSON.Err e => Throws e
           end
  end.

(** [localStorage.getItem('theme') || 'dark'] *)
Definition saved_theme (ls : gmap string string) : string :=
  match ls !! theme_key with
  | Some t => if String.eqb t "" then "dark" else t
  | None => "dark"
  end.

(** [toggleTheme] *)
Definition toggleTheme (s : State) (ls : gmap string string) : State * gmap string string :=
  let newTheme := if String.eqb (theme s) "dark" then "light" else "dark" in
  (setTheme newTheme s, <[theme_key := newTheme]> ls).

End Store.

(** ** The page as a transition system *)

Module Page.

Import Retry App Store.

Record Config : Type := {
  state : State;
  store : gmap string string;
  waiting : list Pending      (* the calls of [handleSubmit] that are at their [await] *)
}.

(** The first render and its effects: theme, load, save on the initial
    history, then save again when the load changed the history.  [None]:
    the load threw or produced a value that is not a history. *)
Definition mount (ls : gmap string string) : option Config :=
  let s0 := setTheme (saved_theme ls) initial in
  let ls0 := save_history (history initial) ls in
  match load_history ls with
  | Nothing => Some {| state := s0; store := ls0; waiting := [] |}
  | Restored h =>
      Some {| state := setHistory h s0; store := save_history h ls0; waiting := [] |}
  | Throws _ | NotAHistory _ => None
  end.

Inductive Action : Type :=
  | ItemChange (id value now : string)
  | RemoveItem (id : string)
  | NotesTyped (value : string)
  | InputTyped (value : string)
  | ToggleTheme
  | OpenHistory (n : nat)           (* click on the [n]-th entry of the history *)
  | NewChat
  | Submit (at_user : string)
  | Settle (n : nat) (r : Settled string) (clk : Clock).
      (* the [n]-th waiting request settles *)

Definition with_state (c : Config) (s : State) : Config :=
  {| state := s; store := store c; waiting := waiting c |}.

(** One event, with the effect on [history] where the handler sets it.
    [None]: the handler throws. *)
Definition step (c : Config) (a : Action) : option Config :=
  let s := state c in
  match a with
  | ItemChange id value now =>
      its ← handleItemChange id value now (items s);
      Some (with_state c (setItems its s))
  | RemoveItem id => Some (with_state c (setItems (removeItem id (items s)) s))
  | NotesTyped v => Some (with_state c (setAdditionalNotes v s))
  | InputTyped v => Some (with_state c (setCurrentInput v s))
  | ToggleTheme =>
      let '(s', ls') := toggleTheme s (store c) in
      Some {| state := s'; store := ls'; waiting := waiting c |}
  | OpenHistory n =>
      match history s !! n with
      | Some entry => Some (with_state c (loadHistoryChat entry s))
      | None => Some c
      end
  | NewChat => Some (with_state c (handleNewChat s))
  | Submit at_user =>
      match submit_begin at_user s with
      | Some (s', p) =>
          Some {| state := s'; store := store c; waiting := waiting c ++ [p] |}
      | None => Some c
      end
  | Settle n r clk =>
      match waiting c !! n with
      | Some p =>
          let s' := submit_settle p r clk s in
          let changed :=
            match r with Fulfilled _ => sent_showItemsInput p | Rejected _ => false end in
          Some {| state := s';
                  store := if changed then save_history (history s') (store c) else store c;
                  waiting := delete n (waiting c) |}
      | None => Some c
      end
  end.

Fixpoint run (c : Config) (acts : list Action) : option Config :=
  match acts with
  | [] => Some c
  | a :: acts' => c' ← step c a; run c' acts'
  end.

Definition is_NewChat (a : Action) : bool :=
  match a with NewChat => true | _ => false end.

End Page.

(** ** The client behind the proxy route *)

Module Route.

Import Retry.

(** How axios on the client sees a response of the route: resolved for a
    status from 200 to 299, rejected with the response for any other. *)
Definition seen (r : Proxy.Response) : Reply :=
  if (200 <=? Proxy.status r) && (Proxy.status r <? 300)
  then Resolves (Proxy.body r)
  else HttpError (Proxy.status r) (Proxy.body r).

(** The length in bytes of a text on the wire (UTF-8): one byte for a code
    unit below 128, two for the others of the model's alphabet. *)
Fixpoint utf8_length (s : string) : Z :=
  match s with
  | String c s' => (if (N_of_ascii c <? 128)%N then 1 else 2) + utf8_length s'
  | EmptyString => 0
  end.

(** [app.use(express.json())], the body parser that [server.js] installs in
    front of the route, with its defaults: a body of more than 100 kB
    ('100kb', 102400 bytes) is refused with 413; an empty body is read as
    the empty object; in strict mode a text whose first character after
    white space opens neither an object nor an array is refused with 400,
    and so is a text that [JSON.parse] rejects. *)
Definition JSON_LIMIT : Z := 102400.

Inductive Parsed : Type :=
  | Body (v : Json)          (* [req.body], and [next()] *)
  | Refused (status : Z)     (* [next(err)]: the route handler is not called *)
  | Undescribed.             (* a text outside the model of [JSON.parse] *)

Definition body_parser (wire : string) : Parsed :=
  if JSON_LIMIT <? utf8_length wire then Refused 413
  else if String.eqb wire "" then Body (JObj [])
  else
    match JSON.skip_white wire with
    | String c _ =>
        if Ascii.eqb c "{" || Ascii.eqb c "[" then
          match JSON.parse wire with
          | JSON.Ok v => Body v
          | JSON.Err JSON.SyntaxError => Refused 400
          | JSON.Err _ => Undescribed
          end
        else Refused 400
    | EmptyString => Refused 400
    end.

(** A refusal of the parser is answered by the default error handler of the
    framework: the status of the error and a page of text, which depends on
    the installation ([error_page]); no upstream call is made and nothing
    is logged by the route. *)
Definition refusal (error_page : Z → string) (status : Z) : Proxy.Handled :=
  {| Proxy.response := {| Proxy.status := status; Proxy.body := JStr (error_page status) |};
     Proxy.calls := [];
     Proxy.log := [] |}.

(** One request of the client at the server.  The clients of this repository
    post an object, which axios writes with [JSON.stringify] and sends as
    JSON; every body is written in this way here.  The parser reads the
    text and hands the value to the route handler.  Where the text is
    outside the model of [JSON.parse], the value read is the value that was
    written. *)
Definition handled (error_page : Z → string) (API_KEY : option string)
    (upstream : string → Json → Reply) (body : Json) : Proxy.Handled :=
  match body_parser (JSON.stringify body) with
  | Body v => Proxy.handler API_KEY upstream (Some v)
  | Refused status => refusal error_page status
  | Undescribed => Proxy.handler API_KEY upstream (Some body)
  end.

(** The server in front of [service]: the [n]-th request of the client is
    handled as above, and [service n] is how the upstream call of that
    handling settles. *)
Definition through (error_page : Z → string) (API_KEY : option string)
    (service : nat → string → Json → Reply) : Upstream :=
  λ n body, seen (Proxy.response (handled error_page API_KEY (service n) body)).

(** The upstream calls that the route makes for the requests of a run. *)
Definition upstream_calls (error_page : Z → string) (API_KEY : option string)
    (service : nat → string → Json → Reply) (evs : list Event) : list (string * Json) :=
  mjoin (imap (λ n body, Proxy.calls (handled error_page API_KEY (service n) body))
           (posts evs)).

End Route.

(** ** What the rendered page offers *)

Module Screen.

Import App Store Page.

(** The events that the markup can raise in a configuration: the inputs
    and the submit buttons carry [disabled={isLoading}], the remove button
    is rendered for every slot but the first, the item inputs and the notes
    only while [showItemsInput], the follow-up field only otherwise; a
    request settles only while it waits. *)
Definition offered (c : Config) (a : Action) : bool :=
  let s := state c in
  match a with
  | ItemChange id _ _ => showItemsInput s && negb (isLoading s) && has_id id (items s)
  | RemoveItem id => showItemsInput s && has_id id (tail (items s))
  | NotesTyped _ => showItemsInput s && negb (isLoading s)
  | InputTyped _ => negb (showItemsInput s) && negb (isLoading s)
  | ToggleTheme => true
  | OpenHistory n => bool_decide (n < length (history s))%nat
  | NewChat => true
  | Submit _ => negb (isLoading s)
  | Settle n _ _ => bool_decide (n < length (waiting c))%nat
  end.

Fixpoint offered_all (c : Config) (acts : list Action) : bool :=
  match acts with
  | [] => true
  | a :: acts' =>
      offered c a
      && match step c a with
         | Some c' => offered_all c' acts'
         | None => true
         end
  end.

(** Whether [document.documentElement.classList] holds 'dark': set by
    [classList.toggle('dark', savedTheme === 'dark')] in the theme effect,
    flipped by [classList.toggle('dark')] in [toggleTheme]. *)
Definition mount_dark (ls : gmap string string) : bool :=
  String.eqb (saved_theme ls) "dark".

Definition step_dark (dark : bool) (a : Action) : bool :=
  match a with
  | ToggleTheme => negb dark
  | _ => dark
  end.

Definition run_dark (dark : bool) (acts : list Action) : bool :=
  foldl step_dark dark acts.

(** At most one request waits, and the loading flag says whether one does. *)
Definition in_flight (c : Config) : Prop :=
  (isLoading (state c) = false ∧ waiting c = [])
  ∨ (isLoading (state c) = true ∧ ∃ p, waiting c = [p]).

(** What of the store a start reads: the theme, and the history when there
    is one in memory. *)
Definition stored (c : Config) : Prop :=
  theme (state c) = saved_theme (store c)
  ∧ match history (state c) with
    | [] => load_history (store c) = Nothing ∨ load_history (store c) = Restored []
    | h => store c !! history_key = Some (JSON.stringify (history_to_json h))
    end.

(** The events that replace the transcript: the reset and the reopening of
    an entry. *)
Definition replaces_transcript (a : Action) : bool :=
  match a with
  | NewChat | OpenHistory _ => true
  | _ => false
  end.

(** Names typed one after the other, each into the slot that is last at
    that moment: [last_id] is the id of that slot, [typed] the values with
    the clock reading of each edit. *)
Fixpoint typing (last_id : string) (typed : list (string * string)) : list ItemOp :=
  match typed with
  | [] => []
  | (value, now) :: typed' => Edit last_id value now :: typing now typed'
  end.

(** The list that such typing builds from the blank slot [id]: a slot for
    each value, then the blank slot of the last clock reading. *)
Fixpoint typed_items (id : string) (typed : list (string * string)) : list RecyclingItem :=
  match typed with
  | [] => [blank_item id]
  | (value, now) :: typed' =>
      {| item_id := id; item_name := value |} :: typed_items now typed'
  end.

End Screen.

(** ** The earlier chat component *)

(** The first component of the unnamed source part: the same state, item
    handlers, retry wrapper, settling and reset as [App]; another first
    prompt, the prompt itself as the content of the user message, and no
    handler that reopens a history entry. *)
Module Chat0.

Import Retry App.

Definition initialPrompt (valid : list RecyclingItem) (notes : string) : string :=
  "I need recycling instructions for the following items: " +:+ itemsList valid
  +:+ ". Additional considerations: " +:+ notes.

(** [handleSubmit] up to the [await]. *)
Definition submit_begin (at_user : string) (s : State) : option (State * Pending) :=
  prompt ←
    (if showItemsInput s then
       if (length (validItems (items s)) =? 0)%nat then None
       else Some (initialPrompt (validItems (items s)) (additionalNotes s))
     else
       if Js.nonblank (currentInput s) then Some (currentInput s) else None);
  let finalPrompt :=
    if negb (showItemsInput s) then buildPromptWithContext (messages s) prompt
    else prompt in
  let userMessage :=
    {| msg_type := user; msg_content := prompt; msg_timestamp := at_user |} in
  Some (setCurrentInput ""
          (setMessages (messages s ++ [userMessage])
             (setError None (setIsLoading true s))),
        {| sent_showItemsInput := showItemsInput s; sent_items := items s;
           sent_additionalNotes := additionalNotes s; sent_prompt := finalPrompt |}).

Definition handleSubmit (up : Upstream) (at_user : string) (clk : Clock) (s : State)
    : Submitted * list Event :=
  match submit_begin at_user s with
  | None => (Returned s, [])
  | Some (s1, p) =>
      let '(evs, r) := fetchWithRetry up (sent_prompt p) 0 in
      (match r with
       | Some (Fulfilled (JStr response)) => Settles (submit_settle p (Fulfilled response) clk s1)
       | Some (Fulfilled v) => NotAString s1 v
       | Some (Rejected e) => Settles (submit_settle p (Rejected e) clk s1)
       | None => Unfinished
       end, evs)
  end.

(** The events of this component: the history list is not clickable. *)
Inductive Action : Type :=
  | ItemChange (id value now : string)
  | RemoveItem (id : string)
  | NotesTyped (value : string)
  | InputTyped (value : string)
  | ToggleTheme
  | NewChat
  | Submit (at_user : string)
  | Settle (n : nat) (r : Settled string) (clk : Clock).

Definition step (c : Page.Config) (a : Action) : option Page.Config :=
  let s := Page.state c in
  match a with
  | ItemChange id value now =>
      its ← handleItemChange id value now (items s);
      Some (Page.with_state c (setItems its s))
  | RemoveItem id => Some (Page.with_state c (setItems (removeItem id (items s)) s))
  | NotesTyped v => Some (Page.with_state c (setAdditionalNotes v s))
  | InputTyped v => Some (Page.with_state c (setCurrentInput v s))
  | ToggleTheme =>
      let '(s', ls') := Store.toggleTheme s (Page.store c) in
      Some {| Page.state := s'; Page.store := ls'; Page.waiting := Page.waiting c |}
  | NewChat => Some (Page.with_state c (handleNewChat s))
  | Submit at_user =>
      match submit_begin at_user s with
      | Some (s', p) =>
          Some {| Page.state := s'; Page.store := Page.store c;
                  Page.waiting := Page.waiting c ++ [p] |}
      | None => Some c
      end
  | Settle n r clk =>
      match Page.waiting c !! n with
      | Some p =>
          let s' := submit_settle p r clk s in
          let changed :=
            match r with Fulfilled _ => sent_showItemsInput p | Rejected _ => false end in
          Some {| Page.state := s';
                  Page.store :=
                    if changed then Store.save_history (history s') (Page.store c)
                    else Page.store c;
                  Page.waiting := delete n (Page.waiting c) |}
      | None => Some c
      end
  end.

Fixpoint run (c : Page.Config) (acts : list Action) : option Page.Config :=
  match acts with
  | [] => Some c
  | a :: acts' => c' ← step c a; run c' acts'
  end.

End Chat0.

(** ** The single-item component *)

(** The second component of the unnamed source part: one text field, a
    history that is kept in memory only, and an error message that depends
    on the status of the failure.  What it writes to the console is left
    out. *)
Module Assistant.

Import Retry.

Record RecyclingInstruction : Type := {
  id : string;
  item_name : string;       (* the field [item] *)
  instructions : string;
  timestamp : string
}.

Record State : Type := {
  item : string;
  isLoading : bool;
  history : list RecyclingInstruction;
  error : option string
}.

Definition initial : State :=
  {| item := ""; isLoading := false; history := []; error := None |}.

(** The text that [fetchWithRetry] posts, from the [item] of the render. *)
Definition prompt (item : string) : string :=
  "How should I recycle " +:+ item
  +:+ "? Please provide specific steps and alternative ways to reuse it.".

(** [fetchWithRetry(retryCount)]: the recursion of the chat component on the
    prompt above. *)
Definition fetchWithRetry (up : Upstream) (item : string) (retryCount : nat)
    : list Event * option (Settled Json) :=
  Retry.fetchWithRetry up (prompt item) retryCount.

Definition generic_message : string :=
  "Failed to get recycling instructions. Please try again.".
Definition rate_message : string :=
  "Too many requests. Please wait a moment and try again.".
Definition key_message : string :=
  "Invalid API key. Please check your configuration.".

(** The message that the [catch] block of [handleSubmit] picks. *)
Definition errorMessage (e : Thrown) : string :=
  match e with
  | AxiosError (Some (status, _)) =>
      if status =? 429 then rate_message
      else if status =? 401 then key_message
      else generic_message
  | AxiosError None | TypeError => generic_message
  end.

(** The clock readings of a new entry: [Date.now().toString()] and
    [new Date().toISOString()]. *)
Record Stamp : Type := { now_id : string; at_entry : string }.

(** [handleSubmit] up to the [await]: [None] is the early return; the text
    of the field goes along, as the rest of the call sees it. *)
Definition submit_begin (s : State) : option (State * string) :=
  if Js.nonblank (item s)
  then Some ({| item := item s; isLoading := true; history := history s; error := None |},
             item s)
  else None.

(** [handleSubmit] from the [await] on, applied to the state of that
    moment. *)
Definition submit_settle (sent_item : string) (r : Settled string) (stamp : Stamp)
    (s : State) : State :=
  match r with
  | Fulfilled response =>
      let newInstruction :=
        {| id := now_id stamp; item_name := Js.trim sent_item;
           instructions := response; timestamp := at_entry stamp |} in
      {| item := ""; isLoading := false; history := newInstruction :: history s;
         error := error s |}
  | Rejected e =>
      {| item := item s; isLoading := false; history := history s;
         error := Some (errorMessage e) |}
  end.

Inductive Submitted : Type :=
  | Returned (s : State)
  | Settles (s : State)
  | NotAString (s : State) (v : Json)
  | Unfinished.

Definition handleSubmit (up : Upstream) (stamp : Stamp) (s : State)
    : Submitted * list Event :=
  match submit_begin s with
  | None => (Returned s, [])
  | Some (s1, sent_item) =>
      let '(evs, r) := fetchWithRetry up sent_item 0 in
      (match r with
       | Some (Fulfilled (JStr response)) =>
           Settles (submit_settle sent_item (Fulfilled response) stamp s1)
       | Some (Fulfilled v) => NotAString s1 v
       | Some (Rejected e) => Settles (submit_settle sent_item (Rejected e) stamp s1)
       | None => Unfinished
       end, evs)
  end.

End Assistant.

(** * Properties *)

(** ** Blank strings *)

Section JsFacts.

Import Js.

Lemma all_white_trim_start (s : string) : all_white (trim_start s) = all_white s.
Proof.
  induction s as [|c s IH]; [done|]. simpl.
  destruct (is_white c) eqn:Hc; simpl; [done|]. by rewrite Hc.
Qed.

Lemma trim_end_empty (s : string) : trim_end s = "" ↔ all_white s = true.
Proof.
  induction s as [|c s IH]; [done|]. simpl.
  destruct (trim_end s) as [|c' t].
  - rewrite (proj1 IH eq_refl), andb_true_r. by destruct (is_white c); split.
  - destruct (all_white s); [discriminate (proj2 IH eq_refl)|].
    rewrite andb_false_r. by split.
Qed.

(** [s.trim() !== ''] says that some character of [s] is not white space. *)
Lemma nonblank_all_white (s : string) : nonblank s = negb (all_white s).
Proof.
  unfold nonblank, trim. rewrite <- (all_white_trim_start s).
  destruct (all_white (trim_start s)) eqn:Hall.
  - apply trim_end_empty in Hall. by rewrite Hall.
  - destruct (String.eqb_spec (trim_end (trim_start s)) "") as [Hempty|]; [|done].
    apply trim_end_empty in Hempty. congruence.
Qed.

End JsFacts.

(** ** The retry wrapper *)

Section RetryFacts.

Import Retry.

Variable up : Upstream.
Variable prompt : string.

Let body : Json := request_body prompt.

(** A run whose first [i] replies are 429 and that cannot or need not retry
    after reply [i] follows the schedule and settles as that reply does. *)
Lemma fetchWithRetry_fuel_schedule (i fuel retryCount sent : nat) :
  (i < fuel)%nat →
  (retryCount + i ≤ MAX_RETRIES)%nat →
  (∀ j, (j < i)%nat → status_of (up (sent + j)%nat body) = Some 429) →
  ((retryCount + i < MAX_RETRIES)%nat → status_of (up (sent + i)%nat body) ≠ Some 429) →
  fetchWithRetry_fuel fuel up prompt retryCount sent
  = (schedule body retryCount i, Some (settle (up (sent + i)%nat body))).
Proof.
  revert fuel retryCount sent.
  induction i as [|i IH]; intros fuel retryCount sent Hfuel Hmax Hretry Hstop.
  - destruct fuel as [|fuel]; [lia|]. simpl. fold body.
    replace (sent + 0)%nat with sent in * by lia.
    destruct (up sent body) as [data|status data|] eqn:Hreply; try reflexivity.
    destruct (status =? 429) eqn:Hs; [|reflexivity].
    destruct (retryCount <? MAX_RETRIES)%nat eqn:Hlt; [|reflexivity].
    apply Nat.ltb_lt in Hlt. apply Z.eqb_eq in Hs. subst status.
    exfalso. apply Hstop; [lia|reflexivity].
  - destruct fuel as [|fuel]; [lia|]. simpl. fold body.
    pose proof (Hretry 0%nat ltac:(lia)) as H0.
    replace (sent + 0)%nat with sent in H0 by lia.
    destruct (up sent body) as [data|status data|] eqn:Hreply; try discriminate.
    simpl in H0. injection H0 as ->.
    assert ((retryCount <? MAX_RETRIES)%nat = true) as -> by (apply Nat.ltb_lt; lia).
    simpl.
    rewrite (IH fuel (retryCount + 1)%nat (sent + 1)%nat); try lia.
    + replace (sent + 1 + i)%nat with (sent + S i)%nat by lia. reflexivity.
    + intros j Hj. replace (sent + 1 + j)%nat with (sent + S j)%nat by lia.
      apply Hretry. lia.
    + intros Hlt. replace (sent + 1 + i)%nat with (sent + S i)%nat by lia.
      apply Hstop. lia.
Qed.

(** The number of retries: the index of the first reply that is not a 429,
    at most [MAX_RETRIES]. *)
Lemma retries_exist :
  ∃ i, (i ≤ MAX_RETRIES)%nat
       ∧ (∀ j, (j < i)%nat → status_of (up j body) = Some 429)
       ∧ ((i < MAX_RETRIES)%nat → status_of (up i body) ≠ Some 429).
Proof.
  assert (∀ n, {status_of (up n body) = Some 429} + {status_of (up n body) ≠ Some 429})
    as dec by (intros n; apply (decide _)).
  unfold MAX_RETRIES.
  destruct (dec 0%nat) as [H0|H0]; [|exists 0%nat; repeat split; [lia|lia|done]].
  destruct (dec 1%nat) as [H1|H1];
    [|exists 1%nat; repeat split; [lia| |done]; intros [|j] ?; [done|lia]].
  destruct (dec 2%nat) as [H2|H2];
    [|exists 2%nat; repeat split; [lia| |done]; intros [|[|j]] ?; [done|done|lia]].
  exists 3%nat; repeat split; [lia| |lia].
  intros [|[|[|j]]] ?; [done|done|done|lia].
Qed.

Lemma fetchWithRetry_schedule (i : nat) :
  (i ≤ MAX_RETRIES)%nat →
  (∀ j, (j < i)%nat → status_of (up j body) = Some 429) →
  ((i < MAX_RETRIES)%nat → status_of (up i body) ≠ Some 429) →
  fetchWithRetry up prompt 0 = (schedule body 0 i, Some (settle (up i body))).
Proof.
  intros Hi Hretry Hstop. unfold fetchWithRetry.
  rewrite (fetchWithRetry_fuel_schedule i); try done; unfold MAX_RETRIES in *; simpl; lia.
Qed.

End RetryFacts.



(** When the body is not [null] the unguarded first access succeeds and the
    result is the text found on the guarded path, or the fallback. *)
Lemma extract_text_not_null (data : Json) :
  data ≠ JNull →
  Retry.extract_text data
  = Retry.Fulfilled (Value.or_else (Retry.text_at data) (JStr Retry.fallback)).
Proof. intros Hnull. by destruct data. Qed.

Lemma extract_text_null : Retry.extract_text JNull = Retry.Rejected Retry.TypeError.
Proof. reflexivity. Qed.

Lemma or_else_truthy (o : option Json) (d : Json) :
  Value.truthy d = true →
  Value.truthy (Value.or_else o d) = true
  ∧ (Value.or_else o d = d ∨ o = Some (Value.or_else o d)).
Proof.
  intros Hd. destruct o as [v|]; simpl; [|auto].
  destruct (Value.truthy v) eqn:Hv; auto.
Qed.

(** C10, as the code has it.  When the reply that settles the call is a
    success whose body is not [null] and has nothing truthy at
    [candidates[0].content.parts[0].text] (the path is missing somewhere, or
    the text is empty), [fetchWithRetry] is fulfilled with the literal
    "No instructions found.".  Whatever it is fulfilled with is truthy, so
    never [undefined], [null] or the empty string, and is either that
    fallback or the value found at the path of a success body. *)
Theorem fetchWithRetry_fallback (up : Retry.Upstream) (prompt : string) :
  let body := Retry.request_body prompt in
  let settled := (Retry.fetchWithRetry up prompt 0).2 in
  (∀ i data,
     (i ≤ Retry.MAX_RETRIES)%nat →
     (∀ j, (j < i)%nat → Retry.status_of (up j body) = Some 429) →
     up i body = Retry.Resolves data →
     data ≠ JNull →
     (Retry.text_at data = None
      ∨ ∃ t, Retry.text_at data = Some t ∧ Value.truthy t = false) →
     settled = Some (Retry.Fulfilled (JStr Retry.fallback)))
  ∧ (∀ v, settled = Some (Retry.Fulfilled v) →
       Value.truthy v = true
       ∧ v ≠ JStr ""
       ∧ ∃ i data, up i body = Retry.Resolves data
                   ∧ (v = JStr Retry.fallback ∨ Retry.text_at data = Some v)).
Proof.
  intros body settled. split.
  - intros i data Hi Hretry Hreply Hnull Hlacks. subst settled.
    rewrite (fetchWithRetry_schedule up prompt i Hi Hretry).
    + fold body. rewrite Hreply. simpl. rewrite extract_text_not_null by done.
      destruct Hlacks as [->|(t & -> & Ht)]; simpl; [done|by rewrite Ht].
    + intros _. fold body. by rewrite Hreply.
  - intros v Hv. subst settled.
    destruct (retries_exist up prompt) as (i & Hi & Hretry & Hstop).
    rewrite (fetchWithRetry_schedule up prompt i Hi Hretry Hstop) in Hv.
    fold body in Hv. simpl in Hv.
    destruct (up i body) as [data| |] eqn:Hreply; try discriminate.
    simpl in Hv.
    assert (data = JNull ∨ data ≠ JNull) as [->|Hnull]
      by (destruct data; (by left) || (by right)); [discriminate|].
    rewrite extract_text_not_null in Hv by done.
    injection Hv as <-.
    destruct (or_else_truthy (Retry.text_at data) (JStr Retry.fallback) eq_refl)
      as [Htruthy Hwhich].
    split; [done|]. split.
    + intros Heq. rewrite Heq in Htruthy. discriminate.
    + exists i, data. split; [done|]. destruct Hwhich as [->|Hwhich]; auto.
Qed.

(** A success body without candidates, and one with the documented text. *)
Lemma fetchWithRetry_fallback_witness :
  (Retry.fetchWithRetry (λ _ _, Retry.Resolves (JObj [])) "glass jar" 0).2
  = Some (Retry.Fulfilled (JStr "No instructions found."))
  ∧ Value.truthy (JStr "Rinse the jar.") = true.
Proof.
  split.
  - apply (proj1 (fetchWithRetry_fallback (λ _ _, Retry.Resolves (JObj [])) "glass jar")
             0%nat (JObj [])).
    + unfold Retry.MAX_RETRIES. lia.
    + intros j Hj. lia.
    + reflexivity.
    + discriminate.
    + left. reflexivity.
  - apply (proj2 (fetchWithRetry_fallback
                    (λ _ _, Retry.Resolves (Retry.answer "Rinse the jar.")) "glass jar")
             (JStr "Rinse the jar.")).
    reflexivity.
Defined.

(** C10 as stated fails on a success whose body is [null]: the body has
    nothing at the path, yet the call is rejected with the TypeError of the
    unguarded [response.data.candidates]. *)
Lemma fetchWithRetry_null_body_rejected :
  Retry.text_at JNull = None
  ∧ (Retry.fetchWithRetry (λ _ _, Retry.Resolves JNull) "glass jar" 0).2
    = Some (Retry.Rejected Retry.TypeError)
  ∧ (Retry.fetchWithRetry (λ _ _, Retry.Resolves JNull) "glass jar" 0).2
    ≠ Some (Retry.Fulfilled (JStr "No instructions found.")).
Proof. repeat split. discriminate. Qed.

(** ** The proxy route *)


(** The body that the client posts reaches the upstream service as it is. *)
Lemma proxy_forwards_client_body (prompt : string) :
  (λ contents, Proxy.requestData contents)
    <$> Value.get (Retry.request_body prompt) "contents"
  = Some (Retry.request_body prompt).
Proof. reflexivity. Qed.

(** The route on a request of the documented shape: a success is relayed,
    a 429 with an error body becomes a 500 that carries this body. *)
Example proxy_relay_success :
  Proxy.response
    (Proxy.handler (Some "k") (λ _ _, Retry.Resolves (Retry.answer "Rinse the jar."))
       (Some (Retry.request_body "glass jar")))
  = {| Proxy.status := 200; Proxy.body := Retry.answer "Rinse the jar." |}.
Proof. reflexivity. Qed.

Example proxy_relay_failure :
  Proxy.response
    (Proxy.handler (Some "k")
       (λ _ _, Retry.HttpError 429 (JObj [("error", JObj [("code", JNum 429)])]))
       (Some (Retry.request_body "glass jar")))
  = {| Proxy.status := 500;
       Proxy.body := JObj [("error", JObj [("error", JObj [("code", JNum 429)])])] |}.
Proof. reflexivity. Qed.

(** ** The item list *)

Section ItemFacts.

Import App.

Implicit Types (its : list RecyclingItem) (item : RecyclingItem) (ops : list ItemOp).

Lemma rename_id id value item : item_id (rename id value item) = item_id item.
Proof. unfold rename. by destruct (String.eqb _ _). Qed.

Lemma rename_ids id value its : item_id <$> (rename id value <$> its) = item_id <$> its.
Proof.
  rewrite <- list_fmap_compose. apply list_fmap_ext. intros i item _. apply rename_id.
Qed.

Lemma nonblank_empty : Js.nonblank "" = false.
Proof. reflexivity. Qed.

Lemma has_id_spec id its : has_id id its = true ↔ id ∈ item_id <$> its.
Proof.
  unfold has_id. rewrite existsb_exists, list_elem_of_fmap.
  split.
  - intros (item & Hin & Heq). apply String.eqb_eq in Heq.
    exists item. split; [done|]. by apply list_elem_of_In.
  - intros (item & -> & Hin). exists item. split; [by apply list_elem_of_In|].
    apply String.eqb_refl.
Qed.

(** An edit of a list that is not empty does not throw, leaves it not
    empty, and leaves the last slot blank when it was. *)
Lemma handleItemChange_keeps id value now its :
  its ≠ [] →
  ∃ its', handleItemChange id value now its = Some its'
          ∧ its' ≠ []
          ∧ (trailing_blank its = true → trailing_blank its' = true).
Proof.
  intros Hne. unfold handleItemChange.
  destruct (last its) as [lastItem|] eqn:Hlast; [|by apply last_None in Hlast].
  simpl.
  destruct (String.eqb id (item_id lastItem) && Js.nonblank value) eqn:Hcond.
  - eexists. split; [done|]. split; [by destruct (rename id value <$> its)|].
    intros _. unfold trailing_blank. by rewrite last_snoc.
  - eexists. split; [done|]. split; [by destruct its|].
    unfold trailing_blank. rewrite fmap_last, Hlast. simpl.
    unfold rename. rewrite String.eqb_sym.
    destruct (String.eqb id (item_id lastItem)); [|done].
    simpl in *. by rewrite Hcond.
Qed.

Lemma last_filter_keeps (P : RecyclingItem → Prop) `{∀ x, Decision (P x)} its item :
  last its = Some item → P item → last (filter P its) = Some item.
Proof.
  intros Hlast HP. apply last_Some in Hlast as [its' ->].
  rewrite filter_app, filter_cons_True, filter_nil by done. apply last_snoc.
Qed.

(** A delete that does not name the last slot keeps it in place. *)
Lemma removeItem_keeps_last id its item :
  last its = Some item → item_id item ≠ id → last (removeItem id its) = Some item.
Proof.
  intros Hlast Hid. unfold removeItem.
  destruct (1 <? length its)%nat; [|done].
  by apply last_filter_keeps.
Qed.

(** With distinct ids a delete takes away one slot at most, and none from a
    list of one. *)
Lemma removeItem_not_empty id its :
  its ≠ [] → NoDup (item_id <$> its) → removeItem id its ≠ [].
Proof.
  intros Hne Hdup. unfold removeItem.
  destruct (1 <? length its)%nat eqn:Hlen; [|done].
  apply Nat.ltb_lt in Hlen.
  destruct its as [|a [|b rest]]; simpl in Hlen; try lia.
  destruct (decide (item_id a = id)) as [Ha|Ha].
  - rewrite filter_cons_False by (intros ?; done).
    rewrite filter_cons_True; [done|].
    intros Hb. apply NoDup_cons in Hdup as [Hnotin _].
    apply Hnotin. rewrite Ha, <- Hb. simpl. apply list_elem_of_here.
  - by rewrite filter_cons_True.
Qed.

Lemma removeItem_ids_NoDup id its :
  NoDup (item_id <$> its) → NoDup (item_id <$> removeItem id its).
Proof.
  intros Hdup. unfold removeItem. destruct (1 <? length its)%nat; [|done].
  apply (sublist_NoDup _ (item_id <$> its)); [done|].
  apply (fmap_sublist item_id), sublist_filter.
Qed.

Lemma handleItemChange_ids_NoDup id value now its its' :
  has_id now its = false →
  NoDup (item_id <$> its) →
  handleItemChange id value now its = Some its' →
  NoDup (item_id <$> its').
Proof.
  intros Hfresh Hdup. unfold handleItemChange.
  destruct (last its) as [lastItem|]; [|done]. simpl.
  destruct (_ && _); intros [= <-].
  - rewrite fmap_app, rename_ids. simpl.
    apply NoDup_app. split; [done|]. split; [|apply NoDup_singleton].
    intros x Hx Hnow. apply list_elem_of_singleton in Hnow as ->.
    apply has_id_spec in Hx. congruence.
  - by rewrite rename_ids.
Qed.

Lemma runs_sparing_last its ops :
  its ≠ [] → trailing_blank its = true → spares_last its ops = true →
  ∃ its', apply_ops its ops = Some its' ∧ its' ≠ [] ∧ trailing_blank its' = true.
Proof.
  revert its. induction ops as [|op ops IH]; intros its Hne Hblank Hspares.
  - by exists its.
  - simpl in Hspares. apply andb_true_iff in Hspares as [Hop Hrest].
    destruct op as [id value now|id]; simpl.
    + destruct (handleItemChange_keeps id value now its Hne) as (its' & Heq & Hne' & Hb').
      simpl in Hrest. rewrite Heq in Hrest |- *. simpl. apply IH; auto.
    + simpl in Hrest.
      destruct (last its) as [lastItem|] eqn:Hlast; [|by apply last_None in Hlast].
      assert (item_id lastItem ≠ id) as Hid.
      { intros <-. simpl in Hop. by rewrite String.eqb_refl in Hop. }
      pose proof (removeItem_keeps_last id its lastItem Hlast Hid) as Hlast'.
      apply IH; [| |done].
      * intros Hnil. by rewrite Hnil in Hlast'.
      * unfold trailing_blank in *. rewrite Hlast'. by rewrite Hlast in Hblank.
Qed.

Lemma runs_with_fresh_ids its ops :
  its ≠ [] → NoDup (item_id <$> its) → fresh_ids its ops = true →
  ∃ its', apply_ops its ops = Some its' ∧ its' ≠ [] ∧ NoDup (item_id <$> its').
Proof.
  revert its. induction ops as [|op ops IH]; intros its Hne Hdup Hfresh.
  - by exists its.
  - simpl in Hfresh. apply andb_true_iff in Hfresh as [Hop Hrest].
    destruct op as [id value now|id]; simpl.
    + destruct (handleItemChange_keeps id value now its Hne) as (its' & Heq & Hne' & _).
      simpl in Hrest. rewrite Heq in Hrest |- *. simpl.
      apply IH; [done| |done].
      apply (handleItemChange_ids_NoDup id value now its); [|done|done].
      by destruct (has_id now its).
    + simpl in Hrest. apply IH; [| |done].
      * by apply removeItem_not_empty.
      * by apply removeItem_ids_NoDup.
Qed.

End ItemFacts.

(** C2, as the code has it.  Start from the single blank slot and run any
    sequence of edits and deletes.  While no delete names the slot that is
    last at that moment, no call throws, the list is not empty and its last
    slot is blank (the name is empty or white space only).  Whatever is
    deleted, the list is not empty as long as the clock never gives an id
    that is already in the list.  An edit of the last slot to a value that is
    not blank appends exactly one new blank slot. *)
Theorem items_trailing_slot (ops : list App.ItemOp) :
  let start := App.items App.initial in
  (App.spares_last start ops = true →
   ∃ its, App.apply_ops start ops = Some its
          ∧ its ≠ [] ∧ App.trailing_blank its = true)
  ∧ (App.fresh_ids start ops = true →
     ∃ its, App.apply_ops start ops = Some its ∧ its ≠ [])
  ∧ (∀ its lastItem value now,
       last its = Some lastItem →
       Js.nonblank value = true →
       App.handleItemChange (App.item_id lastItem) value now its
       = Some ((App.rename (App.item_id lastItem) value <$> its) ++ [App.blank_item now])).
Proof.
  intros start. repeat split.
  - intros Hspares. by apply runs_sparing_last.
  - intros Hfresh.
    destruct (runs_with_fresh_ids start ops) as (its & Hrun & Hne & _); try done.
    + apply NoDup_singleton.
    + by exists its.
  - intros its lastItem value now Hlast Hvalue. unfold App.handleItemChange.
    rewrite Hlast. simpl. by rewrite String.eqb_refl, Hvalue.
Qed.

(** Two items typed, the first of the three slots deleted. *)
Lemma items_trailing_slot_witness :
  ∃ its,
    App.apply_ops (App.items App.initial)
      [App.Edit "1" "bottle" "1700000000001";
       App.Edit "1700000000001" "can" "1700000000002";
       App.Delete "1"] = Some its
    ∧ its ≠ [] ∧ App.trailing_blank its = true.
Proof.
  apply (proj1 (items_trailing_slot
                  [App.Edit "1" "bottle" "1700000000001";
                   App.Edit "1700000000001" "can" "1700000000002";
                   App.Delete "1"])).
  reflexivity.
Defined.

(** C2 as stated fails when the trailing blank slot itself is deleted from
    a list of three: two slots are left and the last one is not empty, nor
    blank. *)
Lemma items_delete_trailing_slot :
  let ops :=
    [App.Edit "1" "bottle" "1700000000001";
     App.Edit "1700000000001" "can" "1700000000002";
     App.Delete "1700000000002"] in
  let left :=
    [ {| App.item_id := "1"; App.item_name := "bottle" |};
      {| App.item_id := "1700000000001"; App.item_name := "can" |} ] in
  App.fresh_ids (App.items App.initial) ops = true
  ∧ App.apply_ops (App.items App.initial) ops = Some left
  ∧ App.trailing_empty left = false
  ∧ App.trailing_blank left = false
  ∧ length left = 2%nat.
Proof. repeat split. Qed.

(** An edit to white space only is an edit to a value that is not empty, and
    appends nothing. *)
Example items_edit_to_space :
  App.apply_ops (App.items App.initial) [App.Edit "1" " " "1700000000001"]
  = Some [ {| App.item_id := "1"; App.item_name := " " |} ].
Proof. reflexivity. Qed.

(** Two ids from the same clock reading: a delete then takes both slots. *)
Example items_same_clock_reading :
  App.apply_ops (App.items App.initial)
    [App.Edit "1" "bottle" "1700000000001";
     App.Edit "1700000000001" "can" "1700000000001";
     App.Delete "1";
     App.Delete "1700000000001"] = Some [].
Proof. reflexivity. Qed.

(** ** Submission *)

Section SubmitFacts.

Import Retry App.

Lemma validItems_none its :
  Forall (λ item, Js.nonblank (item_name item) = false) its → validItems its = [].
Proof.
  unfold validItems. induction 1 as [|item its Hitem _ IH]; [done|].
  rewrite filter_cons_False; [exact IH|]. rewrite Hitem. exact id.
Qed.

Lemma posts_schedule body retryCount i :
  posts (schedule body retryCount i) = replicate (S i) body.
Proof.
  revert retryCount. induction i as [|i IH]; intros retryCount; [done|].
  simpl. unfold posts in *. simpl. by rewrite IH.
Qed.

(** Every request of a run carries the prompt it was called with, and
    there is at least one. *)
Lemma fetchWithRetry_posts up prompt :
  ∃ i, posts (fetchWithRetry up prompt 0).1 = replicate (S i) (request_body prompt).
Proof.
  destruct (retries_exist up prompt) as (i & Hi & Hretry & Hstop).
  exists i. rewrite (fetchWithRetry_schedule up prompt i Hi Hretry Hstop).
  apply posts_schedule.
Qed.

Lemma fetchWithRetry_total up prompt : (fetchWithRetry up prompt 0).2 ≠ None.
Proof.
  destruct (retries_exist up prompt) as (i & Hi & Hretry & Hstop).
  by rewrite (fetchWithRetry_schedule up prompt i Hi Hretry Hstop).
Qed.

End SubmitFacts.

(** C5.  When the page collects items and no item has a name with a
    character that is not white space, or when it chats and the follow-up
    field is empty or white space only, [handleSubmit] returns at once: no
    request is made and the state is the one before, so no message is added
    and the loading flag, the error and the history are untouched; nothing
    is left waiting either. *)
Theorem handleSubmit_invalid_noop (up : Retry.Upstream) (at_user : string)
    (clk : App.Clock) (s : App.State) :
  (App.showItemsInput s = true
   ∧ Forall (λ item, Js.all_white (App.item_name item) = true) (App.items s))
  ∨ (App.showItemsInput s = false ∧ Js.all_white (App.currentInput s) = true) →
  App.handleSubmit up at_user clk s = (App.Returned s, [])
  ∧ App.submit_begin at_user s = None
  ∧ ∀ c, Page.state c = s → Page.step c (Page.Submit at_user) = Some c.
Proof.
  intros Hinvalid.
  assert (App.submit_begin at_user s = None) as Hnone.
  { unfold App.submit_begin.
    destruct Hinvalid as [[-> Hitems]|[-> Hinput]].
    - rewrite validItems_none; [done|].
      eapply Forall_impl; [exact Hitems|].
      intros item Hitem. simpl in Hitem. by rewrite nonblank_all_white, Hitem.
    - by rewrite nonblank_all_white, Hinput. }
  split; [|split; [done|]].
  - unfold App.handleSubmit. by rewrite Hnone.
  - intros c <-. simpl. by rewrite Hnone.
Qed.

(** Only blank items in item mode; only spaces typed in chat mode. *)
Lemma handleSubmit_invalid_noop_witness :
  let typed := App.setCurrentInput "   " (App.setShowItemsInput false App.initial) in
  let clk := {| App.at_assistant := "t1"; App.now_id := "2"; App.at_entry := "t2" |} in
  let up := λ (_ : nat) (_ : Json), Retry.Resolves (Retry.answer "Rinse the jar.") in
  App.handleSubmit up "t0" clk App.initial = (App.Returned App.initial, [])
  ∧ App.handleSubmit up "t0" clk typed = (App.Returned typed, []).
Proof.
  intros typed clk up. split.
  - apply (handleSubmit_invalid_noop up "t0" clk App.initial).
    left. split; [reflexivity|]. repeat constructor.
  - apply (handleSubmit_invalid_noop up "t0" clk typed).
    right. split; reflexivity.
Defined.

Lemma handleSubmit_events up at_user clk s s1 p :
  App.submit_begin at_user s = Some (s1, p) →
  (App.handleSubmit up at_user clk s).2 = (Retry.fetchWithRetry up (App.sent_prompt p) 0).1.
Proof.
  intros Hbegin. unfold App.handleSubmit. rewrite Hbegin.
  by destruct (Retry.fetchWithRetry _ _ _).
Qed.

(** [Array.prototype.join] as the library function on strings. *)
Lemma join_concat (sep : string) (l : list string) : Js.join sep l = String.concat sep l.
Proof.
  induction l as [|x l IH]; [done|].
  destruct l as [|y l]; [done|].
  change (x +:+ sep +:+ Js.join sep (y :: l) = x +:+ sep +:+ String.concat sep (y :: l)).
  by rewrite IH.
Qed.

(** C6.  In chat mode, with messages m1..mn on the page and the text [t] in
    the follow-up field, every request of the submission is posted to the
    endpoint with the body [{ contents: [{ parts: [{ text: prompt }] }] }],
    where the prompt is made of one line per message, "Human: " or
    "Assistant: " by its role followed by its content, the lines joined by
    the line feed character in the order of the messages, then two line
    feeds and "Human: " followed by [t]: the whole transcript, nothing left
    out.  At least one request and at most four are made, the first event
    of the submission being a request. *)
Theorem followup_prompt_has_transcript (up : Retry.Upstream) (at_user : string)
    (clk : App.Clock) (s : App.State) :
  App.showItemsInput s = false →
  Js.nonblank (App.currentInput s) = true →
  let line_feed := String "010"%char EmptyString in
  let line := λ m,
    match App.msg_type m with
    | App.user => "Human: " +:+ App.msg_content m
    | App.assistant => "Assistant: " +:+ App.msg_content m
    end in
  let prompt :=
    String.concat line_feed (line <$> App.messages s)
      +:+ line_feed +:+ line_feed +:+ "Human: " +:+ App.currentInput s in
  let body :=
    JObj [("contents", JArr [JObj [("parts", JArr [JObj [("text", JStr prompt)]])]])] in
  let evs := (App.handleSubmit up at_user clk s).2 in
  ∃ i, (i ≤ 3)%nat
       ∧ Retry.posts evs = replicate (S i) body
       ∧ head evs
         = Some (Retry.Posted "https://waste-ai-krjb.onrender.com/api/gemini" body)
       ∧ Forall (λ e, ∀ url sent, e = Retry.Posted url sent → sent = body) evs.
Proof.
  intros Hmode Hinput line_feed line prompt body evs.
  assert (∃ s1 p, App.submit_begin at_user s = Some (s1, p) ∧ App.sent_prompt p = prompt)
    as (s1 & p & Hbegin & Hprompt).
  { unfold App.submit_begin. rewrite Hmode, Hinput. simpl. do 2 eexists.
    split; [reflexivity|]. simpl. subst prompt. unfold App.buildPromptWithContext.
    rewrite join_concat. change App.newline with line_feed.
    do 2 f_equal. apply list_fmap_ext. intros _ m _. subst line. simpl.
    unfold App.label. by destruct (App.msg_type m). }
  subst evs. rewrite (handleSubmit_events up at_user clk s s1 p Hbegin), Hprompt.
  destruct (retries_exist up prompt) as (i & Hi & Hretry & Hstop).
  rewrite (fetchWithRetry_schedule up prompt i Hi Hretry Hstop). cbn [fst].
  change (Retry.request_body prompt) with body.
  exists i. split; [exact Hi|]. split; [apply posts_schedule|].
  split; [by destruct i|].
  generalize 0%nat as retryCount. clear Hi Hretry Hstop.
  induction i as [|i IH]; intros retryCount; cbn [Retry.schedule].
  - apply Forall_cons. split; [|done]. by intros url sent [= _ <-].
  - apply Forall_cons. split; [by intros url sent [= _ <-]|].
    apply Forall_cons. split; [done|]. apply IH.
Qed.

(** A follow-up after one exchange, against a service that is rate limited
    once. *)
Lemma followup_prompt_has_transcript_witness :
  let s :=
    App.setCurrentInput "And the lid?"
      (App.setShowItemsInput false
         (App.setMessages
            [ {| App.msg_type := App.user; App.msg_content := "Items: jar";
                 App.msg_timestamp := "t0" |};
              {| App.msg_type := App.assistant; App.msg_content := "Rinse the jar.";
                 App.msg_timestamp := "t1" |} ] App.initial)) in
  let clk := {| App.at_assistant := "t3"; App.now_id := "2"; App.at_entry := "t4" |} in
  let up := λ (n : nat) (_ : Json),
    match n with
    | O => Retry.HttpError 429 JNull
    | S _ => Retry.Resolves (Retry.answer "Recycle it with metals.")
    end in
  let line_feed := String "010"%char EmptyString in
  let body :=
    JObj [("contents",
           JArr [JObj [("parts",
                        JArr [JObj [("text",
                                     JStr ("Human: Items: jar" +:+ line_feed
                                           +:+ "Assistant: Rinse the jar." +:+ line_feed
                                           +:+ line_feed +:+ "Human: And the lid?"))]])]])] in
  ∃ i, Retry.posts (App.handleSubmit up "t2" clk s).2 = replicate (S i) body
       ∧ head (App.handleSubmit up "t2" clk s).2
         = Some (Retry.Posted "https://waste-ai-krjb.onrender.com/api/gemini" body).
Proof.
  intros s clk up line_feed body.
  destruct (followup_prompt_has_transcript up "t2" clk s eq_refl eq_refl)
    as (i & _ & Hposts & Hhead & _).
  exists i. split; [exact Hposts|exact Hhead].
Defined.

(** C7, as the code has it.  When a valid submission fails (the request is
    rejected after the retries, or at once), [handleSubmit] catches the
    failure: the state after it is the state before it with the user's
    message appended, the error set to the one failure message, the loading
    flag off and the follow-up field cleared.  No assistant message is
    appended, the history and the mode are as before. *)
Theorem handleSubmit_failure (up : Retry.Upstream) (at_user : string)
    (clk : App.Clock) (s s1 : App.State) (p : App.Pending) (e : Retry.Thrown) :
  App.submit_begin at_user s = Some (s1, p) →
  (Retry.fetchWithRetry up (App.sent_prompt p) 0).2 = Some (Retry.Rejected e) →
  let userMessage :=
    {| App.msg_type := App.user;
       App.msg_content :=
         if App.showItemsInput s
         then "Items: " +:+ App.itemsList (App.validItems (App.items s))
         else App.currentInput s;
       App.msg_timestamp := at_user |} in
  let s' :=
    App.setIsLoading false
      (App.setCurrentInput ""
         (App.setError (Some "Failed to get a response. Please try again.")
            (App.setMessages (App.messages s ++ [userMessage]) s))) in
  (App.handleSubmit up at_user clk s).1 = App.Settles s'
  ∧ App.messages s' = App.messages s ++ [userMessage]
  ∧ App.history s' = App.history s
  ∧ App.showItemsInput s' = App.showItemsInput s
  ∧ App.error s' = Some App.failure_message.
Proof.
  intros Hbegin Hfetch userMessage s'. subst s' userMessage. split; [|done].
  unfold App.handleSubmit. rewrite Hbegin.
  destruct (Retry.fetchWithRetry up (App.sent_prompt p) 0) as [evs r].
  simpl in Hfetch. subst r. simpl.
  unfold App.submit_begin in Hbegin.
  destruct (App.showItemsInput s) eqn:Hmode; simpl in Hbegin.
  - destruct (length _ =? 0)%nat; [done|]. simpl in Hbegin.
    by injection Hbegin as <- <-.
  - destruct (Js.nonblank (App.currentInput s)); [|done]. simpl in Hbegin.
    by injection Hbegin as <- <-.
Qed.

(** A first submission against a service that answers 500. *)
Lemma handleSubmit_failure_witness :
  let s := App.setItems [ {| App.item_id := "1"; App.item_name := "jar" |};
                          App.blank_item "1700000000001" ] App.initial in
  let clk := {| App.at_assistant := "t1"; App.now_id := "2"; App.at_entry := "t2" |} in
  let up := λ (_ : nat) (_ : Json), Retry.HttpError 500 JNull in
  ∃ s', (App.handleSubmit up "t0" clk s).1 = App.Settles s'
        ∧ App.messages s'
          = [ {| App.msg_type := App.user; App.msg_content := "Items: jar";
                 App.msg_timestamp := "t0" |} ]
        ∧ App.history s' = []
        ∧ App.error s' = Some "Failed to get a response. Please try again.".
Proof.
  intros s clk up.
  destruct (App.submit_begin "t0" s) as [[s1 p]|] eqn:Hbegin; [|discriminate].
  destruct (handleSubmit_failure up "t0" clk s s1 p
              (Retry.AxiosError (Some (500, JNull))) Hbegin)
    as (Hrun & Hmsgs & Hhist & _ & Herr).
  - injection Hbegin as <- <-. reflexivity.
  - eexists. split; [exact Hrun|]. split; [exact Hmsgs|]. split; [exact Hhist|exact Herr].
Defined.

(** C7 as stated fails for a follow-up: the text typed in the follow-up
    field is gone after the failure, so the state is not the one before
    plus the user's message and the error. *)
Lemma followup_failure_clears_input :
  let s :=
    App.setCurrentInput "And the lid?"
      (App.setShowItemsInput false
         (App.setMessages
            [ {| App.msg_type := App.user; App.msg_content := "Items: jar";
                 App.msg_timestamp := "t0" |};
              {| App.msg_type := App.assistant; App.msg_content := "Rinse the jar.";
                 App.msg_timestamp := "t1" |} ] App.initial)) in
  let clk := {| App.at_assistant := "t3"; App.now_id := "2"; App.at_entry := "t4" |} in
  let up := λ (_ : nat) (_ : Json), Retry.HttpError 500 JNull in
  let userMessage :=
    {| App.msg_type := App.user; App.msg_content := "And the lid?";
       App.msg_timestamp := "t2" |} in
  ∃ s', (App.handleSubmit up "t2" clk s).1 = App.Settles s'
        ∧ App.currentInput s = "And the lid?"
        ∧ App.currentInput s' = ""
        ∧ s' ≠ App.setError (Some App.failure_message)
                 (App.setMessages (App.messages s ++ [userMessage]) s).
Proof.
  intros s clk up userMessage. eexists. split; [reflexivity|].
  split; [reflexivity|]. split; [reflexivity|].
  intros Heq. apply (f_equal App.currentInput) in Heq. discriminate.
Qed.

(** ** Modes and history *)

Section PageFacts.

Import Retry App Store Page.

Implicit Types (c : Config) (a : Action) (s : State).

Lemma submit_settle_mode p r clk s :
  showItemsInput (submit_settle p r clk s)
  = match r with
    | Fulfilled _ => if sent_showItemsInput p then false else showItemsInput s
    | Rejected _ => showItemsInput s
    end.
Proof. unfold submit_settle. destruct r; [|done]. by destruct (sent_showItemsInput p). Qed.

Lemma submit_settle_history p r clk s :
  history (submit_settle p r clk s)
  = match r with
    | Fulfilled response =>
        if sent_showItemsInput p then entry_of p response clk :: history s else history s
    | Rejected _ => history s
    end.
Proof. unfold submit_settle. destruct r; [|done]. by destruct (sent_showItemsInput p). Qed.

Lemma submit_begin_mode at_user s s1 p :
  submit_begin at_user s = Some (s1, p) →
  showItemsInput s1 = showItemsInput s
  ∧ history s1 = history s
  ∧ sent_showItemsInput p = showItemsInput s
  ∧ sent_items p = items s
  ∧ sent_additionalNotes p = additionalNotes s
  ∧ messages s1
    = messages s
      ++ [ {| msg_type := user;
              msg_content :=
                if showItemsInput s then "Items: " +:+ itemsList (validItems (items s))
                else currentInput s;
              msg_timestamp := at_user |} ].
Proof.
  unfold submit_begin. intros Hbegin.
  destruct (showItemsInput s) eqn:Hmode; simpl in Hbegin.
  - destruct (length _ =? 0)%nat; [done|]. simpl in Hbegin.
    injection Hbegin as <- <-. simpl. by rewrite Hmode.
  - destruct (Js.nonblank (currentInput s)); [|done]. simpl in Hbegin.
    injection Hbegin as <- <-. simpl. by rewrite Hmode.
Qed.

(** What a single event can do to the mode. *)
Lemma step_mode c a c' :
  step c a = Some c' →
  showItemsInput (state c') = showItemsInput (state c)
  ∨ (a = NewChat ∧ showItemsInput (state c') = true ∧ messages (state c') = [])
  ∨ (∃ n entry, a = OpenHistory n ∧ history (state c) !! n = Some entry
                ∧ showItemsInput (state c') = false)
  ∨ (∃ n p response clk,
       a = Settle n (Fulfilled response) clk
       ∧ waiting c !! n = Some p
       ∧ sent_showItemsInput p = true
       ∧ showItemsInput (state c') = false
       ∧ history (state c') = entry_of p response clk :: history (state c)).
Proof.
  intros Hstep. destruct a as [id value now|id|v|v| |n| |at_user|n r clk]; simpl in Hstep.
  - destruct (handleItemChange _ _ _ _); simplify_eq/=. by left.
  - simplify_eq/=. by left.
  - simplify_eq/=. by left.
  - simplify_eq/=. by left.
  - simplify_eq/=. by left.
  - destruct (history (state c) !! n) as [entry|] eqn:Hentry; simplify_eq/=.
    + right. right. left. by exists n, entry.
    + by left.
  - simplify_eq/=. right. by left.
  - destruct (submit_begin at_user (state c)) as [[s1 p]|] eqn:Hbegin; simplify_eq/=.
    + left. by apply submit_begin_mode in Hbegin as [-> _].
    + by left.
  - destruct (waiting c !! n) as [p|] eqn:Hp; [|simplify_eq; by left].
    injection Hstep as <-. cbn [state].
    rewrite submit_settle_mode, submit_settle_history.
    destruct r as [response|e]; [|by left].
    destruct (sent_showItemsInput p) eqn:Hsent; [|by left].
    right. right. right. by exists n, p, response, clk.
Qed.

Lemma run_stays_chatting acts c c' :
  run c acts = Some c' →
  forallb (λ a, negb (is_NewChat a)) acts = true →
  showItemsInput (state c) = false →
  showItemsInput (state c') = false.
Proof.
  revert c. induction acts as [|a acts IH]; intros c Hrun Hacts Hmode; simpl in *.
  - by simplify_eq.
  - apply andb_true_iff in Hacts as [Ha Hacts].
    destruct (step c a) as [c1|] eqn:Hstep; simplify_eq/=.
    apply (IH c1); [done|done|].
    destruct (step_mode c a c1 Hstep)
      as [Heq|[(-> & _)|[(n & entry & _ & _ & Hm)|(n & p & r & clk & _ & _ & _ & Hm & _)]]];
      try done.
    by rewrite Heq.
Qed.

End PageFacts.

Lemma handleSubmit_fulfilled up at_user clk s s1 p response :
  App.submit_begin at_user s = Some (s1, p) →
  (Retry.fetchWithRetry up (App.sent_prompt p) 0).2
  = Some (Retry.Fulfilled (JStr response)) →
  (App.handleSubmit up at_user clk s).1
  = App.Settles (App.submit_settle p (Retry.Fulfilled response) clk s1).
Proof.
  intros Hbegin Hfetch. unfold App.handleSubmit. rewrite Hbegin.
  destruct (Retry.fetchWithRetry up (App.sent_prompt p) 0) as [evs r].
  simpl in Hfetch. by subst r.
Qed.

(** C3, as the code has it.  One event takes the page from collecting items
    to chatting only when a first submission is fulfilled, which puts the
    entry with the submitted non-blank items and the response text at the
    head of the history, or when a stored entry is reopened; it takes the
    page from chatting back to collecting only when it is the reset to a new
    conversation, which leaves no message.  A follow-up that settles changes
    neither the history nor the mode, and without a reset a page that chats
    keeps chatting, so a conversation changes mode once at most.  For a whole
    call of [handleSubmit]: fulfilled in item mode it appends the user and
    the assistant message, adds the entry and switches to chatting; fulfilled
    in chat mode it leaves history and mode as they are. *)
Theorem mode_transitions :
  (∀ c a c',
     Page.step c a = Some c' →
     App.showItemsInput (Page.state c) = true →
     App.showItemsInput (Page.state c') = false →
     (∃ n p response clk,
        a = Page.Settle n (Retry.Fulfilled response) clk
        ∧ Page.waiting c !! n = Some p
        ∧ App.sent_showItemsInput p = true
        ∧ App.history (Page.state c')
          = App.entry_of p response clk :: App.history (Page.state c))
     ∨ (∃ n entry, a = Page.OpenHistory n
                   ∧ App.history (Page.state c) !! n = Some entry))
  ∧ (∀ c a c',
       Page.step c a = Some c' →
       App.showItemsInput (Page.state c) = false →
       App.showItemsInput (Page.state c') = true →
       a = Page.NewChat ∧ App.messages (Page.state c') = [])
  ∧ (∀ c n p r clk c',
       Page.step c (Page.Settle n r clk) = Some c' →
       Page.waiting c !! n = Some p →
       App.sent_showItemsInput p = false →
       App.history (Page.state c') = App.history (Page.state c)
       ∧ App.showItemsInput (Page.state c') = App.showItemsInput (Page.state c))
  ∧ (∀ acts c c',
       Page.run c acts = Some c' →
       forallb (λ a, negb (Page.is_NewChat a)) acts = true →
       App.showItemsInput (Page.state c) = false →
       App.showItemsInput (Page.state c') = false)
  ∧ (∀ up at_user clk s s1 p response,
       App.submit_begin at_user s = Some (s1, p) →
       (Retry.fetchWithRetry up (App.sent_prompt p) 0).2
       = Some (Retry.Fulfilled (JStr response)) →
       ∃ s', (App.handleSubmit up at_user clk s).1 = App.Settles s'
             ∧ if App.showItemsInput s then
                 App.showItemsInput s' = false
                 ∧ App.history s'
                   = {| App.entry_id := App.now_id clk;
                        App.entry_items := App.validItems (App.items s);
                        App.entry_additionalNotes := App.additionalNotes s;
                        App.entry_instructions := response;
                        App.entry_timestamp := App.at_entry clk |} :: App.history s
                 ∧ App.messages s'
                   = App.messages s
                     ++ [ {| App.msg_type := App.user;
                             App.msg_content :=
                               "Items: " +:+ App.itemsList (App.validItems (App.items s));
                             App.msg_timestamp := at_user |};
                          {| App.msg_type := App.assistant;
                             App.msg_content := response;
                             App.msg_timestamp := App.at_assistant clk |} ]
               else
                 App.showItemsInput s' = false
                 ∧ App.history s' = App.history s).
Proof.
  split; [|split; [|split; [|split]]].
  - intros c a c' Hstep Hbefore Hafter.
    destruct (step_mode c a c' Hstep)
      as [Heq|[(-> & Hm & _)|[(n & entry & -> & Hentry & _)
                              |(n & p & r & clk & -> & Hp & Hsent & _ & Hhist)]]].
    + congruence.
    + congruence.
    + right. by exists n, entry.
    + left. by exists n, p, r, clk.
  - intros c a c' Hstep Hbefore Hafter.
    destruct (step_mode c a c' Hstep)
      as [Heq|[(-> & _ & Hmsgs)|[(n & entry & _ & _ & Hm)
                                 |(n & p & r & clk & _ & _ & _ & Hm & _)]]];
      try congruence.
    done.
  - intros c n p r clk c' Hstep Hp Hsent. simpl in Hstep. rewrite Hp in Hstep.
    injection Hstep as <-. cbn [Page.state].
    rewrite submit_settle_mode, submit_settle_history, Hsent. by destruct r.
  - intros acts c c'. apply run_stays_chatting.
  - intros up at_user clk s s1 p response Hbegin Hfetch.
    eexists. split; [by apply handleSubmit_fulfilled|].
    rewrite submit_settle_mode, submit_settle_history.
    apply submit_begin_mode in Hbegin as (Hmode & Hhist & Hsent & Hitems & Hnotes & Hmsgs).
    rewrite Hsent, Hmode, Hhist. unfold App.entry_of. rewrite Hitems, Hnotes.
    destruct (App.showItemsInput s) eqn:Hs; [|done].
    split; [done|]. split; [done|].
    unfold App.submit_settle. rewrite Hsent. simpl. rewrite Hmsgs.
    by rewrite <- app_assoc.
Qed.

(** A first submission of one item that is answered at once. *)
Lemma mode_transitions_witness :
  let s := App.setItems [ {| App.item_id := "1"; App.item_name := "jar" |};
                          App.blank_item "1700000000001" ] App.initial in
  let clk := {| App.at_assistant := "t1"; App.now_id := "1700000000002";
                App.at_entry := "t2" |} in
  let up := λ (_ : nat) (_ : Json), Retry.Resolves (Retry.answer "Rinse the jar.") in
  ∃ s', (App.handleSubmit up "t0" clk s).1 = App.Settles s'
        ∧ App.showItemsInput s' = false
        ∧ App.history s'
          = [ {| App.entry_id := "1700000000002";
                 App.entry_items := [ {| App.item_id := "1"; App.item_name := "jar" |} ];
                 App.entry_additionalNotes := "";
                 App.entry_instructions := "Rinse the jar.";
                 App.entry_timestamp := "t2" |} ].
Proof.
  intros s clk up.
  destruct mode_transitions as (_ & _ & _ & _ & Hsubmit).
  destruct (App.submit_begin "t0" s) as [[s1 p]|] eqn:Hbegin; [|discriminate].
  destruct (Hsubmit up "t0" clk s s1 p "Rinse the jar." Hbegin) as (s' & Hrun & Hafter).
  - injection Hbegin as <- <-. reflexivity.
  - exists s'. split; [exact Hrun|]. simpl in Hafter.
    destruct Hafter as (Hmode & Hhist & _). split; [exact Hmode|exact Hhist].
Defined.

(** C3 as stated fails when a stored entry is reopened: after a first
    conversation and the reset, the page collects items and has no message
    and no request waiting; a click on the entry in the history list puts
    it in chat mode, with no submission and no response. *)
Lemma open_history_switches_mode :
  let c0 := {| Page.state := App.initial; Page.store := ∅; Page.waiting := [] |} in
  let clk := {| App.at_assistant := "t1"; App.now_id := "1700000000002";
                App.at_entry := "t2" |} in
  ∃ c1 c2,
    Page.run c0 [ Page.ItemChange "1" "jar" "1700000000001";
                  Page.Submit "t0";
                  Page.Settle 0 (Retry.Fulfilled "Rinse the jar.") clk;
                  Page.NewChat ] = Some c1
    ∧ App.showItemsInput (Page.state c1) = true
    ∧ App.messages (Page.state c1) = []
    ∧ Page.waiting c1 = []
    ∧ Page.step c1 (Page.OpenHistory 0) = Some c2
    ∧ App.showItemsInput (Page.state c2) = false
    ∧ App.messages (Page.state c2)
      = [ {| App.msg_type := App.user; App.msg_content := "Items: jar";
             App.msg_timestamp := "t2" |};
          {| App.msg_type := App.assistant; App.msg_content := "Rinse the jar.";
             App.msg_timestamp := "t2" |} ].
Proof.
  intros c0 clk. do 2 eexists.
  split; [vm_compute; reflexivity|].
  repeat split; vm_compute; reflexivity.
Qed.

(** ** History in the store *)

Section JsonFacts.

Import JSON.

Lemma read_chars_write_char (c : ascii) (k : string) :
  read_chars (write_char c k) = push c (read_chars k).
Proof.
  destruct c as [[] [] [] [] [] [] [] []]; reflexivity.
Qed.

Lemma read_chars_write_chars (s k : string) :
  read_chars (write_chars s (String dquote k)) = Ok (s, k).
Proof.
  induction s as [|c s IH]; [reflexivity|].
  cbn [write_chars]. by rewrite read_chars_write_char, IH.
Qed.

Lemma length_write_char (c : ascii) (k : string) :
  (String.length k < String.length (write_char c k))%nat.
Proof.
  destruct c as [[] [] [] [] [] [] [] []]; simpl; lia.
Qed.

Lemma length_write_chars (s k : string) :
  (String.length k ≤ String.length (write_chars s k))%nat.
Proof.
  induction s as [|c s IH]; simpl; [lia|].
  pose proof (length_write_char c (write_chars s k)). lia.
Qed.

Lemma length_write_string (s k : string) :
  (2 + String.length k ≤ String.length (write_string s k))%nat.
Proof.
  unfold write_string. simpl.
  pose proof (length_write_chars s (String dquote k)). simpl in *. lia.
Qed.

Lemma read_value_unfold (fuel : nat) (s : string) :
  read_value (S fuel) s
  = match skip_white s with
    | EmptyString => Err SyntaxError
    | String c s' =>
        if Ascii.eqb c dquote then
          ' (str, rest) ← read_chars s' ; Ok (JStr str, rest)
        else if Ascii.eqb c "[" then
          match skip_white s' with
          | EmptyString => Err SyntaxError
          | String c' rest =>
              if Ascii.eqb c' "]" then Ok (JArr [], rest)
              else ' (l, rest') ← read_elements fuel s' ; Ok (JArr l, rest')
          end
        else if Ascii.eqb c "{" then
          match skip_white s' with
          | EmptyString => Err SyntaxError
          | String c' rest =>
              if Ascii.eqb c' "}" then Ok (JObj [], rest)
              else
                ' (ps, rest') ← read_members fuel s' ;
                if keys_ok ps then Ok (JObj ps, rest') else Err Unsupported
          end
        else if Ascii.eqb c "n" then literal "ull" JNull s'
        else if Ascii.eqb c "t" then literal "rue" (JBool true) s'
        else if Ascii.eqb c "f" then literal "alse" (JBool false) s'
        else if Ascii.eqb c "-" || is_digit c then Err Unsupported
        else Err SyntaxError
    end.
Proof. reflexivity. Qed.

Lemma read_elements_unfold (fuel : nat) (s : string) :
  read_elements (S fuel) s
  = ' (v, rest) ← read_value fuel s ;
    match skip_white rest with
    | EmptyString => Err SyntaxError
    | String c rest' =>
        if Ascii.eqb c "," then
          ' (l, rest'') ← read_elements fuel rest' ; Ok (v :: l, rest'')
        else if Ascii.eqb c "]" then Ok ([v], rest')
        else Err SyntaxError
    end.
Proof. reflexivity. Qed.

Lemma read_members_unfold (fuel : nat) (s : string) :
  read_members (S fuel) s
  = match skip_white s with
    | EmptyString => Err SyntaxError
    | String q s1 =>
        if Ascii.eqb q dquote then
          ' (key, rest) ← read_chars s1 ;
          match skip_white rest with
          | EmptyString => Err SyntaxError
          | String c rest1 =>
              if Ascii.eqb c ":" then
                ' (v, rest2) ← read_value fuel rest1 ;
                match skip_white rest2 with
                | EmptyString => Err SyntaxError
                | String c' rest3 =>
                    if Ascii.eqb c' "," then
                      ' (ps, rest4) ← read_members fuel rest3 ;
                      Ok ((key, v) :: ps, rest4)
                    else if Ascii.eqb c' "}" then Ok ([(key, v)], rest3)
                    else Err SyntaxError
                end
              else Err SyntaxError
          end
        else Err SyntaxError
    end.
Proof. reflexivity. Qed.

Lemma write_opens (v : Json) (k : string) :
  supported v = true →
  ∃ c rest, write v k = String c rest ∧ opens c = true.
Proof.
  destruct v as [|[]|n|s|l|ps]; intros Hsup; try discriminate; simpl; by eauto.
Qed.

Lemma write_list_cons {A : Type} (w : A → string → string) close x l k :
  write_list w close (x :: l) k
  = w x (match l with
         | [] => String close k
         | _ :: _ => String "," (write_list w close l k)
         end).
Proof. reflexivity. Qed.

Lemma length_write_list {A : Type} (w : A → string → string) (m : A → nat) close l k :
  Forall (λ x, ∀ k', (m x + String.length k' ≤ String.length (w x k'))%nat) l →
  (list_sum (map (λ x, S (m x)) l) + String.length k
   ≤ String.length (write_list w close l k))%nat.
Proof.
  induction 1 as [|x l Hx _ IH]; [simpl; lia|].
  rewrite write_list_cons. cbn [map list_sum fold_right].
  destruct l as [|y l'].
  - specialize (Hx (String close k)). simpl in *. lia.
  - specialize (Hx (String "," (write_list w close (y :: l') k))).
    cbn [String.length] in Hx. cbn [map list_sum fold_right] in IH |- *. lia.
Qed.

Lemma forallb_Forall {A : Type} (f : A → bool) (l : list A) :
  forallb f l = true → Forall (λ x, f x = true) l.
Proof.
  induction l as [|x l IH]; simpl; intros Hall; [constructor|].
  apply andb_true_iff in Hall as [Hx Hl]. constructor; auto.
Qed.

Lemma length_write (v : Json) :
  supported v = true →
  ∀ k, (size v + String.length k ≤ String.length (write v k))%nat.
Proof.
  induction v as [|b|n|s|l IH|ps IH] using Json_induction; intros Hsup k.
  - simpl. lia.
  - destruct b; simpl; lia.
  - discriminate.
  - pose proof (length_write_string s k). simpl in *. lia.
  - cbn [write size String.length].
    cbn [supported] in Hsup. apply forallb_Forall in Hsup.
    enough (Forall (λ x, ∀ k', (size x + String.length k'
                                ≤ String.length (write x k'))%nat) l) as Hall.
    { pose proof (length_write_list write size "]" l k Hall). lia. }
    eapply Forall_impl; [apply Forall_and; split; [exact IH|exact Hsup]|].
    intros x [Hx Hs] k'. by apply Hx.
  - cbn [write size String.length].
    cbn [supported] in Hsup. apply andb_true_iff in Hsup as [_ Hsup].
    apply forallb_Forall in Hsup.
    set (w := λ (kv : string * Json) k', write_string kv.1 (String ":" (write kv.2 k'))).
    enough (Forall (λ kv, ∀ k', (size kv.2 + String.length k'
                                 ≤ String.length (w kv k'))%nat) ps) as Hall.
    { pose proof (length_write_list w (λ kv, size kv.2) "}" ps k Hall). lia. }
    eapply Forall_impl; [apply Forall_and; split; [exact IH|exact Hsup]|].
    intros [key v] [Hv Hs] k'. simpl in *.
    pose proof (length_write_string key (String ":" (write v k'))) as Hkey.
    specialize (Hv Hs k'). simpl in Hkey. lia.
Qed.

Lemma opens_spec (c : ascii) :
  opens c = true →
  is_space c = false ∧ Ascii.eqb c "]" = false ∧ Ascii.eqb c "}" = false.
Proof.
  unfold opens. intros H. apply andb_true_iff in H as [H H3].
  apply andb_true_iff in H as [H1 H2].
  by repeat split; apply negb_true_iff.
Qed.

Lemma read_elements_written (l : list Json) :
  l ≠ [] →
  Forall reads_back l →
  ∀ fuel k,
    (list_sum (map (λ x, S (size x)) l) ≤ fuel)%nat →
    read_elements fuel (write_list write "]" l k) = Ok (l, k).
Proof.
  intros Hne Hall. induction Hall as [|x l Hx _ IH]; [done|].
  intros fuel k Hfuel. cbn [map list_sum fold_right] in Hfuel.
  destruct fuel as [|fuel]; [lia|].
  rewrite read_elements_unfold, write_list_cons.
  rewrite Hx by lia. cbn [bind].
  destruct l as [|y l'].
  - reflexivity.
  - set (tail := write_list write "]" (y :: l') k).
    cbn [skip_white is_space]. change (Ascii.eqb "," ",") with true. cbn iota.
    subst tail. rewrite IH; [done|done|]. cbn [map list_sum fold_right] in *. lia.
Qed.

Lemma read_members_written (ps : list (string * Json)) :
  ps ≠ [] →
  Forall (λ kv, reads_back kv.2) ps →
  ∀ fuel k,
    (list_sum (map (λ kv, S (size kv.2)) ps) ≤ fuel)%nat →
    read_members fuel
      (write_list (λ kv k', write_string kv.1 (String ":" (write kv.2 k'))) "}" ps k)
    = Ok (ps, k).
Proof.
  intros Hne Hall. induction Hall as [|[key v] ps Hv _ IH]; [done|].
  intros fuel k Hfuel. cbn [map list_sum fold_right] in Hfuel. simpl in Hv, Hfuel.
  destruct fuel as [|fuel]; [lia|].
  rewrite read_members_unfold, write_list_cons.
  cbn [fst snd]. unfold write_string at 1.
  cbn [skip_white is_space]. change (is_space dquote) with false. cbn iota.
  rewrite Ascii.eqb_refl, read_chars_write_chars. cbn [bind].
  cbn [skip_white is_space]. change (Ascii.eqb ":" ":") with true. cbn iota.
  rewrite Hv by lia. cbn [bind].
  destruct ps as [|kv ps'].
  - reflexivity.
  - set (tail := write_list _ "}" (kv :: ps') k).
    cbn [skip_white is_space]. change (Ascii.eqb "," ",") with true. cbn iota.
    subst tail. rewrite IH; [done|done|]. cbn [map list_sum fold_right] in *. lia.
Qed.

(** Every supported value is read back from its text. *)
Lemma read_write (v : Json) : supported v = true → reads_back v.
Proof.
  induction v as [|b|n|s|l IH|ps IH] using Json_induction; intros Hsup fuel k Hfuel.
  - destruct fuel as [|fuel]; [simpl in Hfuel; lia|]. reflexivity.
  - destruct fuel as [|fuel]; [simpl in Hfuel; lia|]. by destruct b.
  - discriminate.
  - destruct fuel as [|fuel]; [simpl in Hfuel; lia|].
    rewrite read_value_unfold. cbn [write]. unfold write_string.
    cbn [skip_white]. change (is_space dquote) with false. cbn iota.
    rewrite Ascii.eqb_refl, read_chars_write_chars. reflexivity.
  - destruct fuel as [|fuel]; [simpl in Hfuel; lia|].
    cbn [size] in Hfuel. cbn [supported] in Hsup. apply forallb_Forall in Hsup.
    assert (Forall reads_back l) as Hall.
    { eapply Forall_impl; [apply Forall_and; split; [exact IH|exact Hsup]|].
      intros x [Hx Hs]. by apply Hx. }
    rewrite read_value_unfold. cbn [write].
    cbn [skip_white is_space]. change (Ascii.eqb "[" dquote) with false.
    change (Ascii.eqb "[" "[") with true. cbn iota.
    destruct l as [|x l'].
    + reflexivity.
    + apply Forall_cons in Hsup as [Hx _].
      destruct (write_opens x
                  (match l' with
                   | [] => String "]" k
                   | _ :: _ => String "," (write_list write "]" l' k)
                   end) Hx) as (c & rest & Heq & Hc).
      apply opens_spec in Hc as (Hspace & Hclose & _).
      rewrite write_list_cons at 1. rewrite Heq.
      cbn [skip_white]. rewrite Hspace, Hclose.
      rewrite read_elements_written; [done|done|done|lia].
  - destruct fuel as [|fuel]; [simpl in Hfuel; lia|].
    cbn [size] in Hfuel. cbn [supported] in Hsup.
    apply andb_true_iff in Hsup as [Hkeys Hsup]. apply forallb_Forall in Hsup.
    assert (Forall (λ kv, reads_back kv.2) ps) as Hall.
    { eapply Forall_impl; [apply Forall_and; split; [exact IH|exact Hsup]|].
      intros kv [Hv Hs]. by apply Hv. }
    rewrite read_value_unfold. cbn [write].
    cbn [skip_white is_space]. change (Ascii.eqb "{" dquote) with false.
    change (Ascii.eqb "{" "[") with false. change (Ascii.eqb "{" "{") with true.
    cbn iota.
    destruct ps as [|[key v] ps'].
    + reflexivity.
    + rewrite write_list_cons at 1. cbn [fst]. unfold write_string at 1.
      cbn [skip_white]. change (is_space dquote) with false. cbn iota.
      change (Ascii.eqb dquote "}") with false. cbn iota.
      rewrite read_members_written; [|done|done|lia].
      cbn [bind]. by rewrite Hkeys.
Qed.

Lemma parse_stringify (v : Json) :
  supported v = true → parse (stringify v) = Ok v.
Proof.
  intros Hsup. unfold parse, stringify.
  rewrite (read_write v Hsup).
  - reflexivity.
  - pose proof (length_write v Hsup ""). lia.
Qed.

End JsonFacts.

Section StoreFacts.

Import App Store Page.

Lemma supported_items (its : list RecyclingItem) :
  forallb JSON.supported (item_to_json <$> its) = true.
Proof. induction its as [|item its IH]; [done|]. simpl. exact IH. Qed.

Lemma supported_history (h : list RecyclingInstruction) :
  JSON.supported (history_to_json h) = true.
Proof.
  unfold history_to_json. cbn [JSON.supported].
  induction h as [|e h IH]; [done|].
  cbn [fmap list_fmap forallb]. rewrite IH, andb_true_r.
  unfold entry_to_json. cbn [JSON.supported].
  apply andb_true_iff. split; [reflexivity|].
  cbn [forallb snd JSON.supported]. by rewrite supported_items.
Qed.

Lemma json_to_item_to_json (item : RecyclingItem) :
  json_to_item (item_to_json item) = Some item.
Proof. by destruct item. Qed.

Lemma json_to_entry_to_json (e : RecyclingInstruction) :
  json_to_entry (entry_to_json e) = Some e.
Proof.
  destruct e as [i its a r t]. simpl.
  by rewrite (mapM_fmap_Some json_to_item item_to_json its json_to_item_to_json).
Qed.

Lemma json_to_history_to_json (h : list RecyclingInstruction) :
  json_to_history (history_to_json h) = Some h.
Proof. apply (mapM_fmap_Some json_to_entry entry_to_json h json_to_entry_to_json). Qed.

(** The text of a history that is not empty starts an array with an
    object: it is neither empty nor the text of the empty array. *)
Lemma stringify_history_cons (e : RecyclingInstruction) (h : list RecyclingInstruction) :
  ∃ rest, JSON.stringify (history_to_json (e :: h)) = String "[" (String "{" rest).
Proof. eexists. reflexivity. Qed.

Lemma load_saved_history (h : list RecyclingInstruction) (ls : gmap string string) :
  h ≠ [] → load_history (save_history h ls) = Restored h.
Proof.
  intros Hne. destruct h as [|e h]; [done|].
  unfold save_history, load_history. cbn [length Nat.ltb Nat.leb].
  rewrite lookup_insert_eq.
  destruct (stringify_history_cons e h) as [rest Htext].
  rewrite Htext at 1. cbn [String.eqb].
  by rewrite (parse_stringify _ (supported_history (e :: h))), json_to_history_to_json.
Qed.

End StoreFacts.

(** C8.  For every history, [JSON.parse] gives back from the text of
    [JSON.stringify] the value that was written, and that value is the same
    sequence of entries, in the same order.  So a page that starts on the
    store that the save effect wrote has this history again: whatever the
    store held before when the history is not empty, and from a store that
    was empty for every history (the effect writes nothing for the empty
    one). *)
Theorem history_round_trip (h : list App.RecyclingInstruction) :
  JSON.parse (JSON.stringify (Store.history_to_json h)) = JSON.Ok (Store.history_to_json h)
  ∧ Store.json_to_history (Store.history_to_json h) = Some h
  ∧ (∃ c, Page.mount (Store.save_history h ∅) = Some c ∧ App.history (Page.state c) = h)
  ∧ (∀ ls, h ≠ [] →
       Store.load_history (Store.save_history h ls) = Store.Restored h
       ∧ ∃ c, Page.mount (Store.save_history h ls) = Some c
              ∧ App.history (Page.state c) = h).
Proof.
  assert (∀ ls, h ≠ [] →
            Store.load_history (Store.save_history h ls) = Store.Restored h
            ∧ ∃ c, Page.mount (Store.save_history h ls) = Some c
                   ∧ App.history (Page.state c) = h) as Hreload.
  { intros ls Hne. split; [by apply load_saved_history|].
    unfold Page.mount. rewrite load_saved_history by done. by eexists. }
  split; [apply parse_stringify, supported_history|].
  split; [apply json_to_history_to_json|].
  split; [|exact Hreload].
  destruct h as [|e h]; [by eexists|].
  by apply Hreload.
Qed.

(** An entry whose texts hold a quote, a backslash and a line break, saved
    over a store that held something else. *)
Lemma history_round_trip_witness :
  let entry :=
    {| App.entry_id := "1700000000002";
       App.entry_items := [ {| App.item_id := "1"; App.item_name := "jar \ lid" |} ];
       App.entry_additionalNotes := String "034"%char "glass";
       App.entry_instructions := "Rinse." +:+ App.newline +:+ "Dry.";
       App.entry_timestamp := "2023-11-14T22:13:20.002Z" |} in
  Store.load_history (Store.save_history [entry] {[ Store.history_key := "[]" ]})
  = Store.Restored [entry].
Proof.
  intros entry.
  destruct (history_round_trip [entry]) as (_ & _ & _ & Hreload).
  apply Hreload. discriminate.
Defined.

(** C9.  The save effect leaves the store as it is when the history is
    empty and writes the entry "recyclingHistory" only when it is not; what
    it writes is never the text of the empty list.  On the page: an event
    after which the history is empty leaves the stored entry as it was, and
    so does a start that ends with an empty history; an event that changes
    the stored entry ends with a history that is not empty. *)
Theorem history_saved_when_not_empty :
  (∀ ls, Store.save_history [] ls = ls)
  ∧ (∀ h ls, Store.save_history h ls ≠ ls → h ≠ [])
  ∧ (∀ h ls,
       Store.save_history h ls !! Store.history_key = Some (JSON.stringify (JArr [])) →
       ls !! Store.history_key = Some (JSON.stringify (JArr [])))
  ∧ (∀ c a c',
       Page.step c a = Some c' →
       App.history (Page.state c') = [] →
       Page.store c' !! Store.history_key = Page.store c !! Store.history_key)
  ∧ (∀ c a c',
       Page.step c a = Some c' →
       Page.store c' !! Store.history_key ≠ Page.store c !! Store.history_key →
       App.history (Page.state c') ≠ [])
  ∧ (∀ ls c,
       Page.mount ls = Some c → App.history (Page.state c) = [] → Page.store c = ls).
Proof.
  assert (∀ c a c',
            Page.step c a = Some c' →
            App.history (Page.state c') = [] →
            Page.store c' !! Store.history_key = Page.store c !! Store.history_key)
    as Hstep.
  { intros c a c' Hstep Hempty.
    destruct a as [id value now|id|v|v| |n| |at_user|n r clk]; simpl in Hstep.
    - destruct (App.handleItemChange _ _ _ _); by simplify_eq/=.
    - by simplify_eq/=.
    - by simplify_eq/=.
    - by simplify_eq/=.
    - simplify_eq/=. by rewrite lookup_insert_ne.
    - destruct (App.history (Page.state c) !! n); by simplify_eq/=.
    - by simplify_eq/=.
    - destruct (App.submit_begin at_user (Page.state c)) as [[s1 p]|]; by simplify_eq/=.
    - destruct (Page.waiting c !! n) as [p|]; [|by simplify_eq].
      injection Hstep as <-. cbn [Page.state Page.store] in *.
      rewrite submit_settle_history in Hempty.
      destruct r as [response|e]; [|done].
      by destruct (App.sent_showItemsInput p). }
  split; [done|]. split; [by intros [|e h] ls|]. split; [|split; [exact Hstep|split]].
  - intros [|e h] ls; [done|].
    unfold Store.save_history. cbn [length Nat.ltb Nat.leb].
    rewrite lookup_insert_eq.
    destruct (stringify_history_cons e h) as [rest ->]. discriminate.
  - intros c a c' Hrun Hchanged Hempty. by apply Hchanged, (Hstep c a c').
  - intros ls c. unfold Page.mount.
    destruct (Store.load_history ls) as [|h| |]; intros Hmount Hempty; by simplify_eq/=.
Qed.

(** The moment of a start before the stored history is loaded: the history
    in memory is empty, the store holds one, and typing an item leaves the
    stored one alone. *)
Lemma history_saved_when_not_empty_witness :
  let ls : gmap string string := {[ Store.history_key := "[{}]" ]} in
  let c := {| Page.state := App.initial; Page.store := ls; Page.waiting := [] |} in
  ∃ c', Page.step c (Page.ItemChange "1" "jar" "1700000000001") = Some c'
        ∧ Page.store c' !! Store.history_key = Some "[{}]".
Proof.
  intros ls c.
  destruct (Page.step c (Page.ItemChange "1" "jar" "1700000000001")) as [c'|] eqn:Hstep;
    [|discriminate].
  exists c'. split; [reflexivity|].
  destruct history_saved_when_not_empty as (_ & _ & _ & Hkept & _).
  rewrite (Hkept c _ c' Hstep).
  - reflexivity.
  - injection Hstep as <-. reflexivity.
Defined.

(** A start on a store that holds a history, followed by a reset and some
    typing: the history entry of the store is never touched. *)
Example stored_history_kept :
  let entry :=
    {| App.entry_id := "1700000000002";
       App.entry_items := [ {| App.item_id := "1"; App.item_name := "jar" |} ];
       App.entry_additionalNotes := "";
       App.entry_instructions := "Rinse the jar.";
       App.entry_timestamp := "t2" |} in
  let text := JSON.stringify (Store.history_to_json [entry]) in
  (c ← Page.mount {[ Store.history_key := text ]};
   c' ← Page.run c [Page.NewChat; Page.ItemChange "1" "can" "1700000000003"];
   Some (App.history (Page.state c'), Page.store c' !! Store.history_key))
  = Some ([entry], Some text).
Proof. vm_compute. reflexivity. Qed.

(** * More of the code *)

(** ** The retry wrapper from any retry count *)

Section RetryMore.

Import Retry.

Variable up : Upstream.
Variable prompt : string.

Let body : Json := request_body prompt.

Lemma fetchWithRetry_fuel_step (fuel retryCount sent : nat) :
  fetchWithRetry_fuel (S fuel) up prompt retryCount sent
  = match up sent body with
    | HttpError status _ =>
        if (status =? 429) && (retryCount <? MAX_RETRIES)%nat then
          let '(evs, r) :=
            fetchWithRetry_fuel fuel up prompt (retryCount + 1) (sent + 1) in
          (Posted endpoint body :: Slept (RETRY_DELAY * 2 ^ Z.of_nat retryCount) :: evs, r)
        else ([Posted endpoint body], Some (settle (up sent body)))
    | _ => ([Posted endpoint body], Some (settle (up sent body)))
    end.
Proof. reflexivity. Qed.

(** With the fuel that [fetchWithRetry] gives it, the recursion ends from
    every retry count. *)
Lemma fetchWithRetry_fuel_ends (m retryCount sent : nat) :
  m = (MAX_RETRIES - retryCount)%nat →
  ∃ i, (i ≤ m)%nat
       ∧ (∀ j, (j < i)%nat → status_of (up (sent + j)%nat body) = Some 429)
       ∧ ((i < m)%nat → status_of (up (sent + i)%nat body) ≠ Some 429)
       ∧ fetchWithRetry_fuel (S m) up prompt retryCount sent
         = (schedule body retryCount i, Some (settle (up (sent + i)%nat body))).
Proof.
  revert retryCount sent. induction m as [|m IH]; intros retryCount sent Hm.
  - exists 0%nat. replace (sent + 0)%nat with sent by lia.
    split; [lia|]. split; [intros j Hj; lia|]. split; [lia|].
    rewrite fetchWithRetry_fuel_step.
    destruct (up sent body) as [data|status data|]; try reflexivity.
    assert ((retryCount <? MAX_RETRIES)%nat = false) as ->
      by (apply Nat.ltb_ge; lia).
    by rewrite andb_false_r.
  - assert ((retryCount <? MAX_RETRIES)%nat = true) as Hlt
      by (apply Nat.ltb_lt; lia).
    destruct (decide (status_of (up sent body) = Some 429)) as [H429|Hother].
    + destruct (IH (retryCount + 1)%nat (sent + 1)%nat ltac:(lia))
        as (i & Hi & Hretry & Hstop & Hrun).
      exists (S i). split; [lia|]. split; [|split].
      * intros [|j] Hj; [by replace (sent + 0)%nat with sent by lia|].
        replace (sent + S j)%nat with (sent + 1 + j)%nat by lia. apply Hretry. lia.
      * intros Hlt'. replace (sent + S i)%nat with (sent + 1 + i)%nat by lia.
        apply Hstop. lia.
      * rewrite fetchWithRetry_fuel_step.
        destruct (up sent body) as [data|status data|] eqn:Hreply; try discriminate.
        simpl in H429. injection H429 as ->. rewrite Hlt, Hrun. cbn [Z.eqb Pos.eqb andb].
        cbn [schedule]. by replace (sent + S i)%nat with (sent + 1 + i)%nat by lia.
    + exists 0%nat. replace (sent + 0)%nat with sent by lia.
      split; [lia|]. split; [intros j Hj; lia|]. split; [done|].
      rewrite fetchWithRetry_fuel_step.
      destruct (up sent body) as [data|status data|] eqn:Hreply; try reflexivity.
      destruct (status =? 429) eqn:Hs; [|reflexivity].
      apply Z.eqb_eq in Hs. subst status. by destruct Hother.
Qed.

End RetryMore.

Lemma length_posts_schedule body retryCount i :
  length (Retry.posts (Retry.schedule body retryCount i)) = S i.
Proof. by rewrite posts_schedule, length_replicate. Qed.

Lemma waits_schedule body retryCount i :
  Retry.waits (Retry.schedule body retryCount i)
  = (λ j, 1000 * 2 ^ Z.of_nat (retryCount + j)) <$> seq 0 i.
Proof.
  revert retryCount. induction i as [|i IH]; intros retryCount; [done|].
  cbn [Retry.schedule]. unfold Retry.waits in *. cbn [omap list_omap].
  rewrite IH. cbn [seq fmap list_fmap]. f_equal.
  - by replace (retryCount + 0)%nat with retryCount by lia.
  - rewrite <- seq_shift, <- list_fmap_compose. apply list_fmap_ext.
    intros _ j _. simpl. do 3 f_equal. lia.
Qed.

(** X1.  [fetchWithRetry] ends from every retry count it is called with:
    from [retryCount] it retries at most [MAX_RETRIES - retryCount] times
    (not at all from 3 or more), each retry only after a 429, and waits
    [1000 * 2 ^ (retryCount + j)] ms before its retry number [j]; it settles
    as the last reply does. *)
Theorem fetchWithRetry_from_any_count (up : Retry.Upstream) (prompt : string)
    (retryCount : nat) :
  let body := Retry.request_body prompt in
  let run := Retry.fetchWithRetry up prompt retryCount in
  ∃ i, (i ≤ Retry.MAX_RETRIES - retryCount)%nat
       ∧ (∀ j, (j < i)%nat → Retry.status_of (up j body) = Some 429)
       ∧ run.2 = Some (Retry.settle (up i body))
       ∧ length (Retry.posts run.1) = S i
       ∧ Retry.waits run.1 = (λ j, 1000 * 2 ^ Z.of_nat (retryCount + j)) <$> seq 0 i.
Proof.
  intros body run. subst run. unfold Retry.fetchWithRetry.
  destruct (fetchWithRetry_fuel_ends up prompt (Retry.MAX_RETRIES - retryCount)
              retryCount 0 eq_refl) as (i & Hi & Hretry & _ & ->).
  exists i. split; [done|]. split; [exact Hretry|]. split; [done|].
  split; [apply length_posts_schedule|apply waits_schedule].
Qed.

Lemma total_waits (i : nat) :
  foldr Z.add 0 ((λ j, 1000 * 2 ^ Z.of_nat j) <$> seq 0 i) = 1000 * (2 ^ Z.of_nat i - 1).
Proof.
  induction i as [|i IH]; [done|].
  rewrite seq_S, fmap_app, foldr_app. cbn [fmap list_fmap foldr].
  replace (0 + i)%nat with i by lia.
  rewrite Nat2Z.inj_succ, Z.pow_succ_r by lia.
  assert (∀ (l : list Z) a, foldr Z.add a l = foldr Z.add 0 l + a) as Hshift.
  { induction l as [|x l IHl]; intros a; simpl; [lia|]. rewrite IHl. lia. }
  rewrite Hshift, IH. lia.
Qed.

(** X2.  The waits of one call of [fetchWithRetry] add up to
    [1000 * (2 ^ i - 1)] ms for its [i] retries: 0, 1000, 3000 or 7000 ms,
    so a submission never sleeps for more than 7 seconds in all, and sleeps
    that long only when its first three requests were all answered 429. *)
Theorem backoff_total_wait (up : Retry.Upstream) (prompt : string) :
  let body := Retry.request_body prompt in
  let slept := foldr Z.add 0 (Retry.waits (Retry.fetchWithRetry up prompt 0).1) in
  (∃ i, (i ≤ 3)%nat
        ∧ length (Retry.waits (Retry.fetchWithRetry up prompt 0).1) = i
        ∧ slept = 1000 * (2 ^ Z.of_nat i - 1))
  ∧ 0 ≤ slept ≤ 7000
  ∧ (slept = 7000 → ∀ j, (j < 3)%nat → Retry.status_of (up j body) = Some 429).
Proof.
  intros body slept. subst slept.
  destruct (retries_exist up prompt) as (i & Hi & Hretry & Hstop).
  rewrite (fetchWithRetry_schedule up prompt i Hi Hretry Hstop). cbn [fst].
  rewrite waits_schedule. cbn [Nat.add]. rewrite (total_waits i), length_fmap, length_seq.
  unfold Retry.MAX_RETRIES in Hi. fold body in Hretry.
  split; [by exists i|].
  destruct i as [|[|[|[|i]]]]; try lia; (split; [simpl; lia|]); try (simpl; lia).
  intros _ j Hj. by apply Hretry.
Qed.

(** X2 on a service that is rate limited three times and then answers. *)
Lemma backoff_total_wait_witness :
  let up := λ (n : nat) (_ : Json),
    if (n <? 3)%nat then Retry.HttpError 429 JNull
    else Retry.Resolves (Retry.answer "Rinse the jar.") in
  foldr Z.add 0 (Retry.waits (Retry.fetchWithRetry up "jar" 0).1) = 7000
  ∧ Retry.status_of (up 2%nat (Retry.request_body "jar")) = Some 429.
Proof.
  intros up.
  destruct (backoff_total_wait up "jar") as (_ & _ & Hall).
  split; [reflexivity|]. apply Hall; [reflexivity|lia].
Defined.

(** ** What is read from a response *)

(** X3.  Of a success body only the first candidate and its first part are
    read: with candidates [c :: cs] and parts [p :: ps] in the content of
    [c], the call yields the text of [p] when that is truthy and the fallback
    otherwise, whatever the other parts and candidates hold; their texts are
    never returned. *)
Theorem extract_text_first_part (p : Json) (ps cs : list Json)
    (more_of_candidate more_of_content more_of_body : list (string * Json)) :
  let content := JObj (("parts", JArr (p :: ps)) :: more_of_content) in
  let c := JObj (("content", content) :: more_of_candidate) in
  let data := JObj (("candidates", JArr (c :: cs)) :: more_of_body) in
  Retry.extract_text data
  = Retry.Fulfilled
      (Value.or_else (Value.opt_get (Some p) "text") (JStr Retry.fallback))
  ∧ Retry.extract_text data
    = Retry.extract_text
        (JObj [("candidates", JArr [JObj [("content", JObj [("parts", JArr [p])])]])]).
Proof. split; reflexivity. Qed.

(** An answer in two parts: the second part is dropped. *)
Example extract_text_two_parts :
  Retry.extract_text
    (JObj [("candidates",
            JArr [JObj [("content",
                         JObj [("parts",
                                JArr [JObj [("text", JStr "Rinse the jar.")];
                                      JObj [("text", JStr "Then dry it.")]])])]])])
  = Retry.Fulfilled (JStr "Rinse the jar.").
Proof. reflexivity. Qed.

(** ** The client behind the proxy route *)

Section RouteFacts.

Import Retry.

Variable error_page : Z → string.
Variable API_KEY : option string.
Variable service : nat → string → Json → Reply.

Lemma route_handles_client_body (n : nat) (prompt : string) :
  Proxy.handler API_KEY (service n) (Some (request_body prompt))
  = match service n (Proxy.API_URL API_KEY) (request_body prompt) with
    | Resolves data =>
        {| Proxy.response := {| Proxy.status := 200; Proxy.body := data |};
           Proxy.calls := [(Proxy.API_URL API_KEY, request_body prompt)];
           Proxy.log := [] |}
    | HttpError st data =>
        Proxy.on_error (AxiosError (Some (st, data)))
          [(Proxy.API_URL API_KEY, request_body prompt)]
    | NoResponse =>
        Proxy.on_error (AxiosError None) [(Proxy.API_URL API_KEY, request_body prompt)]
    end.
Proof. reflexivity. Qed.

Lemma utf8_length_write_char (c : ascii) (k : string) :
  1 + Route.utf8_length k ≤ Route.utf8_length (JSON.write_char c k)
  ≤ 6 + Route.utf8_length k.
Proof.
  destruct c as [[] [] [] [] [] [] [] []]; simpl; lia.
Qed.

Lemma utf8_length_write_chars (s k : string) :
  Z.of_nat (String.length s) + Route.utf8_length k
  ≤ Route.utf8_length (JSON.write_chars s k)
  ≤ 6 * Z.of_nat (String.length s) + Route.utf8_length k.
Proof.
  induction s as [|c s IH]; [simpl; lia|].
  cbn [JSON.write_chars String.length].
  pose proof (utf8_length_write_char c (JSON.write_chars s k)). lia.
Qed.

Lemma utf8_length_low (c : ascii) (k : string) :
  (N_of_ascii c <? 128)%N = true →
  Route.utf8_length (String c k) = 1 + Route.utf8_length k.
Proof. intros Hc. cbn [Route.utf8_length]. by rewrite Hc. Qed.

(** A character that is written as it is, in one byte. *)
Lemma write_char_plain (c : ascii) (k : string) :
  (31 <? N_of_ascii c)%N && (N_of_ascii c <? 128)%N
  && negb (Ascii.eqb c JSON.dquote) && negb (Ascii.eqb c JSON.backslash) = true →
  JSON.write_char c k = String c k.
Proof.
  destruct c as [[] [] [] [] [] [] [] []]; (discriminate || reflexivity).
Qed.

(** The text of a request of the client is the prompt, escaped, in 38 bytes
    of brackets and names. *)
Lemma utf8_length_request (prompt : string) :
  Z.of_nat (String.length prompt) + 38
  ≤ Route.utf8_length (JSON.stringify (request_body prompt))
  ≤ 6 * Z.of_nat (String.length prompt) + 38.
Proof.
  pose proof (utf8_length_write_chars prompt (String JSON.dquote "}]}]}")) as H.
  change (Route.utf8_length (String JSON.dquote "}]}]}")) with 6 in H.
  assert (Route.utf8_length (JSON.stringify (request_body prompt))
          = 32 + Route.utf8_length
                   (JSON.write_chars prompt (String JSON.dquote "}]}]}"))) as ->.
  { unfold JSON.stringify, request_body.
    cbn [JSON.write JSON.write_list fst snd].
    unfold JSON.write_string. cbn [JSON.write_chars].
    rewrite !write_char_plain by reflexivity.
    rewrite !utf8_length_low by reflexivity. lia. }
  lia.
Qed.

(** The parser on a request of the client: refused when too long, read back
    as it was written otherwise. *)
Lemma body_parser_request (prompt : string) :
  Route.body_parser (JSON.stringify (request_body prompt))
  = if Route.utf8_length (JSON.stringify (request_body prompt)) <=? Route.JSON_LIMIT
    then Route.Body (request_body prompt)
    else Route.Refused 413.
Proof.
  unfold Route.body_parser.
  rewrite Z.ltb_antisym.
  destruct (_ <=? Route.JSON_LIMIT); [|done]. cbn [negb].
  rewrite (parse_stringify (request_body prompt)) by reflexivity.
  reflexivity.
Qed.

Lemma handled_request (n : nat) (prompt : string) :
  Route.handled error_page API_KEY (service n) (request_body prompt)
  = if Route.utf8_length (JSON.stringify (request_body prompt)) <=? Route.JSON_LIMIT
    then Proxy.handler API_KEY (service n) (Some (request_body prompt))
    else Route.refusal error_page 413.
Proof.
  unfold Route.handled. rewrite body_parser_request. by destruct (_ <=? _).
Qed.

(** Whatever the upstream call does, the client sees a success, a 500 of the
    route or a 413 of the parser. *)
Lemma through_status (n : nat) (prompt : string) :
  status_of (Route.through error_page API_KEY service n (request_body prompt)) = None
  ∨ status_of (Route.through error_page API_KEY service n (request_body prompt)) = Some 500
  ∨ status_of (Route.through error_page API_KEY service n (request_body prompt)) = Some 413.
Proof.
  unfold Route.through. rewrite handled_request.
  destruct (_ <=? _); [|by right; right].
  rewrite route_handles_client_body.
  destruct (service n _ _); [left|right; left|right; left]; reflexivity.
Qed.

(** One request through the server, whatever the service does. *)
Lemma fetchWithRetry_through (prompt : string) :
  fetchWithRetry (Route.through error_page API_KEY service) prompt 0
  = ([Posted endpoint (request_body prompt)],
     Some (settle (Route.through error_page API_KEY service 0%nat (request_body prompt)))).
Proof.
  apply (fetchWithRetry_schedule _ prompt 0).
  - unfold MAX_RETRIES. lia.
  - intros j Hj. lia.
  - intros _. destruct (through_status 0%nat prompt) as [H|[H|H]];
      rewrite H; discriminate.
Qed.

End RouteFacts.

(** X4.  Behind the server the retry of the client never runs: the body
    parser in front of the route refuses a request of more than 102400
    bytes with a 413, and the route turns every upstream failure, a 429
    included, into a 500, so one call of [fetchWithRetry] makes exactly one
    request and never sleeps.  For a request within the limit the route
    makes exactly one upstream call, to [API_URL] with the body that the
    client posted; the call of the client is fulfilled as the upstream body
    says when the upstream call succeeds, and rejected with status 500 and
    the [error] payload of the route when it fails.  For a request over the
    limit no upstream call is made and the call of the client is rejected
    with status 413.  The request is the prompt, escaped, and 38 bytes
    more: a prompt of 17060 code units or fewer is always within the
    limit, a prompt of more than 102362 never. *)
Theorem client_behind_route (error_page : Z → string) (API_KEY : option string)
    (service : nat → string → Json → Retry.Reply) (prompt : string) :
  let body := Retry.request_body prompt in
  let run := Retry.fetchWithRetry (Route.through error_page API_KEY service) prompt 0 in
  let bytes := Route.utf8_length (JSON.stringify body) in
  run.1 = [Retry.Posted Retry.endpoint body]
  ∧ Retry.waits run.1 = []
  ∧ (if bytes <=? 102400 then
       Route.upstream_calls error_page API_KEY service run.1
       = [(Proxy.API_URL API_KEY, body)]
       ∧ match service 0%nat (Proxy.API_URL API_KEY) body with
         | Retry.Resolves data => run.2 = Some (Retry.extract_text data)
         | Retry.HttpError _ data =>
             run.2 = Some (Retry.Rejected (Retry.AxiosError
                       (Some (500, JObj [("error", Value.or_else (Some data)
                                                      (JStr "Internal Server Error"))]))))
         | Retry.NoResponse =>
             run.2 = Some (Retry.Rejected (Retry.AxiosError
                       (Some (500, JObj [("error", JStr "Internal Server Error")]))))
         end
     else
       Route.upstream_calls error_page API_KEY service run.1 = []
       ∧ run.2 = Some (Retry.Rejected (Retry.AxiosError
                         (Some (413, JStr (error_page 413))))))
  ∧ Z.of_nat (String.length prompt) + 38 ≤ bytes ≤ 6 * Z.of_nat (String.length prompt) + 38
  ∧ (Z.of_nat (String.length prompt) ≤ 17060 → (bytes <=? 102400) = true)
  ∧ (102362 < Z.of_nat (String.length prompt) → (bytes <=? 102400) = false).
Proof.
  intros body run bytes.
  pose proof (utf8_length_request prompt) as Hbytes. fold body bytes in Hbytes.
  assert (run = ([Retry.Posted Retry.endpoint body],
                 Some (Retry.settle (Route.through error_page API_KEY service 0%nat body))))
    as Hrun by apply fetchWithRetry_through.
  rewrite Hrun. cbn [fst snd]. split; [done|]. split; [done|]. split.
  - unfold Route.upstream_calls, Route.through, Retry.posts.
    cbn [omap list_omap imap mjoin list_join].
    subst body. rewrite handled_request. fold bytes. unfold Route.JSON_LIMIT.
    destruct (bytes <=? 102400).
    + rewrite route_handles_client_body, app_nil_r.
      by destruct (service 0%nat _ _).
    + done.
  - split; [exact Hbytes|]. split.
    + intros Hshort. apply Z.leb_le. lia.
    + intros Hlong. apply Z.leb_gt. lia.
Qed.

(** An upstream service that is always rate limited, seen through the
    server: one request, no wait, a 500. *)
Example rate_limit_behind_route :
  Retry.fetchWithRetry
    (Route.through (λ _, "Payload Too Large") (Some "k")
       (λ _ _ _, Retry.HttpError 429 (JStr "slow down")))
    "jar" 0
  = ([Retry.Posted Retry.endpoint (Retry.request_body "jar")],
     Some (Retry.Rejected (Retry.AxiosError
             (Some (500, JObj [("error", JStr "slow down")]))))).
Proof. vm_compute. reflexivity. Qed.

(** ** More on the item list *)

Section ItemMore.

Import App Screen.

Implicit Types (its prefix : list RecyclingItem) (typed : list (string * string)).

Lemma rename_other id value its :
  id ∉ item_id <$> its → rename id value <$> its = its.
Proof.
  induction its as [|item its IH]; [done|].
  rewrite fmap_cons, not_elem_of_cons. intros [Hne Hnotin].
  rewrite !fmap_cons, IH by done. f_equal.
  unfold rename. destruct (String.eqb_spec (item_id item) id); [done|done].
Qed.

Lemma typing_builds prefix id typed :
  id ∉ item_id <$> prefix →
  Forall (λ vn, Js.nonblank vn.1 = true) typed →
  NoDup (id :: typed.*2) →
  Forall (λ vn, vn.2 ∉ item_id <$> prefix) typed →
  apply_ops (prefix ++ [blank_item id]) (typing id typed)
  = Some (prefix ++ typed_items id typed).
Proof.
  revert prefix id.
  induction typed as [|[value now] typed IH]; intros prefix id Hid Hvalues Hdup Hfresh.
  - reflexivity.
  - apply Forall_cons in Hvalues as [Hvalue Hvalues].
    apply Forall_cons in Hfresh as [Hnow Hfresh]. simpl in Hvalue, Hnow.
    apply NoDup_cons in Hdup as [Hid' Hdup]. rewrite fmap_cons in Hid'. simpl in Hid'.
    apply not_elem_of_cons in Hid' as [Hne Hid'].
    cbn [typing apply_ops apply_op]. unfold handleItemChange.
    rewrite last_snoc. cbn [mbind option_bind blank_item item_id].
    rewrite String.eqb_refl, Hvalue. cbn [andb].
    rewrite fmap_app, rename_other by done.
    cbn [fmap list_fmap]. unfold rename at 1. cbn [blank_item item_id].
    rewrite String.eqb_refl. cbn [mbind option_bind].
    rewrite <- app_assoc. cbn [app].
    change (prefix ++ {| item_id := id; item_name := value |} :: [blank_item now])
      with (prefix ++ [{| item_id := id; item_name := value |}] ++ [blank_item now]).
    rewrite app_assoc, IH.
    + by rewrite <- app_assoc.
    + rewrite fmap_app, not_elem_of_app. split; [done|].
      simpl. rewrite list_elem_of_singleton. congruence.
    + done.
    + done.
    + apply Forall_forall. intros [v n] Hin. simpl.
      rewrite fmap_app, not_elem_of_app. split.
      * rewrite Forall_forall in Hfresh. by apply (Hfresh (v, n)).
      * simpl. rewrite list_elem_of_singleton. intros ->.
        apply Hid'. apply list_elem_of_fmap. by exists (v, id).
Qed.

Lemma validItems_typed id typed :
  Forall (λ vn, Js.nonblank vn.1 = true) typed →
  item_name <$> validItems (typed_items id typed) = typed.*1.
Proof.
  revert id. induction typed as [|[value now] typed IH]; intros id Hvalues.
  - reflexivity.
  - apply Forall_cons in Hvalues as [Hvalue Hvalues]. simpl in Hvalue.
    cbn [typed_items]. unfold validItems in *.
    rewrite filter_cons_True by (simpl; by rewrite Hvalue).
    rewrite !fmap_cons, IH by done. reflexivity.
Qed.

Lemma length_typed_items id typed : length (typed_items id typed) = S (length typed).
Proof.
  revert id. induction typed as [|[value now] typed IH]; intros id; [done|].
  simpl. by rewrite IH.
Qed.

Lemma removeItem_length id its :
  NoDup (item_id <$> its) → id ∈ item_id <$> its →
  S (length (filter (λ item, item_id item ≠ id) its)) = length its.
Proof.
  induction its as [|item its IH]; intros Hdup Hin.
  - by apply elem_of_nil in Hin.
  - rewrite fmap_cons in Hdup, Hin. apply NoDup_cons in Hdup as [Hnotin Hdup].
    destruct (decide (item_id item = id)) as [Heq|Hne].
    + rewrite filter_cons_False by (intros ?; done). subst id.
      assert (filter (λ x, item_id x ≠ item_id item) its = its) as ->; [|done].
      clear IH Hin Hdup. induction its as [|x its IH]; [done|].
      rewrite fmap_cons, not_elem_of_cons in Hnotin. destruct Hnotin as [Hx Hnotin].
      rewrite filter_cons_True by done. by rewrite IH.
    + rewrite filter_cons_True by done. simpl. f_equal. apply IH; [done|].
      apply elem_of_cons in Hin as [Heq|Hin]; [congruence|done].
Qed.

End ItemMore.

(** X5.  Names typed one after the other, each into the slot that is last
    at that moment, with clock readings that are distinct and none the id
    of the first slot, build the list of these names in the order typed,
    followed by one blank slot; the items that a submission then sends are
    exactly these names, in that order.  Each name has a character that is
    not white space. *)
Theorem typed_names_are_the_items (typed : list (string * string)) :
  Forall (λ vn, Js.nonblank vn.1 = true) typed →
  NoDup ("1" :: typed.*2) →
  ∃ its,
    App.apply_ops (App.items App.initial) (Screen.typing "1" typed) = Some its
    ∧ length its = S (length typed)
    ∧ App.item_name <$> App.validItems its = typed.*1
    ∧ App.itemsList (App.validItems its) = Js.join ", " typed.*1
    ∧ App.trailing_empty its = true.
Proof.
  intros Hvalues Hdup.
  exists (Screen.typed_items "1" typed).
  split.
  - apply (typing_builds [] "1" typed); try done.
    + apply not_elem_of_nil.
    + apply Forall_forall. intros vn _. apply not_elem_of_nil.
  - split; [apply length_typed_items|].
    split; [by apply validItems_typed|].
    split; [unfold App.itemsList; by rewrite validItems_typed|].
    clear Hvalues Hdup. generalize "1" as id.
    induction typed as [|[value now] typed IH]; intros id; [done|].
    specialize (IH now). unfold App.trailing_empty in *. cbn [Screen.typed_items].
    rewrite last_cons. by destruct (last (Screen.typed_items now typed)).
Qed.

(** Two names typed. *)
Lemma typed_names_are_the_items_witness :
  ∃ its,
    App.apply_ops (App.items App.initial)
      (Screen.typing "1" [("bottle", "1700000000001"); ("can", "1700000000002")])
    = Some its
    ∧ length its = 3%nat
    ∧ App.item_name <$> App.validItems its = ["bottle"; "can"]
    ∧ App.itemsList (App.validItems its) = "bottle, can"
    ∧ App.trailing_empty its = true.
Proof.
  apply (typed_names_are_the_items
           [("bottle", "1700000000001"); ("can", "1700000000002")]).
  - repeat constructor.
  - by apply (bool_decide_unpack _).
Defined.

(** X6.  With distinct ids in a list of more than one slot, [removeItem]
    of an id that is in the list takes away exactly the slot of that id: the
    list is one shorter, the id is gone, and every other slot is still
    there, in the same order. *)
Theorem removeItem_takes_one (id : string) (its : list App.RecyclingItem) :
  NoDup (App.item_id <$> its) →
  (1 < length its)%nat →
  id ∈ App.item_id <$> its →
  S (length (App.removeItem id its)) = length its
  ∧ (id ∉ App.item_id <$> App.removeItem id its)
  ∧ (App.removeItem id its `sublist_of` its)
  ∧ (∀ item, item ∈ its → App.item_id item ≠ id → item ∈ App.removeItem id its).
Proof.
  intros Hdup Hlen Hin. unfold App.removeItem.
  assert ((1 <? length its)%nat = true) as -> by (by apply Nat.ltb_lt).
  split; [by apply removeItem_length|]. split; [|split].
  - rewrite list_elem_of_fmap. intros (item & Heq & Hitem).
    apply list_elem_of_filter in Hitem as [Hne _]. congruence.
  - apply sublist_filter.
  - intros item Hitem Hne. by apply list_elem_of_filter.
Qed.

(** The second of three slots deleted. *)
Lemma removeItem_takes_one_witness :
  let its := [ {| App.item_id := "1"; App.item_name := "bottle" |};
               {| App.item_id := "1700000000001"; App.item_name := "can" |};
               App.blank_item "1700000000002" ] in
  length (App.removeItem "1700000000001" its) = 2%nat.
Proof.
  intros its.
  destruct (removeItem_takes_one "1700000000001" its) as (Hlen & _).
  - by apply (bool_decide_unpack _).
  - simpl. lia.
  - by apply (bool_decide_unpack _).
  - exact (eq_add_S _ 2%nat Hlen).
Defined.

(** X7.  An id that no slot has changes nothing: [handleItemChange] with
    such an id returns the list as it is, whatever the value, and so does
    [removeItem]; [removeItem] also returns a list of one slot as it is,
    whatever the id. *)
Theorem unknown_id_changes_nothing (id value now : string)
    (its : list App.RecyclingItem) :
  its ≠ [] →
  id ∉ App.item_id <$> its →
  App.handleItemChange id value now its = Some its
  ∧ App.removeItem id its = its
  ∧ ∀ item id', App.removeItem id' [item] = [item].
Proof.
  intros Hne Hnotin. split; [|split].
  - unfold App.handleItemChange.
    destruct (last its) as [lastItem|] eqn:Hlast; [|by apply last_None in Hlast].
    cbn [mbind option_bind].
    assert (String.eqb id (App.item_id lastItem) = false) as ->.
    { apply String.eqb_neq. intros ->. apply Hnotin.
      apply list_elem_of_fmap. exists lastItem. split; [done|].
      apply last_Some in Hlast as [l' ->]. apply elem_of_app. right.
      apply list_elem_of_here. }
    cbn [andb]. by rewrite rename_other.
  - unfold App.removeItem. destruct (1 <? length its)%nat; [|done].
    clear Hne. induction its as [|x its IH]; [done|].
    rewrite fmap_cons, not_elem_of_cons in Hnotin. destruct Hnotin as [Hx Hnotin].
    rewrite filter_cons_True by (intros Heq; by apply Hx). by rewrite IH.
  - reflexivity.
Qed.

(** An id that is not on the page. *)
Lemma unknown_id_changes_nothing_witness :
  let its := [ {| App.item_id := "1"; App.item_name := "bottle" |};
               App.blank_item "1700000000001" ] in
  App.handleItemChange "7" "can" "1700000000002" its = Some its
  ∧ App.removeItem "7" its = its.
Proof.
  intros its.
  destruct (unknown_id_changes_nothing "7" "can" "1700000000002" its) as (H1 & H2 & _).
  - discriminate.
  - by apply (bool_decide_unpack _).
  - split; [exact H1|exact H2].
Defined.

(** ** What every run of the page keeps *)

Section PageMore.

Import Retry App Store Page.

Implicit Types (c : Config) (a : Action) (s : State) (acts : list Action).

Lemma submit_begin_keeps at_user s s1 p :
  submit_begin at_user s = Some (s1, p) →
  theme s1 = theme s ∧ items s1 = items s ∧ additionalNotes s1 = additionalNotes s
  ∧ history s1 = history s ∧ showItemsInput s1 = showItemsInput s
  ∧ hasInitialResponse s1 = hasInitialResponse s
  ∧ isLoading s1 = true ∧ error s1 = None ∧ currentInput s1 = "".
Proof.
  unfold submit_begin. intros Hbegin.
  destruct (showItemsInput s) eqn:Hmode; simpl in Hbegin.
  - destruct (length _ =? 0)%nat; [done|]. simpl in Hbegin.
    injection Hbegin as <- <-. simpl. by rewrite Hmode.
  - destruct (Js.nonblank (currentInput s)); [|done]. simpl in Hbegin.
    injection Hbegin as <- <-. simpl. by rewrite Hmode.
Qed.

Lemma submit_settle_keeps p r clk s :
  theme (submit_settle p r clk s) = theme s
  ∧ items (submit_settle p r clk s) = items s
  ∧ currentInput (submit_settle p r clk s) = currentInput s
  ∧ isLoading (submit_settle p r clk s) = false
  ∧ hasInitialResponse (submit_settle p r clk s)
    = match r with
      | Fulfilled _ => if sent_showItemsInput p then true else hasInitialResponse s
      | Rejected _ => hasInitialResponse s
      end
  ∧ messages (submit_settle p r clk s)
    = match r with
      | Fulfilled response =>
          messages s ++ [ {| msg_type := assistant; msg_content := response;
                             msg_timestamp := at_assistant clk |} ]
      | Rejected _ => messages s
      end.
Proof. unfold submit_settle. destruct r; [|done]. by destruct (sent_showItemsInput p). Qed.

(** [hasInitialResponse] and [showItemsInput] are set together. *)
Lemma step_keeps_flags c a c' :
  step c a = Some c' →
  hasInitialResponse (state c) = negb (showItemsInput (state c)) →
  hasInitialResponse (state c') = negb (showItemsInput (state c')).
Proof.
  intros Hstep Hinv.
  destruct a as [id value now|id|v|v| |n| |at_user|n r clk]; simpl in Hstep.
  - destruct (handleItemChange _ _ _ _); by simplify_eq/=.
  - by simplify_eq/=.
  - by simplify_eq/=.
  - by simplify_eq/=.
  - by simplify_eq/=.
  - destruct (history (state c) !! n); by simplify_eq/=.
  - by simplify_eq/=.
  - destruct (submit_begin at_user (state c)) as [[s1 p]|] eqn:Hbegin; [|by simplify_eq].
    injection Hstep as <-. cbn [state].
    apply submit_begin_keeps in Hbegin as (_ & _ & _ & _ & -> & -> & _). done.
  - destruct (waiting c !! n) as [p|]; [|by simplify_eq].
    injection Hstep as <-. cbn [state].
    destruct (submit_settle_keeps p r clk (state c)) as (_ & _ & _ & _ & -> & _).
    rewrite submit_settle_mode. destruct r; [|done]. by destruct (sent_showItemsInput p).
Qed.

(** An event leaves the history as it is or puts one entry in front. *)
Lemma step_history c a c' :
  step c a = Some c' →
  history (state c') = history (state c)
  ∨ ∃ e, history (state c') = e :: history (state c).
Proof.
  intros Hstep.
  destruct a as [id value now|id|v|v| |n| |at_user|n r clk]; simpl in Hstep.
  - destruct (handleItemChange _ _ _ _); simplify_eq/=. by left.
  - simplify_eq/=. by left.
  - simplify_eq/=. by left.
  - simplify_eq/=. by left.
  - simplify_eq/=. by left.
  - destruct (history (state c) !! n); simplify_eq/=; by left.
  - simplify_eq/=. by left.
  - destruct (submit_begin at_user (state c)) as [[s1 p]|] eqn:Hbegin;
      [|simplify_eq; by left].
    injection Hstep as <-. cbn [state].
    apply submit_begin_keeps in Hbegin as (_ & _ & _ & -> & _). by left.
  - destruct (waiting c !! n) as [p|]; [|simplify_eq; by left].
    injection Hstep as <-. cbn [state]. rewrite submit_settle_history.
    destruct r; [|by left]. destruct (sent_showItemsInput p); [right; eauto|by left].
Qed.

End PageMore.

(** X8.  [hasInitialResponse] is always the opposite of [showItemsInput]:
    every handler that sets one sets the other, so along every run of the
    page from its first render, pending requests included, the two never
    disagree. *)
Theorem hasInitialResponse_mirrors_mode (ls : gmap string string) (c c' : Page.Config)
    (acts : list Page.Action) :
  Page.mount ls = Some c →
  Page.run c acts = Some c' →
  App.hasInitialResponse (Page.state c') = negb (App.showItemsInput (Page.state c')).
Proof.
  intros Hmount Hrun.
  assert (App.hasInitialResponse (Page.state c)
          = negb (App.showItemsInput (Page.state c))) as Hinv.
  { unfold Page.mount in Hmount. destruct (Store.load_history ls); by simplify_eq/=. }
  clear Hmount. revert c Hrun Hinv.
  induction acts as [|a acts IH]; intros c Hrun Hinv; simpl in Hrun.
  - by simplify_eq.
  - destruct (Page.step c a) as [c1|] eqn:Hstep; [|done]. simpl in Hrun.
    apply (IH c1 Hrun). by apply (step_keeps_flags c a).
Qed.

(** A first exchange and a reset, from an empty store. *)
Lemma hasInitialResponse_mirrors_mode_witness :
  let clk := {| App.at_assistant := "t1"; App.now_id := "1700000000002";
                App.at_entry := "t2" |} in
  let acts := [ Page.ItemChange "1" "jar" "1700000000001"; Page.Submit "t0";
                Page.Settle 0 (Retry.Fulfilled "Rinse the jar.") clk; Page.NewChat ] in
  match Page.mount ∅ with
  | Some c =>
      match Page.run c acts with
      | Some c' =>
          App.hasInitialResponse (Page.state c') = negb (App.showItemsInput (Page.state c'))
      | None => False
      end
  | None => False
  end.
Proof.
  intros clk acts.
  destruct (Page.mount ∅) as [c|] eqn:Hmount; [|discriminate].
  destruct (Page.run c acts) as [c'|] eqn:Hrun.
  - exact (hasInitialResponse_mirrors_mode ∅ c c' acts Hmount Hrun).
  - injection Hmount as <-. vm_compute in Hrun. discriminate.
Defined.

(** X9.  The history only grows at its head: along every run of the page
    the history of the start is the tail of the history of the end, so no
    event removes, reorders or rewrites an entry. *)
Theorem history_only_prepended (c c' : Page.Config) (acts : list Page.Action) :
  Page.run c acts = Some c' →
  App.history (Page.state c) `suffix_of` App.history (Page.state c').
Proof.
  revert c. induction acts as [|a acts IH]; intros c Hrun; simpl in Hrun.
  - by simplify_eq.
  - destruct (Page.step c a) as [c1|] eqn:Hstep; [|done]. simpl in Hrun.
    etrans; [|by apply (IH c1)].
    destruct (step_history c a c1 Hstep) as [->|[e ->]]; [done|].
    by apply suffix_cons_r.
Qed.

(** Two first exchanges with a reset in between, on a page that starts
    with one entry. *)
Lemma history_only_prepended_witness :
  let clk1 := {| App.at_assistant := "t1"; App.now_id := "1700000000002";
                 App.at_entry := "t2" |} in
  let clk2 := {| App.at_assistant := "t4"; App.now_id := "1700000000005";
                 App.at_entry := "t5" |} in
  let old := {| App.entry_id := "1600000000000"; App.entry_items := [];
                App.entry_additionalNotes := ""; App.entry_instructions := "Compost it.";
                App.entry_timestamp := "t" |} in
  let c0 := {| Page.state := App.setHistory [old] App.initial; Page.store := ∅;
               Page.waiting := [] |} in
  match Page.run c0 [ Page.ItemChange "1" "jar" "1700000000001"; Page.Submit "t0";
                      Page.Settle 0 (Retry.Fulfilled "Rinse the jar.") clk1;
                      Page.NewChat; Page.ItemChange "1" "can" "1700000000004";
                      Page.Submit "t3";
                      Page.Settle 0 (Retry.Fulfilled "Crush it.") clk2 ] with
  | Some c' => [old] `suffix_of` App.history (Page.state c')
  | None => False
  end.
Proof.
  intros clk1 clk2 old c0.
  destruct (Page.run c0 _) as [c'|] eqn:Hrun.
  - exact (history_only_prepended c0 c' _ Hrun).
  - vm_compute in Hrun. discriminate.
Defined.

Section PageKeeps.

Import Retry App Store Page Screen.

Implicit Types (c : Config) (a : Action) (s : State) (acts : list Action).

Lemma step_settle c n r clk c' p :
  step c (Settle n r clk) = Some c' →
  waiting c !! n = Some p →
  state c' = submit_settle p r clk (state c)
  ∧ store c'
    = match r with
      | Fulfilled response =>
          if sent_showItemsInput p
          then save_history (entry_of p response clk :: history (state c)) (store c)
          else store c
      | Rejected _ => store c
      end
  ∧ waiting c' = delete n (waiting c).
Proof.
  intros Hstep Hp. simpl in Hstep. rewrite Hp in Hstep. injection Hstep as <-.
  split; [done|]. split; [|done].
  by destruct r; [destruct (sent_showItemsInput p)|].
Qed.

Lemma step_in_flight c a c' :
  step c a = Some c' → Screen.offered c a = true → in_flight c → in_flight c'.
Proof.
  intros Hstep Hoffered Hinv.
  destruct a as [id value now|id|v|v| |n| |at_user|n r clk]; simpl in Hstep, Hoffered.
  - destruct (handleItemChange _ _ _ _); by simplify_eq/=.
  - by simplify_eq/=.
  - by simplify_eq/=.
  - by simplify_eq/=.
  - by simplify_eq/=.
  - destruct (history (state c) !! n); by simplify_eq/=.
  - by simplify_eq/=.
  - apply negb_true_iff in Hoffered.
    destruct Hinv as [[_ Hwaiting]|[Hloading _]]; [|congruence].
    destruct (submit_begin at_user (state c)) as [[s1 p]|] eqn:Hbegin.
    + injection Hstep as <-. right. cbn [state waiting].
      apply submit_begin_keeps in Hbegin as (_ & _ & _ & _ & _ & _ & -> & _).
      split; [done|]. exists p. by rewrite Hwaiting.
    + simplify_eq. by left.
  - apply bool_decide_eq_true in Hoffered.
    destruct Hinv as [[_ Hwaiting]|[_ [p Hwaiting]]].
    + rewrite Hwaiting in Hoffered. simpl in Hoffered. lia.
    + rewrite Hwaiting in Hoffered, Hstep. simpl in Hoffered.
      assert (n = 0%nat) as -> by lia. simpl in Hstep. injection Hstep as <-.
      left. cbn [state waiting]. split; [|done].
      by destruct (submit_settle_keeps p r clk (state c)) as (_ & _ & _ & -> & _).
Qed.

Lemma load_history_lookup (ls ls' : gmap string string) :
  ls !! history_key = ls' !! history_key → load_history ls = load_history ls'.
Proof. unfold load_history. by intros ->. Qed.

Lemma load_history_text (ls : gmap string string) (h : list RecyclingInstruction) :
  h ≠ [] →
  ls !! history_key = Some (JSON.stringify (history_to_json h)) →
  load_history ls = Restored h.
Proof.
  intros Hne Hlookup.
  rewrite (load_history_lookup ls (save_history h ls)); [by apply load_saved_history|].
  destruct h as [|e h]; [done|].
  unfold save_history. cbn [length Nat.ltb Nat.leb]. by rewrite lookup_insert_eq.
Qed.

Lemma saved_theme_save_history (h : list RecyclingInstruction) (ls : gmap string string) :
  saved_theme (save_history h ls) = saved_theme ls.
Proof.
  unfold save_history, saved_theme. destruct (0 <? length h)%nat; [|done].
  by rewrite lookup_insert_ne.
Qed.

Lemma mount_stored (ls : gmap string string) c : mount ls = Some c → stored c.
Proof.
  unfold mount. destruct (load_history ls) as [|h| |] eqn:Hload; intros Hmount;
    simplify_eq/=.
  - split; [done|]. cbn. by left.
  - split; [cbn; by rewrite saved_theme_save_history|]. cbn.
    destruct h as [|e h]; [by right|].
    unfold save_history. cbn [length Nat.ltb Nat.leb]. by rewrite lookup_insert_eq.
Qed.

Lemma step_stored c a c' : step c a = Some c' → stored c → stored c'.
Proof.
  intros Hstep [Htheme Hhistory]. unfold stored.
  destruct a as [id value now|id|v|v| |n| |at_user|n r clk];
    [simpl in Hstep..|].
  - destruct (handleItemChange _ _ _ _); by simplify_eq/=.
  - by simplify_eq/=.
  - by simplify_eq/=.
  - by simplify_eq/=.
  - simplify_eq/=. split.
    + unfold saved_theme. rewrite lookup_insert_eq.
      by destruct (String.eqb (theme (state c)) "dark").
    + destruct (history (state c)).
      * by rewrite (load_history_lookup _ (store c)) by (by rewrite lookup_insert_ne).
      * by rewrite lookup_insert_ne.
  - destruct (history (state c) !! n); by simplify_eq/=.
  - by simplify_eq/=.
  - destruct (submit_begin at_user (state c)) as [[s1 p]|] eqn:Hbegin; [|by simplify_eq].
    injection Hstep as <-. cbn [state store].
    by apply submit_begin_keeps in Hbegin as (-> & _ & _ & -> & _).
  - destruct (waiting c !! n) as [p|] eqn:Hp;
      [|simpl in Hstep; rewrite Hp in Hstep; by simplify_eq].
    destruct (step_settle c n r clk c' p Hstep Hp) as (-> & -> & _).
    destruct (submit_settle_keeps p r clk (state c)) as (-> & _).
    rewrite submit_settle_history.
    destruct r as [response|e]; [|done].
    destruct (sent_showItemsInput p); [|done].
    split; [by rewrite saved_theme_save_history|].
    unfold save_history. cbn [length Nat.ltb Nat.leb]. by rewrite lookup_insert_eq.
Qed.

Lemma stored_restart c :
  stored c →
  ∃ c'', mount (store c) = Some c''
         ∧ history (state c'') = history (state c)
         ∧ theme (state c'') = theme (state c)
         ∧ store c'' = store c.
Proof.
  intros [Htheme Hhistory]. unfold mount.
  destruct (history (state c)) as [|e h] eqn:Hh.
  - destruct Hhistory as [->| ->]; eexists; (split; [reflexivity|]); by cbn.
  - rewrite (load_history_text (store c) (e :: h)) by done.
    eexists. split; [reflexivity|]. cbn. split; [done|]. split; [done|].
    unfold save_history. cbn [length Nat.ltb Nat.leb]. by apply insert_id.
Qed.

(** Only [toggleTheme] changes the theme. *)
Lemma step_theme c a c' :
  step c a = Some c' →
  theme (state c')
  = match a with
    | ToggleTheme => if String.eqb (theme (state c)) "dark" then "light" else "dark"
    | _ => theme (state c)
    end.
Proof.
  intros Hstep.
  destruct a as [id value now|id|v|v| |n| |at_user|n r clk]; simpl in Hstep.
  - destruct (handleItemChange _ _ _ _); by simplify_eq/=.
  - by simplify_eq/=.
  - by simplify_eq/=.
  - by simplify_eq/=.
  - by simplify_eq/=.
  - destruct (history (state c) !! n); by simplify_eq/=.
  - by simplify_eq/=.
  - destruct (submit_begin at_user (state c)) as [[s1 p]|] eqn:Hbegin; [|by simplify_eq].
    injection Hstep as <-. cbn [state].
    by apply submit_begin_keeps in Hbegin as (-> & _).
  - destruct (waiting c !! n) as [p|]; [|by simplify_eq].
    injection Hstep as <-. cbn [state].
    by destruct (submit_settle_keeps p r clk (state c)) as (-> & _).
Qed.

End PageKeeps.

Lemma run_in_flight c acts c' :
  Page.run c acts = Some c' →
  Screen.offered_all c acts = true →
  Screen.in_flight c → Screen.in_flight c'.
Proof.
  revert c. induction acts as [|a acts IH]; intros c Hrun Hoffered Hinv; simpl in *.
  - by simplify_eq.
  - destruct (Page.step c a) as [c1|] eqn:Hstep; [|done]. simpl in Hrun.
    apply andb_true_iff in Hoffered as [Ha Hacts].
    apply (IH c1); [done|done|]. by apply (step_in_flight c a).
Qed.

(** X10.  On the page as it is rendered at most one request is in flight:
    along every run of events that the markup offers, from the first
    render on, no more than one call of [handleSubmit] waits for its
    response, and [isLoading] is true exactly while one does; the reset and
    the reopening of an entry, which stay available while a request waits,
    leave the waiting request and the flag as they are. *)
Theorem one_request_in_flight (ls : gmap string string) (c c' : Page.Config)
    (acts : list Page.Action) :
  Page.mount ls = Some c →
  Screen.offered_all c acts = true →
  Page.run c acts = Some c' →
  (length (Page.waiting c') ≤ 1)%nat
  ∧ (App.isLoading (Page.state c') = true ↔ Page.waiting c' ≠ [])
  ∧ Screen.offered c' Page.NewChat = true
  ∧ (∃ c'', Page.step c' Page.NewChat = Some c''
            ∧ Page.waiting c'' = Page.waiting c'
            ∧ App.isLoading (Page.state c'') = App.isLoading (Page.state c'))
  ∧ (∀ n, ∃ c'', Page.step c' (Page.OpenHistory n) = Some c''
                 ∧ Page.waiting c'' = Page.waiting c'
                 ∧ App.isLoading (Page.state c'') = App.isLoading (Page.state c')
                 ∧ (Screen.offered c' (Page.OpenHistory n) = true
                    ↔ (n < length (App.history (Page.state c')))%nat)).
Proof.
  intros Hmount Hoffered Hrun.
  assert (Screen.in_flight c) as Hinv.
  { unfold Page.mount in Hmount. destruct (Store.load_history ls); simplify_eq/=;
      by left. }
  split; [|split; [|split; [done|split]]].
  - destruct (run_in_flight c acts c' Hrun Hoffered Hinv) as [[Hl Hw]|[Hl [p Hw]]];
      rewrite Hw; simpl; lia.
  - destruct (run_in_flight c acts c' Hrun Hoffered Hinv) as [[Hl Hw]|[Hl [p Hw]]];
      rewrite Hl, Hw; by split.
  - eexists. split; [reflexivity|]. by split.
  - intros n. cbn [Page.step Screen.offered].
    destruct (App.history (Page.state c') !! n) as [entry|] eqn:Hentry;
      (eexists; split; [reflexivity|]; split; [done|]; split; [done|]).
    + rewrite bool_decide_eq_true. split; [|done].
      intros _. by apply lookup_lt_Some in Hentry.
    + rewrite bool_decide_eq_true. split; [|done].
      intros Hlt. apply lookup_ge_None in Hentry. lia.
Qed.

(** A first submission, then the reset while it waits. *)
Lemma one_request_in_flight_witness :
  let acts := [ Page.ItemChange "1" "jar" "1700000000001"; Page.Submit "t0" ] in
  match Page.mount ∅ with
  | Some c =>
      match Page.run c acts with
      | Some c' =>
          ∃ c'', Page.step c' Page.NewChat = Some c''
                 ∧ length (Page.waiting c'') = 1%nat
                 ∧ App.isLoading (Page.state c'') = true
                 ∧ App.messages (Page.state c'') = []
      | None => False
      end
  | None => False
  end.
Proof.
  intros acts.
  destruct (Page.mount ∅) as [c|] eqn:Hmount; [|discriminate].
  destruct (Page.run c acts) as [c'|] eqn:Hrun.
  - destruct (one_request_in_flight ∅ c c' acts Hmount) as (_ & _ & _ & Hreset & _).
    + injection Hmount as <-. vm_compute. reflexivity.
    + exact Hrun.
    + destruct Hreset as (c'' & Hstep & Hwaiting & Hloading).
      exists c''. split; [exact Hstep|].
      injection Hmount as <-. vm_compute in Hrun. injection Hrun as <-.
      split; [by rewrite Hwaiting|]. split; [by rewrite Hloading|].
      vm_compute in Hstep. by injection Hstep as <-.
  - injection Hmount as <-. vm_compute in Hrun. discriminate.
Defined.

Lemma run_stored c acts c' : Page.run c acts = Some c' → Screen.stored c → Screen.stored c'.
Proof.
  revert c. induction acts as [|a acts IH]; intros c Hrun Hinv; simpl in *.
  - by simplify_eq.
  - destruct (Page.step c a) as [c1|] eqn:Hstep; [|done]. simpl in Hrun.
    apply (IH c1); [done|]. by apply (step_stored c a).
Qed.

(** X11.  The store follows the page: after every run of events from the
    first render, a new start on the store as it then is restores the
    history and the theme that the page had, and leaves the store as it
    was. *)
Theorem restart_restores (ls : gmap string string) (c c' : Page.Config)
    (acts : list Page.Action) :
  Page.mount ls = Some c →
  Page.run c acts = Some c' →
  ∃ c'', Page.mount (Page.store c') = Some c''
         ∧ App.history (Page.state c'') = App.history (Page.state c')
         ∧ App.theme (Page.state c'') = App.theme (Page.state c')
         ∧ Page.store c'' = Page.store c'.
Proof.
  intros Hmount Hrun. apply stored_restart.
  apply (run_stored c acts c' Hrun). by apply (mount_stored ls).
Qed.

(** A theme toggle and a first exchange, then a restart. *)
Lemma restart_restores_witness :
  let clk := {| App.at_assistant := "t1"; App.now_id := "1700000000002";
                App.at_entry := "t2" |} in
  let acts := [ Page.ToggleTheme; Page.ItemChange "1" "jar" "1700000000001";
                Page.Submit "t0";
                Page.Settle 0 (Retry.Fulfilled "Rinse the jar.") clk ] in
  match Page.mount ∅ with
  | Some c =>
      match Page.run c acts with
      | Some c' =>
          ∃ c'', Page.mount (Page.store c') = Some c''
                 ∧ App.history (Page.state c'') = App.history (Page.state c')
                 ∧ App.theme (Page.state c'') = App.theme (Page.state c')
                 ∧ Page.store c'' = Page.store c'
      | None => False
      end
  | None => False
  end.
Proof.
  intros clk acts.
  destruct (Page.mount ∅) as [c|] eqn:Hmount; [|discriminate].
  destruct (Page.run c acts) as [c'|] eqn:Hrun.
  - exact (restart_restores ∅ c c' acts Hmount Hrun).
  - injection Hmount as <-. vm_compute in Hrun. discriminate.
Defined.

(** X12.  The 'dark' class of the document follows the theme: after the
    first render and any run of events, the class is set exactly when the
    theme is "dark", also when the store held a theme that is neither
    "light" nor "dark". *)
Theorem dark_class_follows_theme (ls : gmap string string) (c c' : Page.Config)
    (acts : list Page.Action) :
  Page.mount ls = Some c →
  Page.run c acts = Some c' →
  Screen.run_dark (Screen.mount_dark ls) acts
  = String.eqb (App.theme (Page.state c')) "dark".
Proof.
  intros Hmount Hrun.
  assert (Screen.mount_dark ls = String.eqb (App.theme (Page.state c)) "dark") as Hinv.
  { unfold Page.mount in Hmount. destruct (Store.load_history ls); by simplify_eq/=. }
  clear Hmount. revert c Hrun Hinv. generalize (Screen.mount_dark ls) as dark.
  unfold Screen.run_dark.
  induction acts as [|a acts IH]; intros dark c Hrun Hinv; simpl in Hrun |- *.
  - by simplify_eq.
  - destruct (Page.step c a) as [c1|] eqn:Hstep; [|done]. simpl in Hrun.
    apply (IH _ c1 Hrun). rewrite (step_theme c a c1 Hstep), Hinv.
    destruct a; try done. simpl.
    by destruct (String.eqb (App.theme (Page.state c)) "dark").
Qed.

(** A store that holds the theme "blue": the class is off, and one toggle
    sets both the class and the theme "dark". *)
Lemma dark_class_follows_theme_witness :
  let ls : gmap string string := {[ Store.theme_key := "blue" ]} in
  match Page.mount ls with
  | Some c =>
      match Page.run c [Page.ToggleTheme] with
      | Some c' =>
          Screen.mount_dark ls = false
          ∧ Screen.run_dark (Screen.mount_dark ls) [Page.ToggleTheme] = true
          ∧ App.theme (Page.state c') = "dark"
      | None => False
      end
  | None => False
  end.
Proof.
  intros ls.
  destruct (Page.mount ls) as [c|] eqn:Hmount; [|vm_compute in Hmount; discriminate].
  destruct (Page.run c [Page.ToggleTheme]) as [c'|] eqn:Hrun.
  - pose proof (dark_class_follows_theme ls c c' _ Hmount Hrun) as Hdark.
    split; [reflexivity|]. split; [reflexivity|].
    change (Screen.run_dark (Screen.mount_dark ls) [Page.ToggleTheme]) with true in Hdark.
    symmetry in Hdark. by apply String.eqb_eq in Hdark.
  - vm_compute in Hmount. injection Hmount as <-. vm_compute in Hrun. discriminate.
Defined.

Lemma step_NewChat c c1 :
  Page.step c Page.NewChat = Some c1 →
  App.messages (Page.state c1) = []
  ∧ App.showItemsInput (Page.state c1) = true
  ∧ App.history (Page.state c1) = App.history (Page.state c)
  ∧ Page.waiting c1 = Page.waiting c.
Proof. intros Hstep. simpl in Hstep. by injection Hstep as <-. Qed.

(** X13.  The reset does not cancel a request that waits: when the response
    comes after it, the assistant message becomes the only message of the
    new conversation and the loading flag goes off; the response of a first
    submission also puts its entry in the history and switches the fresh
    page to chat mode, the response of a follow-up leaves it collecting
    items. *)
Theorem reset_does_not_cancel (c : Page.Config) (n : nat) (p : App.Pending)
    (response : string) (clk : App.Clock) :
  Page.waiting c !! n = Some p →
  ∃ c',
    Page.run c [Page.NewChat; Page.Settle n (Retry.Fulfilled response) clk] = Some c'
    ∧ App.messages (Page.state c')
      = [ {| App.msg_type := App.assistant; App.msg_content := response;
             App.msg_timestamp := App.at_assistant clk |} ]
    ∧ App.isLoading (Page.state c') = false
    ∧ App.showItemsInput (Page.state c') = negb (App.sent_showItemsInput p)
    ∧ App.history (Page.state c')
      = (if App.sent_showItemsInput p
         then App.entry_of p response clk :: App.history (Page.state c)
         else App.history (Page.state c))
    ∧ Page.waiting c' = delete n (Page.waiting c).
Proof.
  intros Hp.
  destruct (Page.step c Page.NewChat) as [c1|] eqn:Hreset; [|discriminate].
  destruct (step_NewChat c c1 Hreset) as (Hmsgs & Hmode & Hhist & Hwaiting).
  assert (Page.waiting c1 !! n = Some p) as Hp1 by (by rewrite Hwaiting).
  destruct (Page.step c1 (Page.Settle n (Retry.Fulfilled response) clk)) as [c'|] eqn:Hstep.
  - exists c'. split.
    + cbn [Page.run]. rewrite Hreset. cbn [mbind option_bind]. by rewrite Hstep.
    + destruct (step_settle c1 n _ clk c' p Hstep Hp1) as (-> & _ & ->).
      rewrite submit_settle_mode, submit_settle_history.
      destruct (submit_settle_keeps p (Retry.Fulfilled response) clk (Page.state c1))
        as (_ & _ & _ & -> & _ & ->).
      rewrite Hmsgs, Hmode, Hhist, Hwaiting.
      by destruct (App.sent_showItemsInput p).
  - exfalso. cbn [Page.step] in Hstep. rewrite Hp1 in Hstep. discriminate.
Qed.

(** A follow-up that waits while the page is reset. *)
Lemma reset_does_not_cancel_witness :
  let p := {| App.sent_showItemsInput := false; App.sent_items := [];
              App.sent_additionalNotes := ""; App.sent_prompt := "Human: And the lid?" |} in
  let clk := {| App.at_assistant := "t3"; App.now_id := "2"; App.at_entry := "t4" |} in
  let c := {| Page.state := App.setIsLoading true (App.setShowItemsInput false App.initial);
              Page.store := ∅; Page.waiting := [p] |} in
  ∃ c',
    Page.run c [Page.NewChat; Page.Settle 0 (Retry.Fulfilled "Recycle it.") clk] = Some c'
    ∧ App.messages (Page.state c')
      = [ {| App.msg_type := App.assistant; App.msg_content := "Recycle it.";
             App.msg_timestamp := "t3" |} ]
    ∧ App.showItemsInput (Page.state c') = true.
Proof.
  intros p clk c.
  destruct (reset_does_not_cancel c 0 p "Recycle it." clk eq_refl)
    as (c' & Hrun & Hmsgs & _ & Hmode & _).
  exists c'. split; [exact Hrun|]. split; [exact Hmsgs|exact Hmode].
Defined.

Lemma step_messages c a c' :
  Page.step c a = Some c' →
  Screen.replaces_transcript a = false →
  App.messages (Page.state c) `prefix_of` App.messages (Page.state c').
Proof.
  intros Hstep Hkeeps.
  destruct a as [id value now|id|v|v| |n| |at_user|n r clk]; try discriminate;
    [simpl in Hstep..|].
  - destruct (App.handleItemChange _ _ _ _); by simplify_eq/=.
  - by simplify_eq/=.
  - by simplify_eq/=.
  - by simplify_eq/=.
  - by simplify_eq/=.
  - destruct (App.submit_begin at_user (Page.state c)) as [[s1 p]|] eqn:Hbegin;
      [|by simplify_eq].
    injection Hstep as <-. cbn [Page.state].
    apply submit_begin_mode in Hbegin as (_ & _ & _ & _ & _ & ->).
    by apply prefix_app_r.
  - destruct (Page.waiting c !! n) as [p|] eqn:Hp;
      [|simpl in Hstep; rewrite Hp in Hstep; by simplify_eq].
    destruct (step_settle c n r clk c' p Hstep Hp) as (-> & _).
    destruct (submit_settle_keeps p r clk (Page.state c)) as (_ & _ & _ & _ & _ & ->).
    destruct r; [by apply prefix_app_r|done].
Qed.

(** X14.  Between resets and reopenings the transcript only grows at its
    end: along every run without those two events the messages of the start
    are the first messages of the end, unchanged and in the same order. *)
Theorem transcript_only_appended (c c' : Page.Config) (acts : list Page.Action) :
  Page.run c acts = Some c' →
  forallb (λ a, negb (Screen.replaces_transcript a)) acts = true →
  App.messages (Page.state c) `prefix_of` App.messages (Page.state c').
Proof.
  revert c. induction acts as [|a acts IH]; intros c Hrun Hacts; simpl in *.
  - by simplify_eq.
  - destruct (Page.step c a) as [c1|] eqn:Hstep; [|done]. simpl in Hrun.
    apply andb_true_iff in Hacts as [Ha Hacts]. apply negb_true_iff in Ha.
    etrans; [by apply (step_messages c a c1)|by apply (IH c1)].
Qed.

(** A failed first submission followed by one that is answered. *)
Lemma transcript_only_appended_witness :
  let clk := {| App.at_assistant := "t2"; App.now_id := "1700000000003";
                App.at_entry := "t3" |} in
  let c0 := {| Page.state := App.initial; Page.store := ∅; Page.waiting := [] |} in
  match Page.run c0 [ Page.ItemChange "1" "jar" "1700000000001"; Page.Submit "t0";
                      Page.Settle 0 (Retry.Rejected (Retry.AxiosError None)) clk;
                      Page.Submit "t1";
                      Page.Settle 0 (Retry.Fulfilled "Rinse the jar.") clk ] with
  | Some c' => [] `prefix_of` App.messages (Page.state c')
               ∧ length (App.messages (Page.state c')) = 3%nat
  | None => False
  end.
Proof.
  intros clk c0.
  destruct (Page.run c0 _) as [c'|] eqn:Hrun.
  - split; [by apply (transcript_only_appended c0 c' _ Hrun)|].
    vm_compute in Hrun. by injection Hrun as <-.
  - vm_compute in Hrun. discriminate.
Defined.

(** ** Submissions one after the other *)

Section SubmitMore.

Import Retry App.

Implicit Types (s : State) (up : Upstream) (clk : Clock).

Lemma submit_begin_items at_user s :
  showItemsInput s = true →
  validItems (items s) ≠ [] →
  submit_begin at_user s
  = Some (setCurrentInput ""
            (setMessages
               (messages s
                ++ [ {| msg_type := user;
                        msg_content := "Items: " +:+ itemsList (validItems (items s));
                        msg_timestamp := at_user |} ])
               (setError None (setIsLoading true s))),
          {| sent_showItemsInput := true; sent_items := items s;
             sent_additionalNotes := additionalNotes s;
             sent_prompt := initialPrompt (validItems (items s)) (additionalNotes s) |}).
Proof.
  intros Hmode Hvalid. unfold submit_begin. rewrite Hmode.
  destruct (validItems (items s)) as [|item valid] eqn:Hv; [done|]. reflexivity.
Qed.

Lemma submit_begin_chat at_user s :
  showItemsInput s = false →
  Js.nonblank (currentInput s) = true →
  submit_begin at_user s
  = Some (setCurrentInput ""
            (setMessages
               (messages s
                ++ [ {| msg_type := user; msg_content := currentInput s;
                        msg_timestamp := at_user |} ])
               (setError None (setIsLoading true s))),
          {| sent_showItemsInput := false; sent_items := items s;
             sent_additionalNotes := additionalNotes s;
             sent_prompt := buildPromptWithContext (messages s) (currentInput s) |}).
Proof. intros Hmode Hinput. unfold submit_begin. by rewrite Hmode, Hinput. Qed.

Lemma append_assoc (a b c : string) : (a +:+ b) +:+ c = a +:+ b +:+ c.
Proof.
  induction a as [|ch a IH]; [done|].
  change (String ch ((a +:+ b) +:+ c) = String ch (a +:+ b +:+ c)).
  by rewrite IH.
Qed.

Lemma join_snoc (sep : string) (l : list string) (x : string) :
  l ≠ [] → Js.join sep (l ++ [x]) = Js.join sep l +:+ sep +:+ x.
Proof.
  induction l as [|y l IH]; [done|]. intros _.
  destruct l as [|z l]; [reflexivity|].
  change (Js.join sep ((y :: z :: l) ++ [x]))
    with (y +:+ sep +:+ Js.join sep ((z :: l) ++ [x])).
  rewrite IH by done.
  change (Js.join sep (y :: z :: l)) with (y +:+ sep +:+ Js.join sep (z :: l)).
  by rewrite !append_assoc.
Qed.

End SubmitMore.

Section SubmitSequences.

Import Retry App.

Implicit Types (s : State) (clk : Clock) (e : Thrown).

Lemma label_user (content timestamp : string) :
  label {| msg_type := user; msg_content := content; msg_timestamp := timestamp |}
  = "Human: " +:+ content.
Proof. reflexivity. Qed.

(** The prompt of a follow-up on a page that shows one exchange. *)
Lemma buildPromptWithContext_exchange (asked answered t at1 at2 : string) :
  buildPromptWithContext
    [ {| msg_type := user; msg_content := asked; msg_timestamp := at1 |};
      {| msg_type := assistant; msg_content := answered; msg_timestamp := at2 |} ] t
  = "Human: " +:+ asked +:+ newline +:+ "Assistant: " +:+ answered
    +:+ newline +:+ newline +:+ "Human: " +:+ t.
Proof.
  unfold buildPromptWithContext.
  change (Js.join newline (label <$> _))
    with (("Human: " +:+ asked) +:+ newline +:+ "Assistant: " +:+ answered).
  by rewrite !append_assoc.
Qed.

End SubmitSequences.

(** X15.  A first submission that failed can be sent again as it is: the
    failure leaves the item slots, the notes and the mode alone, so the
    second call builds the same prompt.  The user message of the failed call
    stays on the page, so that after the answer the transcript shows the
    item line twice, and one entry is added to the history. *)
Theorem resubmit_after_failure (s : App.State) (at1 at2 response : string)
    (e : Retry.Thrown) (clk1 clk2 : App.Clock) :
  App.showItemsInput s = true →
  App.validItems (App.items s) ≠ [] →
  ∃ s1 p1 s3 p2,
    App.submit_begin at1 s = Some (s1, p1)
    ∧ App.submit_begin at2 (App.submit_settle p1 (Retry.Rejected e) clk1 s1) = Some (s3, p2)
    ∧ App.sent_prompt p2 = App.sent_prompt p1
    ∧ App.error s3 = None
    ∧ let s4 := App.submit_settle p2 (Retry.Fulfilled response) clk2 s3 in
      let line := "Items: " +:+ App.itemsList (App.validItems (App.items s)) in
      App.messages s4
      = App.messages s
        ++ [ {| App.msg_type := App.user; App.msg_content := line;
                App.msg_timestamp := at1 |};
             {| App.msg_type := App.user; App.msg_content := line;
                App.msg_timestamp := at2 |};
             {| App.msg_type := App.assistant; App.msg_content := response;
                App.msg_timestamp := App.at_assistant clk2 |} ]
      ∧ App.history s4 = App.entry_of p2 response clk2 :: App.history s
      ∧ App.showItemsInput s4 = false.
Proof.
  intros Hmode Hvalid.
  eexists _, _, _, _. split; [by apply submit_begin_items|].
  split.
  { rewrite submit_begin_items; [reflexivity|exact Hmode|exact Hvalid]. }
  split; [reflexivity|]. split; [reflexivity|].
  cbv zeta. split; [|split; reflexivity].
  cbn. by rewrite <- !app_assoc.
Qed.

(** A jar sent twice. *)
Lemma resubmit_after_failure_witness :
  let s := App.setItems [ {| App.item_id := "1"; App.item_name := "glass jar" |};
                          App.blank_item "1700000000001" ] App.initial in
  let clk := {| App.at_assistant := "t3"; App.now_id := "2"; App.at_entry := "t4" |} in
  ∃ s1 p1 s3 p2,
    App.submit_begin "t1" s = Some (s1, p1)
    ∧ App.submit_begin "t2" (App.submit_settle p1 (Retry.Rejected Retry.TypeError) clk s1)
      = Some (s3, p2)
    ∧ App.sent_prompt p2 = App.sent_prompt p1
    ∧ length (App.messages (App.submit_settle p2 (Retry.Fulfilled "Rinse it.") clk s3)) = 3%nat.
Proof.
  intros s clk.
  destruct (resubmit_after_failure s "t1" "t2" "Rinse it." Retry.TypeError clk clk)
    as (s1 & p1 & s3 & p2 & H1 & H2 & H3 & _ & H4 & _).
  - reflexivity.
  - discriminate.
  - exists s1, p1, s3, p2. split; [exact H1|]. split; [exact H2|]. split; [exact H3|].
    cbv zeta in H4. by rewrite H4.
Defined.

(** X16.  A follow-up that failed stays in the transcript, and the next
    follow-up carries it as context: the prompt of the next call ends with
    the failed question and the new one, two "Human: " turns in a row with
    no answer between them. *)
Theorem failed_followup_is_context (s : App.State) (at1 at2 t2 : string)
    (e : Retry.Thrown) (clk1 : App.Clock) :
  App.showItemsInput s = false →
  App.messages s ≠ [] →
  Js.nonblank (App.currentInput s) = true →
  Js.nonblank t2 = true →
  ∃ s1 p1 s3 p2,
    App.submit_begin at1 s = Some (s1, p1)
    ∧ App.submit_begin at2
        (App.setCurrentInput t2 (App.submit_settle p1 (Retry.Rejected e) clk1 s1))
      = Some (s3, p2)
    ∧ App.sent_prompt p2
      = Js.join App.newline (App.label <$> App.messages s)
        +:+ App.newline +:+ "Human: " +:+ App.currentInput s
        +:+ App.newline +:+ App.newline +:+ "Human: " +:+ t2.
Proof.
  intros Hmode Hmsgs Ht1 Ht2.
  eexists _, _, _, _. split; [by apply submit_begin_chat|].
  split.
  { rewrite submit_begin_chat; [reflexivity|exact Hmode|exact Ht2]. }
  cbn [App.sent_prompt]. unfold App.buildPromptWithContext.
  change (App.messages (App.setCurrentInput t2 _))
    with (App.messages s
          ++ [ {| App.msg_type := App.user; App.msg_content := App.currentInput s;
                  App.msg_timestamp := at1 |} ]).
  rewrite fmap_app. cbn [fmap list_fmap].
  rewrite join_snoc by (by destruct (App.messages s)).
  rewrite label_user. by rewrite !append_assoc.
Qed.

(** Two questions about the lid. *)
Lemma failed_followup_is_context_witness :
  let s := App.setCurrentInput "And the lid?"
             (App.loadHistoryChat
                {| App.entry_id := "1";
                   App.entry_items := [ {| App.item_id := "1"; App.item_name := "jar" |} ];
                   App.entry_additionalNotes := ""; App.entry_instructions := "Rinse it.";
                   App.entry_timestamp := "t0" |} App.initial) in
  let clk := {| App.at_assistant := "t3"; App.now_id := "2"; App.at_entry := "t4" |} in
  ∃ s1 p1 s3 p2,
    App.submit_begin "t1" s = Some (s1, p1)
    ∧ App.submit_begin "t2"
        (App.setCurrentInput "The metal lid?"
           (App.submit_settle p1 (Retry.Rejected Retry.TypeError) clk s1))
      = Some (s3, p2)
    ∧ App.sent_prompt p2
      = "Human: Items: jar" +:+ App.newline +:+ "Assistant: Rinse it."
        +:+ App.newline +:+ "Human: And the lid?"
        +:+ App.newline +:+ App.newline +:+ "Human: The metal lid?".
Proof.
  intros s clk.
  destruct (failed_followup_is_context s "t1" "t2" "The metal lid?" Retry.TypeError clk)
    as (s1 & p1 & s3 & p2 & H1 & H2 & H3).
  - reflexivity.
  - discriminate.
  - reflexivity.
  - reflexivity.
  - exists s1, p1, s3, p2. split; [exact H1|]. split; [exact H2|].
    rewrite H3. reflexivity.
Defined.

(** X17.  A follow-up on a conversation opened from the history sends the
    item line of the entry and its instructions as context, and nothing of
    the notes of the entry; its answer is added to the transcript and the
    history is left as it is. *)
Theorem followup_on_history_chat (s : App.State) (entry : App.RecyclingInstruction)
    (t at_user response : string) (clk : App.Clock) :
  Js.nonblank t = true →
  ∃ s1 p,
    App.submit_begin at_user (App.setCurrentInput t (App.loadHistoryChat entry s))
    = Some (s1, p)
    ∧ App.sent_prompt p
      = "Human: Items: " +:+ App.itemsList (App.entry_items entry)
        +:+ App.newline +:+ "Assistant: " +:+ App.entry_instructions entry
        +:+ App.newline +:+ App.newline +:+ "Human: " +:+ t
    ∧ let s2 := App.submit_settle p (Retry.Fulfilled response) clk s1 in
      App.history s2 = App.history s
      ∧ length (App.messages s2) = 4%nat
      ∧ last (App.messages s2)
        = Some {| App.msg_type := App.assistant; App.msg_content := response;
                  App.msg_timestamp := App.at_assistant clk |}.
Proof.
  intros Ht.
  eexists _, _. split.
  { rewrite submit_begin_chat; [reflexivity|reflexivity|exact Ht]. }
  split; [|by cbv zeta].
  cbn [App.sent_prompt].
  change (App.messages (App.setCurrentInput t (App.loadHistoryChat entry s)))
    with [ {| App.msg_type := App.user;
              App.msg_content := "Items: " +:+ App.itemsList (App.entry_items entry);
              App.msg_timestamp := App.entry_timestamp entry |};
           {| App.msg_type := App.assistant;
              App.msg_content := App.entry_instructions entry;
              App.msg_timestamp := App.entry_timestamp entry |} ].
  change (App.currentInput (App.setCurrentInput t (App.loadHistoryChat entry s))) with t.
  rewrite buildPromptWithContext_exchange. by rewrite !append_assoc.
Qed.

(** A question on a stored conversation. *)
Lemma followup_on_history_chat_witness :
  let entry := {| App.entry_id := "1";
                  App.entry_items := [ {| App.item_id := "1"; App.item_name := "jar" |} ];
                  App.entry_additionalNotes := "no kerbside collection";
                  App.entry_instructions := "Rinse it."; App.entry_timestamp := "t0" |} in
  ∃ s1 p,
    App.submit_begin "t1" (App.setCurrentInput "And the lid?" (App.loadHistoryChat entry App.initial))
    = Some (s1, p)
    ∧ App.sent_prompt p
      = "Human: Items: jar" +:+ App.newline +:+ "Assistant: Rinse it."
        +:+ App.newline +:+ App.newline +:+ "Human: And the lid?".
Proof.
  intros entry.
  destruct (followup_on_history_chat App.initial entry "And the lid?" "t1" "Metal bin."
              {| App.at_assistant := "t3"; App.now_id := "2"; App.at_entry := "t4" |})
    as (s1 & p & H1 & H2 & _).
  - reflexivity.
  - exists s1, p. split; [exact H1|]. rewrite H2. reflexivity.
Defined.

(** X18.  The entry that a first exchange stores stands for the exchange:
    on a page that showed no message before, the follow-up after the first
    answer sends the prompt that the same follow-up sends after the entry
    is opened from the history, on whatever page.  The notes of the first
    request are in neither. *)
Theorem stored_entry_replays_exchange (s s' : App.State)
    (at1 at2 at3 response t : string) (clk : App.Clock) :
  App.showItemsInput s = true →
  App.messages s = [] →
  App.validItems (App.items s) ≠ [] →
  Js.nonblank t = true →
  ∃ s1 p1 s3 p2 s5 p3,
    App.submit_begin at1 s = Some (s1, p1)
    ∧ App.submit_begin at2
        (App.setCurrentInput t (App.submit_settle p1 (Retry.Fulfilled response) clk s1))
      = Some (s3, p2)
    ∧ App.submit_begin at3
        (App.setCurrentInput t (App.loadHistoryChat (App.entry_of p1 response clk) s'))
      = Some (s5, p3)
    ∧ App.sent_prompt p2 = App.sent_prompt p3
    ∧ App.sent_prompt p2
      = "Human: Items: " +:+ App.itemsList (App.validItems (App.items s))
        +:+ App.newline +:+ "Assistant: " +:+ response
        +:+ App.newline +:+ App.newline +:+ "Human: " +:+ t.
Proof.
  intros Hmode Hmsgs Hvalid Ht.
  eexists _, _, _, _, _, _. split; [by apply submit_begin_items|].
  split.
  { rewrite submit_begin_chat; [reflexivity|reflexivity|exact Ht]. }
  split.
  { rewrite submit_begin_chat; [reflexivity|reflexivity|exact Ht]. }
  cbn [App.sent_prompt].
  change (App.messages (App.setCurrentInput t (App.loadHistoryChat _ s')))
    with [ {| App.msg_type := App.user;
              App.msg_content := "Items: " +:+ App.itemsList (App.validItems (App.items s));
              App.msg_timestamp := App.at_entry clk |};
           {| App.msg_type := App.assistant; App.msg_content := response;
              App.msg_timestamp := App.at_entry clk |} ].
  change (App.messages (App.setCurrentInput t (App.submit_settle _ _ clk _)))
    with ((App.messages s
           ++ [ {| App.msg_type := App.user;
                   App.msg_content := "Items: " +:+ App.itemsList (App.validItems (App.items s));
                   App.msg_timestamp := at1 |} ])
          ++ [ {| App.msg_type := App.assistant; App.msg_content := response;
                  App.msg_timestamp := App.at_assistant clk |} ]).
  rewrite Hmsgs. cbn [app].
  change (App.currentInput (App.setCurrentInput t _)) with t.
  rewrite !buildPromptWithContext_exchange. split; [done|].
  by rewrite !append_assoc.
Qed.

(** A jar, asked about and reopened. *)
Lemma stored_entry_replays_exchange_witness :
  let s := App.setAdditionalNotes "no kerbside collection"
             (App.setItems [ {| App.item_id := "1"; App.item_name := "jar" |};
                             App.blank_item "1700000000001" ] App.initial) in
  let clk := {| App.at_assistant := "t3"; App.now_id := "2"; App.at_entry := "t4" |} in
  ∃ s1 p1 s3 p2,
    App.submit_begin "t1" s = Some (s1, p1)
    ∧ App.submit_begin "t5"
        (App.setCurrentInput "And the lid?"
           (App.submit_settle p1 (Retry.Fulfilled "Rinse it.") clk s1))
      = Some (s3, p2)
    ∧ App.sent_prompt p2
      = "Human: Items: jar" +:+ App.newline +:+ "Assistant: Rinse it."
        +:+ App.newline +:+ App.newline +:+ "Human: And the lid?".
Proof.
  intros s clk.
  destruct (stored_entry_replays_exchange s App.initial "t1" "t5" "t6" "Rinse it."
              "And the lid?" clk)
    as (s1 & p1 & s3 & p2 & _ & _ & H1 & H2 & _ & _ & H3).
  - reflexivity.
  - reflexivity.
  - discriminate.
  - reflexivity.
  - exists s1, p1, s3, p2. split; [exact H1|]. split; [exact H2|].
    rewrite H3. reflexivity.
Defined.

(** ** The earlier chat component *)

Section Chat0Facts.

Import Retry App.

Implicit Types (s : State) (clk : Clock).

Lemma chat0_submit_begin_items at_user s :
  showItemsInput s = true →
  validItems (items s) ≠ [] →
  Chat0.submit_begin at_user s
  = Some (setCurrentInput ""
            (setMessages
               (messages s
                ++ [ {| msg_type := user;
                        msg_content :=
                          Chat0.initialPrompt (validItems (items s)) (additionalNotes s);
                        msg_timestamp := at_user |} ])
               (setError None (setIsLoading true s))),
          {| sent_showItemsInput := true; sent_items := items s;
             sent_additionalNotes := additionalNotes s;
             sent_prompt := Chat0.initialPrompt (validItems (items s)) (additionalNotes s) |}).
Proof.
  intros Hmode Hvalid. unfold Chat0.submit_begin. rewrite Hmode.
  destruct (validItems (items s)) as [|item valid] eqn:Hv; [done|]. reflexivity.
Qed.

Lemma chat0_submit_begin_chat at_user s :
  showItemsInput s = false →
  Chat0.submit_begin at_user s = submit_begin at_user s.
Proof.
  intros Hmode. unfold Chat0.submit_begin, submit_begin. rewrite Hmode.
  by destruct (Js.nonblank (currentInput s)).
Qed.

Lemma chat0_submit_begin_mode at_user s s1 p :
  Chat0.submit_begin at_user s = Some (s1, p) →
  showItemsInput s1 = showItemsInput s ∧ history s1 = history s.
Proof.
  unfold Chat0.submit_begin. intros Hbegin.
  destruct (showItemsInput s) eqn:Hmode; simpl in Hbegin.
  - destruct (length _ =? 0)%nat; [done|]. simpl in Hbegin.
    injection Hbegin as <- <-. simpl. by rewrite Hmode.
  - destruct (Js.nonblank (currentInput s)); [|done]. simpl in Hbegin.
    injection Hbegin as <- <-. simpl. by rewrite Hmode.
Qed.

End Chat0Facts.

(** X19.  In the earlier component the first request is itself the user
    message, so that the follow-up after the first answer sends the whole
    first prompt again, the notes with it, before the answer and the new
    question. *)
Theorem chat0_followup_repeats_first_prompt (s : App.State)
    (at1 at2 response t : string) (clk : App.Clock) :
  App.showItemsInput s = true →
  App.messages s = [] →
  App.validItems (App.items s) ≠ [] →
  Js.nonblank t = true →
  ∃ s1 p1 s3 p2,
    Chat0.submit_begin at1 s = Some (s1, p1)
    ∧ Chat0.submit_begin at2
        (App.setCurrentInput t (App.submit_settle p1 (Retry.Fulfilled response) clk s1))
      = Some (s3, p2)
    ∧ App.sent_prompt p1
      = "I need recycling instructions for the following items: "
        +:+ App.itemsList (App.validItems (App.items s))
        +:+ ". Additional considerations: " +:+ App.additionalNotes s
    ∧ App.sent_prompt p2
      = "Human: " +:+ App.sent_prompt p1
        +:+ App.newline +:+ "Assistant: " +:+ response
        +:+ App.newline +:+ App.newline +:+ "Human: " +:+ t.
Proof.
  intros Hmode Hmsgs Hvalid Ht.
  eexists _, _, _, _. split; [by apply chat0_submit_begin_items|].
  split.
  { rewrite chat0_submit_begin_chat by reflexivity.
    rewrite submit_begin_chat; [reflexivity|reflexivity|exact Ht]. }
  split; [reflexivity|].
  cbn [App.sent_prompt].
  change (App.messages (App.setCurrentInput t (App.submit_settle _ _ clk _)))
    with ((App.messages s
           ++ [ {| App.msg_type := App.user;
                   App.msg_content :=
                     Chat0.initialPrompt (App.validItems (App.items s)) (App.additionalNotes s);
                   App.msg_timestamp := at1 |} ])
          ++ [ {| App.msg_type := App.assistant; App.msg_content := response;
                  App.msg_timestamp := App.at_assistant clk |} ]).
  rewrite Hmsgs. cbn [app].
  change (App.currentInput (App.setCurrentInput t _)) with t.
  by rewrite buildPromptWithContext_exchange.
Qed.

(** A jar with a note. *)
Lemma chat0_followup_repeats_first_prompt_witness :
  let s := App.setAdditionalNotes "no kerbside collection"
             (App.setItems [ {| App.item_id := "1"; App.item_name := "jar" |};
                             App.blank_item "1700000000001" ] App.initial) in
  let clk := {| App.at_assistant := "t3"; App.now_id := "2"; App.at_entry := "t4" |} in
  ∃ s1 p1 s3 p2,
    Chat0.submit_begin "t1" s = Some (s1, p1)
    ∧ Chat0.submit_begin "t5"
        (App.setCurrentInput "And the lid?"
           (App.submit_settle p1 (Retry.Fulfilled "Rinse it.") clk s1))
      = Some (s3, p2)
    ∧ App.sent_prompt p2
      = "Human: I need recycling instructions for the following items: jar. "
        +:+ "Additional considerations: no kerbside collection"
        +:+ App.newline +:+ "Assistant: Rinse it."
        +:+ App.newline +:+ App.newline +:+ "Human: And the lid?".
Proof.
  intros s clk.
  destruct (chat0_followup_repeats_first_prompt s "t1" "t5" "Rinse it." "And the lid?" clk)
    as (s1 & p1 & s3 & p2 & H1 & H2 & H3 & H4).
  - reflexivity.
  - reflexivity.
  - discriminate.
  - reflexivity.
  - exists s1, p1, s3, p2. split; [exact H1|]. split; [exact H2|].
    rewrite H4, H3. reflexivity.
Defined.

(** X20.  The two chat components differ in the first request only: a
    follow-up is handled by both in the same way, requests and final state
    alike, and both return at once on the same states. *)
Theorem chat0_agrees_on_followups (up : Retry.Upstream) (at_user : string)
    (clk : App.Clock) (s : App.State) :
  (App.showItemsInput s = false →
   Chat0.handleSubmit up at_user clk s = App.handleSubmit up at_user clk s)
  ∧ (Chat0.submit_begin at_user s = None ↔ App.submit_begin at_user s = None)
  ∧ (Chat0.handleSubmit up at_user clk s = (App.Returned s, [])
     ↔ App.handleSubmit up at_user clk s = (App.Returned s, [])).
Proof.
  assert (Chat0.submit_begin at_user s = None ↔ App.submit_begin at_user s = None) as Hnone.
  { unfold Chat0.submit_begin, App.submit_begin.
    destruct (App.showItemsInput s).
    - by destruct (length _ =? 0)%nat.
    - by destruct (Js.nonblank _). }
  split; [|split; [exact Hnone|]].
  - intros Hmode. unfold Chat0.handleSubmit, App.handleSubmit.
    by rewrite chat0_submit_begin_chat.
  - unfold Chat0.handleSubmit, App.handleSubmit.
    destruct (Chat0.submit_begin at_user s) as [[s1 p]|] eqn:H0;
      destruct (App.submit_begin at_user s) as [[s1' p']|] eqn:H1.
    + pose proof (fetchWithRetry_posts up (App.sent_prompt p)) as [i Hi].
      pose proof (fetchWithRetry_posts up (App.sent_prompt p')) as [i' Hi'].
      destruct (Retry.fetchWithRetry up (App.sent_prompt p) 0) as [evs r].
      destruct (Retry.fetchWithRetry up (App.sent_prompt p') 0) as [evs' r'].
      split; intros Heq; exfalso; simplify_eq/=.
    + destruct Hnone as [_ Hn]. discriminate (Hn eq_refl).
    + destruct Hnone as [Hn _]. discriminate (Hn eq_refl).
    + done.
Qed.

(** X21.  In the earlier component the page leaves the item form only when
    a first request is answered, which adds the entry to the history, and
    comes back to it only by "New chat", which empties the transcript: no
    other event changes the mode. *)
Theorem chat0_mode_transitions (c c' : Page.Config) (a : Chat0.Action) :
  Chat0.step c a = Some c' →
  App.showItemsInput (Page.state c') = App.showItemsInput (Page.state c)
  ∨ (a = Chat0.NewChat
     ∧ App.showItemsInput (Page.state c') = true
     ∧ App.messages (Page.state c') = [])
  ∨ (∃ n p response clk,
       a = Chat0.Settle n (Retry.Fulfilled response) clk
       ∧ Page.waiting c !! n = Some p
       ∧ App.sent_showItemsInput p = true
       ∧ App.showItemsInput (Page.state c') = false
       ∧ App.history (Page.state c') = App.entry_of p response clk :: App.history (Page.state c)).
Proof.
  intros Hstep. destruct a as [id value now|id|v|v| | |at_user|n r clk]; simpl in Hstep.
  - destruct (App.handleItemChange _ _ _ _); simplify_eq/=. by left.
  - simplify_eq/=. by left.
  - simplify_eq/=. by left.
  - simplify_eq/=. by left.
  - simplify_eq/=. by left.
  - simplify_eq/=. right. by left.
  - destruct (Chat0.submit_begin at_user (Page.state c)) as [[s1 p]|] eqn:Hbegin;
      simplify_eq/=.
    + left. by apply chat0_submit_begin_mode in Hbegin as [-> _].
    + by left.
  - destruct (Page.waiting c !! n) as [p|] eqn:Hp; [|simplify_eq; by left].
    injection Hstep as <-. cbn [Page.state].
    rewrite submit_settle_mode, submit_settle_history.
    destruct r as [response|e]; [|by left].
    destruct (App.sent_showItemsInput p) eqn:Hsent; [|by left].
    right. right. by exists n, p, response, clk.
Qed.

(** The first answer arrives. *)
Lemma chat0_mode_transitions_witness :
  let p := {| App.sent_showItemsInput := true;
              App.sent_items := [ {| App.item_id := "1"; App.item_name := "jar" |} ];
              App.sent_additionalNotes := ""; App.sent_prompt := "jar" |} in
  let clk := {| App.at_assistant := "t3"; App.now_id := "2"; App.at_entry := "t4" |} in
  let c := {| Page.state := App.setIsLoading true App.initial;
              Page.store := ∅; Page.waiting := [p] |} in
  match Chat0.step c (Chat0.Settle 0 (Retry.Fulfilled "Rinse it.") clk) with
  | Some c' =>
      App.showItemsInput (Page.state c') = false
      ∧ App.history (Page.state c') = [App.entry_of p "Rinse it." clk]
  | None => False
  end.
Proof.
  intros p clk c.
  destruct (Chat0.step c (Chat0.Settle 0 (Retry.Fulfilled "Rinse it.") clk)) as [c'|] eqn:Hstep;
    [|vm_compute in Hstep; discriminate].
  destruct (chat0_mode_transitions c c' _ Hstep)
    as [Heq|[(Habs & _)|(n & p' & response & clk' & Ha & Hp & _ & Hmode & Hhist)]].
  - vm_compute in Hstep. injection Hstep as <-. discriminate Heq.
  - discriminate Habs.
  - injection Ha as <- <- <-. injection Hp as <-. split; [exact Hmode|exact Hhist].
Defined.

(** ** The single-item component *)

Section AssistantFacts.

Import Retry.

Lemma all_white_append (a b : string) :
  Js.all_white (a +:+ b) = Js.all_white a && Js.all_white b.
Proof.
  induction a as [|c a IH]; [done|].
  change (Js.all_white (String c a +:+ b)) with (Js.is_white c && Js.all_white (a +:+ b)).
  rewrite IH. simpl. by rewrite andb_assoc.
Qed.

Lemma trim_start_split (s : string) :
  ∃ pre, Js.all_white pre = true ∧ s = pre +:+ Js.trim_start s.
Proof.
  induction s as [|c s (pre & Hpre & IH)]; [by exists ""|]. simpl.
  destruct (Js.is_white c) eqn:Hc.
  - exists (String c pre). split; [simpl; by rewrite Hc|].
    change (String c s = String c (pre +:+ Js.trim_start s)). by rewrite <- IH.
  - by exists "".
Qed.

Lemma trim_end_split (s : string) :
  ∃ post, Js.all_white post = true ∧ s = Js.trim_end s +:+ post.
Proof.
  induction s as [|c s (post & Hpost & IH)]; [by exists ""|]. simpl.
  destruct (Js.trim_end s) as [|c' t] eqn:Ht.
  - destruct (Js.is_white c) eqn:Hc.
    + exists (String c post). split; [simpl; by rewrite Hc|]. by rewrite IH.
    + exists post. split; [done|]. by rewrite IH.
  - exists post. split; [done|].
    change (String c s = String c (String c' t +:+ post)). by rewrite <- IH.
Qed.

(** [s.trim()] is [s] without a white prefix and a white suffix. *)
Lemma trim_split (s : string) :
  ∃ pre post, Js.all_white pre = true ∧ Js.all_white post = true
              ∧ s = pre +:+ Js.trim s +:+ post.
Proof.
  destruct (trim_start_split s) as (pre & Hpre & Hs).
  destruct (trim_end_split (Js.trim_start s)) as (post & Hpost & Ht).
  exists pre, post. split; [done|]. split; [done|].
  unfold Js.trim. by rewrite <- Ht.
Qed.

Lemma nonblank_trim (s : string) : Js.nonblank (Js.trim s) = Js.nonblank s.
Proof.
  rewrite !nonblank_all_white. f_equal.
  destruct (trim_split s) as (pre & post & Hpre & Hpost & Hs).
  rewrite Hs at 2. rewrite !all_white_append, Hpre, Hpost.
  by rewrite andb_true_r.
Qed.

Lemma assistant_submit_begin (s : Assistant.State) :
  Js.nonblank (Assistant.item s) = true →
  Assistant.submit_begin s
  = Some ({| Assistant.item := Assistant.item s; Assistant.isLoading := true;
             Assistant.history := Assistant.history s; Assistant.error := None |},
          Assistant.item s).
Proof. intros Hitem. unfold Assistant.submit_begin. by rewrite Hitem. Qed.

End AssistantFacts.

(** X22.  A submission of the single-item component with a name in the
    field: the question about the item as typed is posted once and again
    after each 429, four times at most; the outcome of the last request
    decides.  A text adds an entry to the front of the history, under the
    time of the answer, and empties the field; a failure keeps field and
    history and shows a message by its status; in both cases the loading
    flag is off again.  The rate message is shown only after four requests
    that were all answered 429. *)
Theorem assistant_submission (up : Retry.Upstream) (stamp : Assistant.Stamp)
    (s : Assistant.State) :
  Js.nonblank (Assistant.item s) = true →
  let body :=
    Retry.request_body
      ("How should I recycle " +:+ Assistant.item s
       +:+ "? Please provide specific steps and alternative ways to reuse it.") in
  let result := Assistant.handleSubmit up stamp s in
  ∃ i, (i ≤ 3)%nat
    ∧ (∀ j, (j < i)%nat → Retry.status_of (up j body) = Some 429)
    ∧ Retry.posts result.2 = replicate (S i) body
    ∧ result.1
      = match Retry.settle (up i body) with
        | Retry.Fulfilled (JStr response) =>
            Assistant.Settles
              {| Assistant.item := ""; Assistant.isLoading := false;
                 Assistant.history :=
                   {| Assistant.id := Assistant.now_id stamp;
                      Assistant.item_name := Js.trim (Assistant.item s);
                      Assistant.instructions := response;
                      Assistant.timestamp := Assistant.at_entry stamp |}
                   :: Assistant.history s;
                 Assistant.error := None |}
        | Retry.Fulfilled v =>
            Assistant.NotAString
              {| Assistant.item := Assistant.item s; Assistant.isLoading := true;
                 Assistant.history := Assistant.history s; Assistant.error := None |} v
        | Retry.Rejected e =>
            Assistant.Settles
              {| Assistant.item := Assistant.item s; Assistant.isLoading := false;
                 Assistant.history := Assistant.history s;
                 Assistant.error :=
                   Some (match Retry.status_of (up i body) with
                         | Some 429 => "Too many requests. Please wait a moment and try again."
                         | Some 401 => "Invalid API key. Please check your configuration."
                         | _ => "Failed to get recycling instructions. Please try again."
                         end) |}
        end
    ∧ (Retry.status_of (up i body) = Some 429 → i = 3%nat).
Proof.
  intros Hitem body result.
  destruct (retries_exist up (Assistant.prompt (Assistant.item s))) as (i & Hi & Hretry & Hstop).
  exists i. split; [exact Hi|]. split; [exact Hretry|].
  assert (result
          = (match Retry.settle (up i body) with
             | Retry.Fulfilled (JStr response) =>
                 Assistant.Settles
                   (Assistant.submit_settle (Assistant.item s) (Retry.Fulfilled response) stamp
                      {| Assistant.item := Assistant.item s; Assistant.isLoading := true;
                         Assistant.history := Assistant.history s;
                         Assistant.error := None |})
             | Retry.Fulfilled v =>
                 Assistant.NotAString
                   {| Assistant.item := Assistant.item s; Assistant.isLoading := true;
                      Assistant.history := Assistant.history s; Assistant.error := None |} v
             | Retry.Rejected e =>
                 Assistant.Settles
                   (Assistant.submit_settle (Assistant.item s) (Retry.Rejected e) stamp
                      {| Assistant.item := Assistant.item s; Assistant.isLoading := true;
                         Assistant.history := Assistant.history s;
                         Assistant.error := None |})
             end, Retry.schedule body 0 i)) as ->.
  { subst result. unfold Assistant.handleSubmit, Assistant.fetchWithRetry.
    rewrite (assistant_submit_begin s Hitem).
    rewrite (fetchWithRetry_schedule up _ i Hi Hretry Hstop). reflexivity. }
  cbn [fst snd]. split; [apply posts_schedule|]. split.
  - destruct (up i body) as [data|status data|]; simpl.
    + unfold Retry.extract_text. destruct (Value.get data "candidates"); [|done].
      by destruct (Value.or_else _ _).
    + unfold Assistant.submit_settle, Assistant.errorMessage. cbn.
      destruct (Z.eqb_spec status 429) as [->|H429]; [done|].
      destruct (Z.eqb_spec status 401) as [->|H401]; [done|].
      destruct status as [|[q|q|]|q]; try done;
        repeat (destruct q as [q|q|]; try done).
    + done.
  - intros H429. destruct (decide (i < Retry.MAX_RETRIES)%nat) as [Hlt|Hge].
    + by destruct (Hstop Hlt).
    + unfold Retry.MAX_RETRIES in *. lia.
Qed.

(** A service that is rate limited twice and then answers. *)
Lemma assistant_submission_witness :
  let up : Retry.Upstream :=
    λ n _, if (n <? 2)%nat then Retry.HttpError 429 JNull
           else Retry.Resolves (Retry.answer "Rinse it.") in
  let stamp := {| Assistant.now_id := "1700000000000"; Assistant.at_entry := "t1" |} in
  let s := {| Assistant.item := " glass jar "; Assistant.isLoading := false;
              Assistant.history := []; Assistant.error := Some "old" |} in
  length (Retry.posts (Assistant.handleSubmit up stamp s).2) = 3%nat
  ∧ (Assistant.handleSubmit up stamp s).1
    = Assistant.Settles
        {| Assistant.item := ""; Assistant.isLoading := false;
           Assistant.history :=
             [ {| Assistant.id := "1700000000000"; Assistant.item_name := "glass jar";
                  Assistant.instructions := "Rinse it."; Assistant.timestamp := "t1" |} ];
           Assistant.error := None |}.
Proof.
  intros up stamp s.
  destruct (assistant_submission up stamp s eq_refl)
    as (i & Hi & Hretry & Hposts & Hres & Hlast).
  assert (i = 2%nat) as ->.
  { destruct i as [|[|[|i]]]; [| |done|].
    - discriminate (Hlast eq_refl).
    - discriminate (Hlast eq_refl).
    - discriminate (Hretry 2%nat ltac:(lia)). }
  split; [by rewrite Hposts|]. rewrite Hres. vm_compute. reflexivity.
Defined.

(** X23.  The entry of a successful submission is named by the trimmed text
    of the field, while every request of the submission asked about the
    text as typed: the name is the typed text without the white space at
    its ends, and it is not blank.  The field is empty afterwards. *)
Theorem assistant_entry_name (up : Retry.Upstream) (stamp : Assistant.Stamp)
    (s s' : Assistant.State) :
  (Assistant.handleSubmit up stamp s).1 = Assistant.Settles s' →
  Assistant.error s' = None →
  ∃ entry pre post,
    Assistant.history s' = entry :: Assistant.history s
    ∧ Assistant.item s' = ""
    ∧ Js.all_white pre = true ∧ Js.all_white post = true
    ∧ Assistant.item s = pre +:+ Assistant.item_name entry +:+ post
    ∧ Js.nonblank (Assistant.item_name entry) = true
    ∧ Forall (λ body,
        body = Retry.request_body
                 ("How should I recycle " +:+ pre +:+ Assistant.item_name entry +:+ post
                  +:+ "? Please provide specific steps and alternative ways to reuse it."))
        (Retry.posts (Assistant.handleSubmit up stamp s).2).
Proof.
  unfold Assistant.handleSubmit, Assistant.submit_begin.
  destruct (Js.nonblank (Assistant.item s)) eqn:Hitem; [|discriminate].
  unfold Assistant.fetchWithRetry.
  pose proof (fetchWithRetry_posts up (Assistant.prompt (Assistant.item s))) as [i Hposts].
  destruct (Retry.fetchWithRetry up _ 0) as [evs r]. cbn [fst snd] in *.
  intros Hres Herr.
  destruct r as [[v|e]|]; [| |discriminate].
  - destruct v; try discriminate. injection Hres as <-.
    destruct (trim_split (Assistant.item s)) as (pre & post & Hpre & Hpost & Hs).
    eexists _, pre, post. split; [reflexivity|]. split; [reflexivity|].
    split; [exact Hpre|]. split; [exact Hpost|]. cbn [Assistant.item_name].
    split; [exact Hs|]. split; [by rewrite nonblank_trim|].
    rewrite Hposts. apply Forall_replicate. f_equal.
    unfold Assistant.prompt. f_equal. rewrite Hs at 1. by rewrite !append_assoc.
  - injection Hres as <-. discriminate Herr.
Qed.

(** A jar typed with spaces around it. *)
Lemma assistant_entry_name_witness :
  let up : Retry.Upstream := λ _ _, Retry.Resolves (Retry.answer "Rinse it.") in
  let stamp := {| Assistant.now_id := "1700000000000"; Assistant.at_entry := "t1" |} in
  let s := {| Assistant.item := " glass jar "; Assistant.isLoading := false;
              Assistant.history := []; Assistant.error := None |} in
  match (Assistant.handleSubmit up stamp s).1 with
  | Assistant.Settles s' =>
      ∃ entry pre post,
        Assistant.history s' = [entry]
        ∧ " glass jar " = pre +:+ Assistant.item_name entry +:+ post
        ∧ Js.nonblank (Assistant.item_name entry) = true
  | _ => False
  end.
Proof.
  intros up stamp s.
  destruct (Assistant.handleSubmit up stamp s).1 as [s0|s'|s0 v|] eqn:Hres;
    [vm_compute in Hres; discriminate| |vm_compute in Hres; discriminate
    |vm_compute in Hres; discriminate].
  destruct (assistant_entry_name up stamp s s' Hres)
    as (entry & pre & post & Hhist & _ & _ & _ & Hs & Hname & _).
  - vm_compute in Hres. by injection Hres as <-.
  - by exists entry, pre, post.
Defined.

(** X24.  The single-item component behind the server (body parser and
    proxy route): a submission makes one request; when the upstream call
    fails, whatever its status, the page shows the generic message, field
    and history as they were.  The messages for a rate limit and for a
    wrong key are never shown, as the route answers every upstream failure
    with status 500 and the parser refuses with 413. *)
Theorem assistant_behind_route (error_page : Z → string) (API_KEY : option string)
    (service : nat → string → Json → Retry.Reply) (stamp : Assistant.Stamp)
    (s : Assistant.State) :
  Js.nonblank (Assistant.item s) = true →
  let body := Retry.request_body (Assistant.prompt (Assistant.item s)) in
  let result :=
    Assistant.handleSubmit (Route.through error_page API_KEY service) stamp s in
  result.2 = [Retry.Posted Retry.endpoint body]
  ∧ ((∀ data, service 0%nat (Proxy.API_URL API_KEY) body ≠ Retry.Resolves data) →
     result.1
     = Assistant.Settles
         {| Assistant.item := Assistant.item s; Assistant.isLoading := false;
            Assistant.history := Assistant.history s;
            Assistant.error :=
              Some "Failed to get recycling instructions. Please try again." |})
  ∧ (∀ s', result.1 = Assistant.Settles s' →
     Assistant.error s' ≠ Some "Too many requests. Please wait a moment and try again."
     ∧ Assistant.error s' ≠ Some "Invalid API key. Please check your configuration.").
Proof.
  intros Hitem body result.
  assert (result
          = (match Retry.settle (Route.through error_page API_KEY service 0%nat body) with
             | Retry.Fulfilled (JStr response) =>
                 Assistant.Settles
                   (Assistant.submit_settle (Assistant.item s) (Retry.Fulfilled response) stamp
                      {| Assistant.item := Assistant.item s; Assistant.isLoading := true;
                         Assistant.history := Assistant.history s;
                         Assistant.error := None |})
             | Retry.Fulfilled v =>
                 Assistant.NotAString
                   {| Assistant.item := Assistant.item s; Assistant.isLoading := true;
                      Assistant.history := Assistant.history s; Assistant.error := None |} v
             | Retry.Rejected e =>
                 Assistant.Settles
                   (Assistant.submit_settle (Assistant.item s) (Retry.Rejected e) stamp
                      {| Assistant.item := Assistant.item s; Assistant.isLoading := true;
                         Assistant.history := Assistant.history s;
                         Assistant.error := None |})
             end, [Retry.Posted Retry.endpoint body])) as ->.
  { subst result. unfold Assistant.handleSubmit, Assistant.fetchWithRetry.
    rewrite (assistant_submit_begin s Hitem), fetchWithRetry_through. reflexivity. }
  cbn [fst snd]. split; [done|].
  unfold Route.through. subst body. rewrite handled_request.
  destruct (_ <=? Route.JSON_LIMIT).
  - rewrite route_handles_client_body. split.
    + intros Hfails.
      destruct (service 0%nat _ _) as [d|st d|]; [|done|done].
      destruct (Hfails d eq_refl).
    + intros s' Hres.
      destruct (service 0%nat _ _) as [d|st d|]; simpl in Hres.
      * unfold Retry.extract_text in Hres.
        destruct (Value.get d "candidates"); [|by injection Hres as <-].
        destruct (Value.or_else _ _); try discriminate. by injection Hres as <-.
      * by injection Hres as <-.
      * by injection Hres as <-.
  - split; [done|]. intros s' Hres. simpl in Hres. by injection Hres as <-.
Qed.

(** A rate-limited service behind the route. *)
Lemma assistant_behind_route_witness :
  let service : nat → string → Json → Retry.Reply :=
    λ _ _ _, Retry.HttpError 429 (JStr "slow down") in
  let page : Z → string := λ _, "Payload Too Large" in
  let stamp := {| Assistant.now_id := "1700000000000"; Assistant.at_entry := "t1" |} in
  let s := {| Assistant.item := "glass jar"; Assistant.isLoading := false;
              Assistant.history := []; Assistant.error := None |} in
  length (Assistant.handleSubmit (Route.through page (Some "k") service) stamp s).2 = 1%nat
  ∧ (Assistant.handleSubmit (Route.through page (Some "k") service) stamp s).1
    = Assistant.Settles
        {| Assistant.item := "glass jar"; Assistant.isLoading := false;
           Assistant.history := [];
           Assistant.error :=
             Some "Failed to get recycling instructions. Please try again." |}.
Proof.
  intros service page stamp s.
  destruct (assistant_behind_route page (Some "k") service stamp s eq_refl)
    as (Hevs & Hfail & _).
  split; [by rewrite Hevs|]. apply Hfail. intros data. discriminate.
Defined.

(** ** The theme *)

(** X25.  Two clicks on the theme button bring a dark or a light page back
    to the state it had, and the stored theme is the theme on the page
    after each click; other stored values are not touched.  A page whose
    theme is neither of the two is dark after one click and light after
    two. *)
Theorem toggleTheme_twice (s : App.State) (ls : gmap string string) :
  let once := Store.toggleTheme s ls in
  let twice := Store.toggleTheme once.1 once.2 in
  App.theme twice.1 = (if String.eqb (App.theme s) "dark" then "dark" else "light")
  ∧ Store.saved_theme once.2 = App.theme once.1
  ∧ Store.saved_theme twice.2 = App.theme twice.1
  ∧ (∀ k, k ≠ Store.theme_key → twice.2 !! k = ls !! k)
  ∧ (App.theme s = "dark" ∨ App.theme s = "light" → twice.1 = s)
  ∧ (App.theme s ≠ "dark" → App.theme once.1 = "dark").
Proof.
  intros once twice. subst once twice. unfold Store.toggleTheme, Store.saved_theme.
  cbn [fst snd App.theme App.setTheme].
  split; [by destruct (String.eqb (App.theme s) "dark")|].
  split; [rewrite lookup_insert_eq; by destruct (String.eqb (App.theme s) "dark")|].
  split.
  { rewrite lookup_insert_eq. by destruct (String.eqb (App.theme s) "dark"). }
  split; [intros k Hk; by rewrite !lookup_insert_ne|].
  split.
  - intros [Hdark|Hlight]; destruct s as [th ? ? ? ? ? ? ? ? ?]; simpl in *; by subst th.
  - intros Hnot. by destruct (String.eqb_spec (App.theme s) "dark").
Qed.

(** ** The error banner *)

(** X26.  The error on the page changes in three ways only: "New chat" and
    a submission that is accepted clear it, and a request that fails sets
    the one failure message.  Typing, removing a slot, the theme button, an
    answer that arrives and opening a conversation from the history leave
    it as it is, so the banner of a failed request stays over a reopened
    conversation. *)
Theorem error_changes (c c' : Page.Config) (a : Page.Action) :
  Page.step c a = Some c' →
  App.error (Page.state c') = App.error (Page.state c)
  ∨ (a = Page.NewChat ∧ App.error (Page.state c') = None)
  ∨ (∃ at_user, a = Page.Submit at_user
                ∧ App.submit_begin at_user (Page.state c) ≠ None
                ∧ App.error (Page.state c') = None)
  ∨ (∃ n e clk p, a = Page.Settle n (Retry.Rejected e) clk
                  ∧ Page.waiting c !! n = Some p
                  ∧ App.error (Page.state c')
                    = Some "Failed to get a response. Please try again.").
Proof.
  intros Hstep.
  destruct a as [id value now|id|v|v| |n| |at_user|n r clk];
    [simpl in Hstep..|].
  - destruct (App.handleItemChange _ _ _ _); simplify_eq/=. by left.
  - simplify_eq/=. by left.
  - simplify_eq/=. by left.
  - simplify_eq/=. by left.
  - simplify_eq/=. by left.
  - destruct (App.history (Page.state c) !! n) as [entry|]; simplify_eq/=; by left.
  - simplify_eq/=. right. by left.
  - destruct (App.submit_begin at_user (Page.state c)) as [[s1 p]|] eqn:Hbegin;
      simplify_eq/=; [|by left].
    right. right. left. exists at_user. split; [done|]. split; [by rewrite Hbegin|].
    unfold App.submit_begin in Hbegin.
    destruct (App.showItemsInput (Page.state c)); simpl in Hbegin.
    + destruct (length _ =? 0)%nat; [done|]. by simplify_eq/=.
    + destruct (Js.nonblank _); [|done]. by simplify_eq/=.
  - destruct (Page.waiting c !! n) as [p|] eqn:Hp.
    + destruct (step_settle c n r clk c' p Hstep Hp) as (-> & _ & _).
      destruct r as [response|e].
      * left. unfold App.submit_settle. by destruct (App.sent_showItemsInput p).
      * right. right. right. by exists n, e, clk, p.
    + simpl in Hstep. rewrite Hp in Hstep. simplify_eq. by left.
Qed.

(** A stored conversation opened under the banner of a failed request. *)
Lemma error_changes_witness :
  let entry := {| App.entry_id := "1";
                  App.entry_items := [ {| App.item_id := "1"; App.item_name := "jar" |} ];
                  App.entry_additionalNotes := ""; App.entry_instructions := "Rinse it.";
                  App.entry_timestamp := "t0" |} in
  let c := {| Page.state :=
                App.setError (Some "Failed to get a response. Please try again.")
                  (App.setHistory [entry] App.initial);
              Page.store := ∅; Page.waiting := [] |} in
  match Page.step c (Page.OpenHistory 0) with
  | Some c' =>
      App.error (Page.state c') = Some "Failed to get a response. Please try again."
      ∧ App.showItemsInput (Page.state c') = false
  | None => False
  end.
Proof.
  intros entry c.
  destruct (Page.step c (Page.OpenHistory 0)) as [c'|] eqn:Hstep;
    [|vm_compute in Hstep; discriminate].
  destruct (error_changes c c' _ Hstep)
    as [Heq|[(Habs & _)|[(at_user & Habs & _)|(n & e & clk & p & Habs & _)]]];
    try discriminate.
  split; [by rewrite Heq|]. vm_compute in Hstep. by injection Hstep as <-.
Defined.
